(** * Screen-mockup compositor: image geometry and the two-stage orchestrator

    A shallow embedding of [services/geminiService] (the helpers
    [getImageDimensions], [cropToOriginalAspectRatio], [resizeImage],
    [fileToPart] and the exported [generateCompositeImage]) and of the
    [catch] clause of [handleGenerate] in the application component.

    - JavaScript numbers are an interface [JSNumber] with two instances:
      IEEE-754 binary64 ([spec_float] at precision 53), which is what the
      code computes with, and exact rationals [Q], the arithmetic the
      formulas denote.  What holds in any arithmetic is stated for every
      instance; bounds are proved in binary64 at the target the
      orchestrator passes, and in [Q] for every target a canvas accepts
      as a size.
    - The browser (file reader, image decoder, canvas encoder, clock) and
      the hosted model are a record [World] of responses; a settled promise
      is a value of [JsValue + A].
    - The [async] orchestrator runs in a small monad that threads the list
      of helper and model calls it has awaited, so that "this call is never
      issued" is a statement about that list.
    - The application component ([App]: its state, its handlers, the
      effect on [isLoading] and [renderContent]) is a transition system on
      the [useState] cells and the invocations that have not settled;
      [dataURLtoFile] is embedded with its copying loop. *)

From Stdlib Require Import ZArith QArith Qround Qabs Bool List String Ascii Lia Lqa.
From Stdlib Require Import Floats.SpecFloat.
Import ListNotations.

Local Open Scope Z_scope.

(** ** Numbers *)

Class JSNumber (R : Type) := {
  ofZ : Z -> R;                 (* an integer literal or an integer-valued property *)
  ndiv : R -> R -> R;           (* a / b *)
  nmul : R -> R -> R;           (* a * b *)
  nsub : R -> R -> R;           (* a - b *)
  ngt : R -> R -> bool;         (* a > b *)
  toUnsignedLong : R -> Z       (* conversion done by an [unsigned long] attribute setter *)
}.

Declare Scope js_scope.
Delimit Scope js_scope with js.
Infix "/" := ndiv : js_scope.
Infix "*" := nmul : js_scope.
Infix "-" := nsub : js_scope.
Infix ">" := ngt : js_scope.

(** Exact rationals.  The setter conversion drops the fractional part and
    reduces modulo 2^32.  (Division is only used with a nonzero divisor:
    [Qdiv] by zero is 0, where JavaScript gives an infinity or NaN.) *)
Definition Q_toUnsignedLong (q : Q) : Z :=
  (Z.quot (Qnum q) (Zpos (Qden q))) mod 2 ^ 32.

#[export] Instance Q_JSNumber : JSNumber Q := {|
  ofZ := inject_Z;
  ndiv := Qdiv;
  nmul := Qmult;
  nsub := Qminus;
  ngt := fun a b => negb (Qle_bool a b);
  toUnsignedLong := Q_toUnsignedLong
|}.

(** IEEE-754 binary64. *)
Module Binary64.
Definition prec : Z := 53.
Definition emax : Z := 1024.

Definition t := spec_float.

Definition of_Z (z : Z) : t := binary_normalize prec emax z 0 false.

(* integer part of a finite value, sign kept *)
Definition integerPart (x : t) : Z :=
  match x with
  | S754_finite s m e =>
      let a := match e with
               | Zneg p => Z.shiftr (Zpos m) (Zpos p)
               | _ => Z.shiftl (Zpos m) e
               end in
      if s then - a else a
  | _ => 0   (* NaN, infinities and zeros convert to 0 *)
  end.

Definition to_unsigned_long (x : t) : Z := integerPart x mod 2 ^ 32.

(* the rational a finite value denotes *)
Definition to_Q (x : t) : option Q :=
  match x with
  | S754_zero _ => Some 0%Q
  | S754_finite s m e =>
      let a := match e with
               | Zneg p => (Zpos m # Pos.shiftl 1 (Npos p))%Q
               | _ => inject_Z (Z.shiftl (Zpos m) e)
               end in
      Some (if s then Qopp a else a)
  | _ => None
  end.

(* rounding of a mantissa, an exponent and a location to the nearest value *)
Definition round_aux : bool -> Z -> Z -> location -> t :=
  binary_round_aux prec emax.

(* a positive normal value in canonical form: 53 significant bits *)
Definition Normal (x : t) (m : positive) (e : Z) : Prop :=
  x = S754_finite false m e /\ 2 ^ 52 <= Zpos m < 2 ^ 53 /\ -1074 <= e <= 971.
End Binary64.

#[export] Instance Binary64_JSNumber : JSNumber Binary64.t := {|
  ofZ := Binary64.of_Z;
  ndiv := SFdiv Binary64.prec Binary64.emax;
  nmul := SFmul Binary64.prec Binary64.emax;
  nsub := SFsub Binary64.prec Binary64.emax;
  ngt := fun a b => SFltb b a;
  toUnsignedLong := Binary64.to_unsigned_long
|}.

(** ** Values, files and the canvas *)

(** What a [throw] or a rejected promise carries: an [Error] object, or any
    other value (a [ProgressEvent], an SDK object, ...) shown by its string
    form. *)
Inductive JsValue : Type :=
| Error (message : string)
| NonError (repr : string).

(** A settled promise. *)
Definition Promise (A : Type) : Type := (JsValue + A)%type.
Definition resolve {A} (a : A) : Promise A := inr a.
Definition reject {A} (e : JsValue) : Promise A := inl e.

Record Blob := { blob_bits : string; blob_type : string }.

Record File := {
  file_bits : string;
  file_name : string;
  file_type : string;
  lastModified : Z
}.

(** A decoded [Image].  The element is never attached to a document and
    carries no width attribute, so [img.width] and [img.height] are the
    natural dimensions. *)
Record HTMLImageElement := {
  src : string;
  naturalWidth : Z;
  naturalHeight : Z
}.
Definition img_width (img : HTMLImageElement) : Z := naturalWidth img.
Definition img_height (img : HTMLImageElement) : Z := naturalHeight img.

Record Dimensions := { width : Z; height : Z }.

(** A rectangle in canvas coordinates. *)
Record Box (R : Type) := { box_x : R; box_y : R; box_w : R; box_h : R }.
Arguments Build_Box {R}.
Arguments box_x {R}. Arguments box_y {R}.
Arguments box_w {R}. Arguments box_h {R}.

(** The 2D context records what was painted, oldest first. *)
Inductive DrawOp (R : Type) : Type :=
| FillRect (fillStyle : string) (rect : Box R)
| DrawImage (img : HTMLImageElement) (dest : Box R)
| DrawSubImage (img : HTMLImageElement) (source dest : Box R).
Arguments FillRect {R}. Arguments DrawImage {R}. Arguments DrawSubImage {R}.

Record Canvas (R : Type) := {
  canvas_width : Z;
  canvas_height : Z;
  painted : list (DrawOp R)
}.
Arguments Build_Canvas {R}.
Arguments canvas_width {R}. Arguments canvas_height {R}. Arguments painted {R}.

(** [document.createElement('canvas')]: 300 by 150 and blank. *)
Definition createCanvas {R} : Canvas R :=
  {| canvas_width := 300; canvas_height := 150; painted := [] |}.

(** [width] and [height] reflect content attributes limited to the range of
    a signed long: a converted value above [2^31 - 1] is replaced by the
    attribute's default, 300 for the width and 150 for the height. *)
Definition limited (default n : Z) : Z :=
  if n <=? 2147483647 then n else default.

(** Assigning [width] or [height] converts the number, limits it and clears
    the bitmap. *)
Definition set_width {R} `{JSNumber R} (c : Canvas R) (v : R) : Canvas R :=
  {| canvas_width := limited 300 (toUnsignedLong v);
     canvas_height := canvas_height c; painted := [] |}.
Definition set_height {R} `{JSNumber R} (c : Canvas R) (v : R) : Canvas R :=
  {| canvas_width := canvas_width c;
     canvas_height := limited 150 (toUnsignedLong v); painted := [] |}.
Definition paint {R} (c : Canvas R) (op : DrawOp R) : Canvas R :=
  {| canvas_width := canvas_width c; canvas_height := canvas_height c;
     painted := painted c ++ [op] |}.

(** ** The model's request and response *)

Record InlineData := { mimeType : string; data : string }.

Record Part := { text : option string; inlineData : option InlineData }.
Definition textPartOf (s : string) : Part := {| text := Some s; inlineData := None |}.
Definition inlinePartOf (d : InlineData) : Part := {| text := None; inlineData := Some d |}.

Record Content := { parts : option (list Part) }.
Record Candidate := { content : option Content }.

Record GenerateContentParameters := { model : string; contents : list Part }.

Record GenerateContentResponse := {
  candidates : option (list Candidate);
  response_text : string       (* the [text] accessor of the response *)
}.

(** ** The environment *)

Inductive ReaderOutcome : Type :=
| ReaderError (err : string)             (* [onerror], with the event's string form *)
| ReaderLoad (result : option string).   (* [onload]; [event.target.result] may be empty *)

Inductive ImageOutcome : Type :=
| ImageError (err : string)
| ImageLoad (img : HTMLImageElement).

Record World (R : Type) := {
  readAsDataURL : File -> ReaderOutcome;
  loadImage : string -> ImageOutcome;               (* [img.src = url] *)
  getContext2d : Canvas R -> bool;                  (* [false]: [getContext] gave null *)
  toBlob : Canvas R -> string -> Q -> option Blob;
  toDataURL : Canvas R -> string -> Q -> string;
  date_now : Z;
  newGoogleGenAI : option JsValue;                  (* [Some e]: the constructor threw [e] *)
  generateContent : GenerateContentParameters -> Promise GenerateContentResponse
}.
Arguments readAsDataURL {R}. Arguments loadImage {R}. Arguments getContext2d {R}.
Arguments toBlob {R}. Arguments toDataURL {R}. Arguments date_now {R}.
Arguments newGoogleGenAI {R}. Arguments generateContent {R}.

(** ** Strings *)

Local Open Scope string_scope.

Definition dq : string := String (ascii_of_nat 34) EmptyString.
Definition nl : string := String (ascii_of_nat 10) EmptyString.

Fixpoint unlines (ls : list string) : string :=
  match ls with
  | [] => EmptyString
  | l :: rest => l ++ nl ++ unlines rest
  end.

(** [s.split(c)] for a one-character separator. *)
Fixpoint split_aux (c : ascii) (s : string) (cur : string) : list string :=
  match s with
  | EmptyString => [cur]
  | String a rest =>
      if Ascii.eqb a c then cur :: split_aux c rest EmptyString
      else split_aux c rest (cur ++ String a EmptyString)
  end.
Definition split (c : ascii) (s : string) : list string := split_aux c s EmptyString.

Definition isLineTerminator (a : ascii) : bool :=
  Ascii.eqb a (ascii_of_nat 10) || Ascii.eqb a (ascii_of_nat 13).

(** The lazy group [(.*?)] followed by [;]: the characters up to the first
    semicolon, none of them a line terminator. *)
Fixpoint lazyUntilSemicolon (s : string) : option string :=
  match s with
  | EmptyString => None
  | String a rest =>
      if Ascii.eqb a ";" then Some EmptyString
      else if isLineTerminator a then None
      else option_map (String a) (lazyUntilSemicolon rest)
  end.

(** [s.match(/:(.*?);/)], giving the captured group of the leftmost match. *)
Fixpoint matchMime (s : string) : option string :=
  match s with
  | EmptyString => None
  | String a rest =>
      if Ascii.eqb a ":" then
        match lazyUntilSemicolon rest with
        | Some g => Some g
        | None => matchMime rest
        end
      else matchMime rest
  end.

(** A string is falsy exactly when it is empty. *)
Definition truthy (s : string) : bool :=
  match s with EmptyString => false | _ => true end.

(** ** The helpers *)

Section Helpers.
Context {R : Type} `{JSNumber R}.
Variable W : World R.

Local Open Scope js_scope.

Definition getImageDimensions (file : File) : Promise Dimensions :=
  match readAsDataURL W file with
  | ReaderError err => reject (Error ("File reader error: " ++ err))
  | ReaderLoad result =>
      match result with
      | Some url =>
          if truthy url then
            match loadImage W url with
            | ImageLoad img =>
                resolve {| width := naturalWidth img; height := naturalHeight img |}
            | ImageError err => reject (Error ("Image load error: " ++ err))
            end
          else reject (Error "Failed to read file.")
      | None => reject (Error "Failed to read file.")
      end
  end.

(** The geometry of the crop ([img.onload] of [cropToOriginalAspectRatio],
    up to the two offsets). *)
Definition cropToOriginalAspectRatio_layout
    (originalWidth originalHeight targetDimension : R) : Box R :=
  let aspectRatio := originalWidth / originalHeight in
  let '(contentWidth, contentHeight) :=
    if aspectRatio > ofZ 1 then
      (targetDimension, targetDimension / aspectRatio)
    else
      (targetDimension * aspectRatio, targetDimension) in
  let x := (targetDimension - contentWidth) / ofZ 2 in
  let y := (targetDimension - contentHeight) / ofZ 2 in
  {| box_x := x; box_y := y; box_w := contentWidth; box_h := contentHeight |}.

(** The canvas of the crop once [drawImage] has run. *)
Definition cropToOriginalAspectRatio_canvas (img : HTMLImageElement)
    (originalWidth originalHeight targetDimension : R) : Canvas R :=
  let b := cropToOriginalAspectRatio_layout originalWidth originalHeight targetDimension in
  let canvas := createCanvas in
  let canvas := set_width canvas (box_w b) in
  let canvas := set_height canvas (box_h b) in
  paint canvas
    (DrawSubImage img b
       {| box_x := ofZ 0; box_y := ofZ 0; box_w := box_w b; box_h := box_h b |}).

Definition cropToOriginalAspectRatio (imageDataUrl : string)
    (originalWidth originalHeight targetDimension : R) : Promise string :=
  match loadImage W imageDataUrl with
  | ImageLoad img =>
      let b := cropToOriginalAspectRatio_layout originalWidth originalHeight targetDimension in
      let canvas := set_height (set_width createCanvas (box_w b)) (box_h b) in
      if getContext2d W canvas then
        resolve (toDataURL W
                   (cropToOriginalAspectRatio_canvas img originalWidth originalHeight
                      targetDimension)
                   "image/jpeg" (95 # 100)%Q)
      else reject (Error "Could not get canvas context for cropping.")
  | ImageError err => reject (Error ("Image load error during cropping: " ++ err))
  end.

(** The geometry of the padding ([img.onload] of [resizeImage]). *)
Definition resizeImage_layout (imgWidth imgHeight targetDimension : R) : Box R :=
  let aspectRatio := imgWidth / imgHeight in
  let '(newWidth, newHeight) :=
    if aspectRatio > ofZ 1 then
      (targetDimension, targetDimension / aspectRatio)
    else
      (targetDimension * aspectRatio, targetDimension) in
  let x := (targetDimension - newWidth) / ofZ 2 in
  let y := (targetDimension - newHeight) / ofZ 2 in
  {| box_x := x; box_y := y; box_w := newWidth; box_h := newHeight |}.

(** The square canvas once the background and the image are painted. *)
Definition resizeImage_canvas (img : HTMLImageElement) (targetDimension : R) : Canvas R :=
  let canvas := createCanvas in
  let canvas := set_width canvas targetDimension in
  let canvas := set_height canvas targetDimension in
  let canvas :=
    paint canvas
      (FillRect "black"
         {| box_x := ofZ 0; box_y := ofZ 0;
            box_w := targetDimension; box_h := targetDimension |}) in
  paint canvas
    (DrawImage img
       (resizeImage_layout (ofZ (img_width img)) (ofZ (img_height img)) targetDimension)).

Definition resizeImage (file : File) (targetDimension : R) : Promise File :=
  match readAsDataURL W file with
  | ReaderError err => reject (Error ("File reader error: " ++ err))
  | ReaderLoad result =>
      match result with
      | Some url =>
          if truthy url then
            match loadImage W url with
            | ImageLoad img =>
                let canvas := set_height (set_width createCanvas targetDimension)
                                targetDimension in
                if getContext2d W canvas then
                  match toBlob W (resizeImage_canvas img targetDimension)
                          "image/jpeg" (95 # 100)%Q with
                  | Some blob =>
                      resolve {| file_bits := blob_bits blob;
                                 file_name := file_name file;
                                 file_type := "image/jpeg";
                                 lastModified := date_now W |}
                  | None => reject (Error "Canvas to Blob conversion failed.")
                  end
                else reject (Error "Could not get canvas context.")
            | ImageError err => reject (Error ("Image load error: " ++ err))
            end
          else reject (Error "Failed to read file.")
      | None => reject (Error "Failed to read file.")
      end
  end.

Definition fileToPart (file : File) : Promise Part :=
  match readAsDataURL W file with
  | ReaderError error => reject (NonError error)
  | ReaderLoad result =>
      match result with
      | None => reject (Error "Cannot read properties of null (reading 'split')")
      | Some dataUrl =>
          match split "," dataUrl with
          | arr0 :: arr1 :: _ =>
              match matchMime arr0 with
              | Some mime =>
                  if truthy mime then
                    resolve (inlinePartOf {| mimeType := mime; data := arr1 |})
                  else reject (Error "Could not parse MIME type from data URL")
              | None => reject (Error "Could not parse MIME type from data URL")
              end
          | _ => reject (Error "Invalid data URL")
          end
      end
  end.
End Helpers.

(** ** The orchestrator *)

(** The calls an invocation awaits, in the order it issues them. *)
Inductive Call (R : Type) : Type :=
| Call_newGoogleGenAI
| Call_getImageDimensions (file : File)
| Call_resizeImage (file : File) (targetDimension : R)
| Call_fileToPart (file : File)
| Call_generateContent (params : GenerateContentParameters)
| Call_cropToOriginalAspectRatio (imageDataUrl : string)
    (originalWidth originalHeight targetDimension : R).
Arguments Call_newGoogleGenAI {R}. Arguments Call_getImageDimensions {R}.
Arguments Call_resizeImage {R}. Arguments Call_fileToPart {R}.
Arguments Call_generateContent {R}. Arguments Call_cropToOriginalAspectRatio {R}.

(** An [async] body: it extends the list of calls and settles. *)
Definition Async (R A : Type) : Type := list (Call R) -> Promise A * list (Call R).

Definition ret {R A} (a : A) : Async R A := fun tr => (inr a, tr).
Definition throw {R A} (e : JsValue) : Async R A := fun tr => (inl e, tr).
Definition bind {R A B} (m : Async R A) (k : A -> Async R B) : Async R B :=
  fun tr =>
    match m tr with
    | (inr a, tr') => k a tr'
    | (inl e, tr') => (inl e, tr')
    end.
Definition await {R A} (c : Call R) (p : Promise A) : Async R A :=
  fun tr => (p, (tr ++ [c])%list).
Definition try_catch {R A} (m : Async R A) (handler : JsValue -> Async R A) : Async R A :=
  fun tr =>
    match m tr with
    | (inl e, tr') => handler e tr'
    | settled => settled
    end.

Notation "x <- m ;; k" := (bind m (fun x => k))
  (at level 61, m at next level, right associativity).

Definition descriptionPrompt : string :=
  nl ++ unlines [
    "You are an expert scene analyst. I will provide you with an image of a scene.";
    "Your task is to identify the single most prominent monitor, television, or video wall screen in the entire image.";
    "Provide a dense, semantic description of this specific screen and its location. This description will be used to guide another AI to replace the content on the screen.";
    EmptyString;
    "Example descriptions:";
    "- " ++ dq ++ "The target is the screen of the black television on the wooden media console, to the left of the white vase." ++ dq;
    "- " ++ dq ++ "The target is the laptop screen on the desk, which is positioned next to a stack of books and a silver lamp." ++ dq;
    "- " ++ dq ++ "The target is the large computer monitor with a silver stand in the center of the image." ++ dq;
    EmptyString;
    "If you cannot find a suitable screen, as a fallback, describe the most prominent and suitable flat surface for displaying a design.";
    EmptyString;
    "Provide only the description in a few sentences."
  ].

Definition compositionPrompt (semanticLocationDescription : string) : string :=
  nl ++ unlines [
    "**Role:**";
    "You are a visual composition expert. Your task is to take a 'design' image and display it on the screen of a monitor/television within a 'context' image. You must completely replace the original content of this screen with the design image.";
    EmptyString;
    "**Specifications:**";
    "-   **Design to display:**";
    "    The first image provided. This is the image that should appear on the monitor screen. Ignore any black padding around it.";
    "-   **Context to use:**";
    "    The second image provided. This is the context containing the monitor. Ignore any black padding around it.";
    "-   **Target Screen (Crucial):**";
    "    -   You must locate the specific screen in the context as described below. This is the screen whose content you will replace.";
    "    -   **Screen Description:** " ++ dq ++ semanticLocationDescription ++ dq;
    "-   **Final Image Requirements:**";
    "    -   The design image must be realistically displayed on the target screen.";
    "    -   Adjust the design image to match the screen's perspective, aspect ratio, and orientation. The design should fill the screen.";
    "    -   The design image must fill the entire screen, completely covering all of its original content.";
    "    -   The final image's overall style, lighting, shadows, and camera perspective must match the original context. The design on the screen should be affected by the context's lighting, including reflections or glare on the screen surface.";
    "    -   Do not simply paste the design. It must look like it is genuinely being displayed on the monitor.";
    "    -   You must not return the original context image without the design displayed on the monitor.";
    EmptyString;
    "The output should ONLY be the final, composed image. Do not add any text or explanation."
  ].

Definition descriptionModel : string := "gemini-2.5-flash-lite".
Definition compositionModel : string := "gemini-2.5-flash-image".

Definition hasInlineData (part : Part) : bool :=
  match inlineData part with Some _ => true | None => false end.

(** [response.candidates?.[0]?.content?.parts?.find(part => part.inlineData)] *)
Definition imagePartFromResponse (response : GenerateContentResponse) : option Part :=
  match candidates response with
  | Some (candidate0 :: _) =>
      match content candidate0 with
      | Some c =>
          match parts c with
          | Some ps => find hasInlineData ps
          | None => None
          end
      | None => None
      end
  | _ => None
  end.

(** [imagePartFromResponse?.inlineData] *)
Definition selectedInlineData (response : GenerateContentResponse) : option InlineData :=
  match imagePartFromResponse response with
  | Some part => inlineData part
  | None => None
  end.

(** The template literal [data:${mimeType};base64,${data}]. *)
Definition squareImageUrl (mimeType data : string) : string :=
  "data:" ++ mimeType ++ ";base64," ++ data.

Record CompositeResult := { finalImageUrl : string }.

Section Orchestrator.
Context {R : Type} `{JSNumber R}.
Variable W : World R.

Definition MAX_DIMENSION : R := ofZ 1024.

Definition describeRequest (contextImagePart : Part) : GenerateContentParameters :=
  {| model := descriptionModel;
     contents := [textPartOf descriptionPrompt; contextImagePart] |}.

Definition composeRequest (designImagePart contextImagePart : Part)
    (semanticLocationDescription : string) : GenerateContentParameters :=
  {| model := compositionModel;
     contents := [designImagePart; contextImagePart;
                  textPartOf (compositionPrompt semanticLocationDescription)] |}.

Definition generateCompositeImage
    (designImage : File) (designDescription : string)
    (contextImage : File) (contextDescription : string)
  : Async R CompositeResult :=
  _ <- await Call_newGoogleGenAI
         (match newGoogleGenAI W with
          | Some e => reject e
          | None => resolve tt
          end) ;;
  dims <- await (Call_getImageDimensions contextImage)
            (getImageDimensions W contextImage) ;;
  let originalWidth := ofZ (width dims) in
  let originalHeight := ofZ (height dims) in
  resizedDesignImage <- await (Call_resizeImage designImage MAX_DIMENSION)
                          (resizeImage W designImage MAX_DIMENSION) ;;
  resizedContextImage <- await (Call_resizeImage contextImage MAX_DIMENSION)
                           (resizeImage W contextImage MAX_DIMENSION) ;;
  contextImagePart <- await (Call_fileToPart resizedContextImage)
                        (fileToPart W resizedContextImage) ;;
  semanticLocationDescription <-
    try_catch
      (descriptionResponse <- await (Call_generateContent (describeRequest contextImagePart))
                                (generateContent W (describeRequest contextImagePart)) ;;
       ret (response_text descriptionResponse))
      (fun error => throw (Error "The AI failed to analyze the context image.")) ;;
  designImagePart <- await (Call_fileToPart resizedDesignImage)
                       (fileToPart W resizedDesignImage) ;;
  let request := composeRequest designImagePart contextImagePart
                   semanticLocationDescription in
  response <- await (Call_generateContent request) (generateContent W request) ;;
  match selectedInlineData response with
  | Some inline =>
      let mimeType := mimeType inline in
      let data := data inline in
      let generatedSquareImageUrl := squareImageUrl mimeType data in
      finalImageUrl <-
        await (Call_cropToOriginalAspectRatio generatedSquareImageUrl
                 originalWidth originalHeight MAX_DIMENSION)
          (cropToOriginalAspectRatio W generatedSquareImageUrl
             originalWidth originalHeight MAX_DIMENSION) ;;
      ret {| finalImageUrl := finalImageUrl |}
  | None => throw (Error "The AI model did not return an image. Please try again.")
  end.

(** One invocation from an empty history: how it settles, and what it called. *)
Definition run (designImage : File) (designDescription : string)
    (contextImage : File) (contextDescription : string)
  : Promise CompositeResult * list (Call R) :=
  generateCompositeImage designImage designDescription
    contextImage contextDescription [].
End Orchestrator.

(** The [catch] clause of [handleGenerate]: the text put in the error state. *)
Definition handleGenerate_catch (err : JsValue) : string :=
  let errorMessage :=
    match err with
    | Error message => message
    | NonError _ => "An unknown error occurred."
    end in
  "Failed to generate the image. " ++ errorMessage.

(** ** Reading the history of a run *)

Definition isGenerateContentFor {R} (m : string) (c : Call R) : bool :=
  match c with
  | Call_generateContent params => String.eqb (model params) m
  | _ => false
  end.

Definition isCrop {R} (c : Call R) : bool :=
  match c with
  | Call_cropToOriginalAspectRatio _ _ _ _ => true
  | _ => false
  end.

Definition isResize {R} (c : Call R) : bool :=
  match c with
  | Call_resizeImage _ _ => true
  | _ => false
  end.

Definition countCalls {R} (f : Call R -> bool) (tr : list (Call R)) : nat :=
  List.length (List.filter f tr).

(** Whether some part of some candidate carries inline data. *)
Definition candidateHasInlineData (c : Candidate) : bool :=
  match content c with
  | Some ct =>
      match parts ct with
      | Some ps => existsb hasInlineData ps
      | None => false
      end
  | None => false
  end.

Definition responseHasInlineData (r : GenerateContentResponse) : bool :=
  match candidates r with
  | Some cs => existsb candidateHasInlineData cs
  | None => false
  end.

(** How an awaited call settles in a given world: [Some e] when it rejects
    with [e]. *)
Definition rejection {R} `{JSNumber R} (W : World R) (c : Call R) : option JsValue :=
  let rejected {A} (p : Promise A) : option JsValue :=
    match p with inl e => Some e | inr _ => None end in
  match c with
  | Call_newGoogleGenAI => newGoogleGenAI W
  | Call_getImageDimensions file => rejected (getImageDimensions W file)
  | Call_resizeImage file t => rejected (resizeImage W file t)
  | Call_fileToPart file => rejected (fileToPart W file)
  | Call_generateContent params => rejected (generateContent W params)
  | Call_cropToOriginalAspectRatio url ow oh t =>
      rejected (cropToOriginalAspectRatio W url ow oh t)
  end.

(** ** The content box in the words of the specification *)

Section ContentBox.
Context {R : Type} `{JSNumber R}.
Local Open Scope js_scope.

(** Landscape ([aspectRatio > 1]): width [t], height [t / aspectRatio];
    otherwise height [t], width [t * aspectRatio]; centred in the square. *)
Definition contentBox (w h t : R) : Box R :=
  let aspectRatio := w / h in
  let landscape := aspectRatio > ofZ 1 in
  let contentWidth := if landscape then t else t * aspectRatio in
  let contentHeight := if landscape then t / aspectRatio else t in
  {| box_x := (t - contentWidth) / ofZ 2;
     box_y := (t - contentHeight) / ofZ 2;
     box_w := contentWidth;
     box_h := contentHeight |}.

Definition atOrigin (b : Box R) : Box R :=
  {| box_x := ofZ 0; box_y := ofZ 0; box_w := box_w b; box_h := box_h b |}.

Definition square (t : R) : Box R :=
  {| box_x := ofZ 0; box_y := ofZ 0; box_w := t; box_h := t |}.
End ContentBox.

(** ** A concrete scenario *)

Module Scenario.
Definition designFile : File :=
  {| file_bits := "REVTSUdO"; file_name := "poster.png";
     file_type := "image/png"; lastModified := 0 |}.
Definition contextFile : File :=
  {| file_bits := "Uk9PTQ=="; file_name := "room.jpg";
     file_type := "image/jpeg"; lastModified := 0 |}.

Definition pngPayload : InlineData :=
  {| mimeType := "image/png"; data := "Q09NUE9TSVRF" |}.

(** A browser in which every image decodes to [w] by [h] and every canvas
    operation succeeds, with the model's two answers as parameters. *)
Definition browser {R : Type} (w h : Z)
    (describe compose : Promise GenerateContentResponse) : World R :=
  {| readAsDataURL := fun f =>
       ReaderLoad (Some ("data:" ++ file_type f ++ ";base64," ++ file_bits f));
     loadImage := fun url =>
       ImageLoad {| src := url; naturalWidth := w; naturalHeight := h |};
     getContext2d := fun _ => true;
     toBlob := fun _ ty _ => Some {| blob_bits := "U1FVQVJF"; blob_type := ty |};
     toDataURL := fun _ ty _ => "data:" ++ ty ++ ";base64,Q1JPUFBFRA==";
     date_now := 1700000000000;
     newGoogleGenAI := None;
     generateContent := fun params =>
       if String.eqb (model params) descriptionModel then describe else compose |}.

Definition described (s : string) : Promise GenerateContentResponse :=
  resolve {| candidates :=
               Some [ {| content := Some {| parts := Some [textPartOf s] |} |} ];
             response_text := s |}.

Definition composed (cs : list Candidate) : Promise GenerateContentResponse :=
  resolve {| candidates := Some cs; response_text := EmptyString |}.

Definition imageCandidate : Candidate :=
  {| content :=
       Some {| parts := Some [textPartOf "Here you go."; inlinePartOf pngPayload] |} |}.
Definition textCandidate : Candidate :=
  {| content := Some {| parts := Some [textPartOf "I cannot do that."] |} |}.

Definition tvDescription : string :=
  "The target is the screen of the black television on the wooden media console.".

(** One invocation on the two files above, in binary64. *)
Definition go (W : World Binary64.t)
  : Promise CompositeResult * list (Call Binary64.t) :=
  run W designFile "poster.png" contextFile "room.jpg".

(** The resized files and the parts made from them in [browser]. *)
Definition resized (f : File) : File :=
  {| file_bits := "U1FVQVJF"; file_name := file_name f;
     file_type := "image/jpeg"; lastModified := 1700000000000 |}.
Definition squarePart : Part :=
  inlinePartOf {| mimeType := "image/jpeg"; data := "U1FVQVJF" |}.

Definition serviceUnavailable : JsValue := Error "got status: 503 Service Unavailable".
Definition failedToFetch : JsValue := Error "Failed to fetch".

(** The worlds the properties below are exercised in: a 1920 by 1080
    context photograph throughout. *)
Definition happyWorld : World Binary64.t :=
  browser 1920 1080 (described tvDescription) (composed [imageCandidate]).
Definition describeFailsWorld : World Binary64.t :=
  browser 1920 1080 (reject failedToFetch) (composed [imageCandidate]).
Definition composeFailsWorld : World Binary64.t :=
  browser 1920 1080 (described tvDescription) (reject serviceUnavailable).
Definition textOnlyWorld : World Binary64.t :=
  browser 1920 1080 (described tvDescription) (composed [textCandidate]).

Definition describeCall : Call Binary64.t :=
  Call_generateContent (describeRequest squarePart).
Definition composeCall (description : string) : Call Binary64.t :=
  Call_generateContent (composeRequest squarePart squarePart description).

(** The content box expected for a 1920 by 1080 original at target 1024. *)
Definition landscapeBox {R : Type} `{JSNumber R} : Box R :=
  {| box_x := ofZ 0; box_y := ofZ 224; box_w := ofZ 1024; box_h := ofZ 576 |}.
End Scenario.

(** ** The runs of the orchestrator, path by path *)

Section Runs.
Context {R : Type} `{JSNumber R}.
Variable W : World R.
Variables designImage contextImage : File.

Definition descriptionFailure : JsValue :=
  Error "The AI failed to analyze the context image.".
Definition noImageFailure : JsValue :=
  Error "The AI model did not return an image. Please try again.".

(** What the caller receives when the awaited call [c] rejects with [e]:
    the description call's rejection is replaced, any other passes through. *)
Definition surfacedAs (c : Call R) (e : JsValue) : JsValue :=
  if isGenerateContentFor descriptionModel c then descriptionFailure else e.

(** The calls issued up to and including each stage. *)
Definition uptoMeasure : list (Call R) :=
  [Call_newGoogleGenAI; Call_getImageDimensions contextImage].
Definition uptoNormalize : list (Call R) :=
  uptoMeasure ++ [Call_resizeImage designImage MAX_DIMENSION;
                  Call_resizeImage contextImage MAX_DIMENSION].
Definition uptoDescribe (resizedContext : File) (contextPart : Part) : list (Call R) :=
  uptoNormalize ++ [Call_fileToPart resizedContext;
                    Call_generateContent (describeRequest contextPart)].
Definition uptoCompose (resizedDesign resizedContext : File)
    (designPart contextPart : Part) (description : string) : list (Call R) :=
  uptoDescribe resizedContext contextPart ++
  [Call_fileToPart resizedDesign;
   Call_generateContent (composeRequest designPart contextPart description)].

(** [Run p tr]: the invocation settles as [p] after issuing the calls [tr]. *)
Inductive Run : Promise CompositeResult -> list (Call R) -> Prop :=
| Run_client_fails e :
    newGoogleGenAI W = Some e ->
    Run (inl e) [Call_newGoogleGenAI]
| Run_measure_fails e :
    newGoogleGenAI W = None ->
    getImageDimensions W contextImage = inl e ->
    Run (inl e) uptoMeasure
| Run_resize_design_fails dims e :
    newGoogleGenAI W = None ->
    getImageDimensions W contextImage = inr dims ->
    resizeImage W designImage MAX_DIMENSION = inl e ->
    Run (inl e) (uptoMeasure ++ [Call_resizeImage designImage MAX_DIMENSION])
| Run_resize_context_fails dims rd e :
    newGoogleGenAI W = None ->
    getImageDimensions W contextImage = inr dims ->
    resizeImage W designImage MAX_DIMENSION = inr rd ->
    resizeImage W contextImage MAX_DIMENSION = inl e ->
    Run (inl e) uptoNormalize
| Run_context_part_fails dims rd rc e :
    newGoogleGenAI W = None ->
    getImageDimensions W contextImage = inr dims ->
    resizeImage W designImage MAX_DIMENSION = inr rd ->
    resizeImage W contextImage MAX_DIMENSION = inr rc ->
    fileToPart W rc = inl e ->
    Run (inl e) (uptoNormalize ++ [Call_fileToPart rc])
| Run_describe_fails dims rd rc cp e :
    newGoogleGenAI W = None ->
    getImageDimensions W contextImage = inr dims ->
    resizeImage W designImage MAX_DIMENSION = inr rd ->
    resizeImage W contextImage MAX_DIMENSION = inr rc ->
    fileToPart W rc = inr cp ->
    generateContent W (describeRequest cp) = inl e ->
    Run (inl descriptionFailure) (uptoDescribe rc cp)
| Run_design_part_fails dims rd rc cp described e :
    newGoogleGenAI W = None ->
    getImageDimensions W contextImage = inr dims ->
    resizeImage W designImage MAX_DIMENSION = inr rd ->
    resizeImage W contextImage MAX_DIMENSION = inr rc ->
    fileToPart W rc = inr cp ->
    generateContent W (describeRequest cp) = inr described ->
    fileToPart W rd = inl e ->
    Run (inl e) (uptoDescribe rc cp ++ [Call_fileToPart rd])
| Run_compose_fails dims rd rc cp described dp e :
    newGoogleGenAI W = None ->
    getImageDimensions W contextImage = inr dims ->
    resizeImage W designImage MAX_DIMENSION = inr rd ->
    resizeImage W contextImage MAX_DIMENSION = inr rc ->
    fileToPart W rc = inr cp ->
    generateContent W (describeRequest cp) = inr described ->
    fileToPart W rd = inr dp ->
    generateContent W (composeRequest dp cp (response_text described)) = inl e ->
    Run (inl e) (uptoCompose rd rc dp cp (response_text described))
| Run_no_image dims rd rc cp described dp response :
    newGoogleGenAI W = None ->
    getImageDimensions W contextImage = inr dims ->
    resizeImage W designImage MAX_DIMENSION = inr rd ->
    resizeImage W contextImage MAX_DIMENSION = inr rc ->
    fileToPart W rc = inr cp ->
    generateContent W (describeRequest cp) = inr described ->
    fileToPart W rd = inr dp ->
    generateContent W (composeRequest dp cp (response_text described)) = inr response ->
    selectedInlineData response = None ->
    Run (inl noImageFailure) (uptoCompose rd rc dp cp (response_text described))
| Run_crop_fails dims rd rc cp described dp response inline e :
    newGoogleGenAI W = None ->
    getImageDimensions W contextImage = inr dims ->
    resizeImage W designImage MAX_DIMENSION = inr rd ->
    resizeImage W contextImage MAX_DIMENSION = inr rc ->
    fileToPart W rc = inr cp ->
    generateContent W (describeRequest cp) = inr described ->
    fileToPart W rd = inr dp ->
    generateContent W (composeRequest dp cp (response_text described)) = inr response ->
    selectedInlineData response = Some inline ->
    let url := squareImageUrl (mimeType inline) (data inline) in
    let ow := ofZ (width dims) in
    let oh := ofZ (height dims) in
    cropToOriginalAspectRatio W url ow oh MAX_DIMENSION = inl e ->
    Run (inl e)
        (uptoCompose rd rc dp cp (response_text described) ++
         [Call_cropToOriginalAspectRatio url ow oh MAX_DIMENSION])
| Run_done dims rd rc cp described dp response inline final :
    newGoogleGenAI W = None ->
    getImageDimensions W contextImage = inr dims ->
    resizeImage W designImage MAX_DIMENSION = inr rd ->
    resizeImage W contextImage MAX_DIMENSION = inr rc ->
    fileToPart W rc = inr cp ->
    generateContent W (describeRequest cp) = inr described ->
    fileToPart W rd = inr dp ->
    generateContent W (composeRequest dp cp (response_text described)) = inr response ->
    selectedInlineData response = Some inline ->
    let url := squareImageUrl (mimeType inline) (data inline) in
    let ow := ofZ (width dims) in
    let oh := ofZ (height dims) in
    cropToOriginalAspectRatio W url ow oh MAX_DIMENSION = inr final ->
    Run (inr {| finalImageUrl := final |})
        (uptoCompose rd rc dp cp (response_text described) ++
         [Call_cropToOriginalAspectRatio url ow oh MAX_DIMENSION]).
End Runs.

(** ** Reading a data URL, character by character *)

(** Whether the character [c] occurs in [s]. *)
Fixpoint occurs (c : ascii) (s : string) : bool :=
  match s with
  | EmptyString => false
  | String a rest => Ascii.eqb a c || occurs c rest
  end.

(** Whether [s] holds a line terminator, which [.] does not match. *)
Fixpoint hasLineTerminator (s : string) : bool :=
  match s with
  | EmptyString => false
  | String a rest => isLineTerminator a || hasLineTerminator rest
  end.

(** Whether a rejection carries an [Error] object. *)
Definition isError (e : JsValue) : bool :=
  match e with Error _ => true | NonError _ => false end.

(** ** The application: [dataURLtoFile] *)

(** A synchronous call: it throws or returns. *)
Definition Completion (A : Type) : Type := (JsValue + A)%type.

(** [new Uint8Array(n)]: [n] bytes, all zero. *)
Definition newUint8Array (n : nat) : list Z := repeat 0%Z n.

(** [u8arr[i] = v]: the number is reduced modulo 256 ([NaN] gives 0); a store
    past the end is ignored. *)
Fixpoint storeUint8 (u8arr : list Z) (i : nat) (v : option Z) : list Z :=
  match u8arr, i with
  | [], _ => []
  | _ :: rest, O => (match v with Some z => z mod 256 | None => 0 end)%Z :: rest
  | b :: rest, S i' => b :: storeUint8 rest i' v
  end.

(** [s.charCodeAt(i)]; [None] is [NaN], the answer past the end. *)
Definition charCodeAt (s : string) (i : nat) : option Z :=
  option_map (fun a => Z.of_nat (nat_of_ascii a)) (String.get i s).

(** The character codes of a string, the bytes [atob] decoded. *)
Fixpoint codesFrom (s : string) : list Z :=
  match s with
  | EmptyString => []
  | String a rest => Z.of_nat (nat_of_ascii a) :: codesFrom rest
  end.

(** The bytes of a typed array as the contents of a file. *)
Fixpoint bitsOfUint8Array (u8arr : list Z) : string :=
  match u8arr with
  | [] => EmptyString
  | b :: rest => String (ascii_of_nat (Z.to_nat b)) (bitsOfUint8Array rest)
  end.

(** The [type] a [File] is constructed with: lower-cased, or empty when it
    holds a character outside U+0020..U+007E. *)
Definition asciiLowercase (a : ascii) : ascii :=
  let n := nat_of_ascii a in
  if ((65 <=? n) && (n <=? 90))%nat then ascii_of_nat (n + 32) else a.

Fixpoint mapString (f : ascii -> ascii) (s : string) : string :=
  match s with
  | EmptyString => EmptyString
  | String a rest => String (f a) (mapString f rest)
  end.

Fixpoint allPrintable (s : string) : bool :=
  match s with
  | EmptyString => true
  | String a rest =>
      ((32 <=? nat_of_ascii a) && (nat_of_ascii a <=? 126))%nat && allPrintable rest
  end.

Definition fileType (t : string) : string :=
  if allPrintable t then mapString asciiLowercase t else EmptyString.

(** The loop [while (n--) { u8arr[n] = bstr.charCodeAt(n); }]. *)
Fixpoint copyCharCodes (n : nat) (bstr : string) (u8arr : list Z) : list Z :=
  match n with
  | O => u8arr
  | S n' => copyCharCodes n' bstr (storeUint8 u8arr n' (charCodeAt bstr n'))
  end.

(** [atob] and the clock are the browser's. *)
Definition dataURLtoFile (atob : string -> Completion string) (now : Z)
    (dataurl filename : string) : Completion File :=
  match split "," dataurl with
  | arr0 :: arr1 :: _ =>
      match matchMime arr0 with
      | Some mime =>
          if truthy mime then
            match atob arr1 with
            | inr bstr =>
                let n := String.length bstr in
                let u8arr := newUint8Array n in
                let u8arr := copyCharCodes n bstr u8arr in
                inr {| file_bits := bitsOfUint8Array u8arr;
                       file_name := filename;
                       file_type := fileType mime;
                       lastModified := now |}
            | inl e => inl e
            end
          else inl (Error "Could not parse MIME type from data URL")
      | None => inl (Error "Could not parse MIME type from data URL")
      end
  | _ => inl (Error "Invalid data URL")
  end.

(** ** The application component *)

Module App.

(** The design shown in the second uploader. *)
Record Design := { id : Z; name : string; imageUrl : string }.

Definition loadingMessages : list string :=
  [ "Analyzing your design...";
    "Scanning the context for the best screen...";
    "Describing target screen with AI...";
    "Crafting the perfect screen replacement prompt...";
    "Generating photorealistic view...";
    "Assembling the final context..." ].

(** The seven [useState] cells of the component. *)
Record State := {
  selectedDesign : option Design;
  designImageFile : option File;
  contextImage : option File;
  isLoading : bool;
  error : option string;
  loadingMessageIndex : nat;
  generatedImageUrl : option string
}.

Definition initialState : State :=
  {| selectedDesign := None; designImageFile := None; contextImage := None;
     isLoading := false; error := None; loadingMessageIndex := 0;
     generatedImageUrl := None |}.

Definition setSelectedDesign (v : option Design) (s : State) : State :=
  {| selectedDesign := v; designImageFile := designImageFile s;
     contextImage := contextImage s; isLoading := isLoading s; error := error s;
     loadingMessageIndex := loadingMessageIndex s;
     generatedImageUrl := generatedImageUrl s |}.

Definition setDesignImageFile (v : option File) (s : State) : State :=
  {| selectedDesign := selectedDesign s; designImageFile := v;
     contextImage := contextImage s; isLoading := isLoading s; error := error s;
     loadingMessageIndex := loadingMessageIndex s;
     generatedImageUrl := generatedImageUrl s |}.

Definition setContextImage (v : option File) (s : State) : State :=
  {| selectedDesign := selectedDesign s; designImageFile := designImageFile s;
     contextImage := v; isLoading := isLoading s; error := error s;
     loadingMessageIndex := loadingMessageIndex s;
     generatedImageUrl := generatedImageUrl s |}.

Definition setIsLoading (v : bool) (s : State) : State :=
  {| selectedDesign := selectedDesign s; designImageFile := designImageFile s;
     contextImage := contextImage s; isLoading := v; error := error s;
     loadingMessageIndex := loadingMessageIndex s;
     generatedImageUrl := generatedImageUrl s |}.

Definition setError (v : option string) (s : State) : State :=
  {| selectedDesign := selectedDesign s; designImageFile := designImageFile s;
     contextImage := contextImage s; isLoading := isLoading s; error := v;
     loadingMessageIndex := loadingMessageIndex s;
     generatedImageUrl := generatedImageUrl s |}.

Definition setLoadingMessageIndex (v : nat) (s : State) : State :=
  {| selectedDesign := selectedDesign s; designImageFile := designImageFile s;
     contextImage := contextImage s; isLoading := isLoading s; error := error s;
     loadingMessageIndex := v;
     generatedImageUrl := generatedImageUrl s |}.

Definition setGeneratedImageUrl (v : option string) (s : State) : State :=
  {| selectedDesign := selectedDesign s; designImageFile := designImageFile s;
     contextImage := contextImage s; isLoading := isLoading s; error := error s;
     loadingMessageIndex := loadingMessageIndex s;
     generatedImageUrl := v |}.

(** The arguments of an invocation of [generateCompositeImage] that has not
    settled yet. *)
Record Pending := {
  pending_designImage : File;
  pending_designDescription : string;
  pending_contextImage : File;
  pending_contextDescription : string
}.

(** A nullable string in a condition, and its value once the test passed. *)
Definition truthyOrNull (v : option string) : bool :=
  match v with Some s => truthy s | None => false end.

Definition valueOf (v : option string) : string :=
  match v with Some s => s | None => EmptyString end.

Definition notNull {A} (v : option A) : bool :=
  match v with Some _ => true | None => false end.

(** What [renderContent] returns: one of four screens, with the handlers it
    wires.  The error screen has "Try Again" ([handleReset]); the loading
    screen has no control; the result screen has "Download" and "Start
    Over" ([handleReset]); the upload screen has the two uploaders, and
    "3. Generate!" when [generate]. *)
Inductive Screen : Type :=
| ErrorScreen (message : string)
| LoadingScreen (caption : option string)
| ResultScreen (url : string)
| UploadScreen (designImageUrl : option string) (generate : bool).

Definition renderContent (s : State) : Screen :=
  if truthyOrNull (error s) then ErrorScreen (valueOf (error s))
  else if isLoading s then
    LoadingScreen (nth_error loadingMessages (loadingMessageIndex s))
  else if truthyOrNull (generatedImageUrl s) then
    ResultScreen (valueOf (generatedImageUrl s))
  else
    let designImageUrl := option_map imageUrl (selectedDesign s) in
    UploadScreen designImageUrl
      (notNull (designImageFile s) && notNull (contextImage s)).

(** What happens to the component: the user's actions ([SelectContext] is
    the first uploader's [onFileSelect], [setContextImage]; [SelectDesign]
    the second's, [handleDesignImageUpload]), the 3000 ms interval of the
    loading caption, and the settlement of the [n]-th pending invocation
    followed by the preload of its image. *)
Inductive Event : Type :=
| SelectContext (file : File)
| SelectDesign (file : File)
| ClickGenerate
| ClickTryAgain
| ClickStartOver
| ClickDownload
| Tick
| Settle (n : nat).

(** The user's actions a screen offers. *)
Definition offers (screen : Screen) (e : Event) : bool :=
  match screen, e with
  | ErrorScreen _, ClickTryAgain => true
  | ResultScreen _, ClickDownload => true
  | ResultScreen _, ClickStartOver => true
  | UploadScreen _ _, SelectContext _ => true
  | UploadScreen _ _, SelectDesign _ => true
  | UploadScreen _ generate, ClickGenerate => generate
  | _, _ => false
  end.

(** The updater the interval passes to [setLoadingMessageIndex]. *)
Definition nextLoadingMessageIndex (prevIndex : nat) : nat :=
  (prevIndex + 1) mod List.length loadingMessages.

(** The effect on [isLoading]: when a render changes it to [true], the
    caption restarts from the first message (and the interval starts). *)
Definition useEffect_isLoading (before after : State) : State :=
  if negb (Bool.eqb (isLoading before) (isLoading after)) && isLoading after
  then setLoadingMessageIndex 0 after
  else after.

Definition handleReset (s : State) : State :=
  setGeneratedImageUrl None
    (setIsLoading false
       (setError None
          (setContextImage None
             (setDesignImageFile None
                (setSelectedDesign None s))))).

(** [handleGenerate] up to its [await]: the state it sets and the invocation
    it starts, if any. *)
Definition handleGenerate_start (s : State) : State * option Pending :=
  match designImageFile s, contextImage s, selectedDesign s with
  | Some designImageFile, Some contextImage, Some selectedDesign =>
      (setGeneratedImageUrl None (setError None (setIsLoading true s)),
       Some {| pending_designImage := designImageFile;
               pending_designDescription := name selectedDesign;
               pending_contextImage := contextImage;
               pending_contextDescription := file_name contextImage |})
  | _, _, _ =>
      (setError
         (Some "An unexpected error occurred. Please upload both a design and context file.")
         s,
       None)
  end.

(** The component between two events: its state and the invocations that
    have not settled. *)
Record Component := { state : State; pending : list Pending }.

Definition mount : Component := {| state := initialState; pending := [] |}.

Fixpoint removeNth {A} (n : nat) (l : list A) : list A :=
  match l, n with
  | [], _ => []
  | _ :: rest, O => rest
  | a :: rest, S n' => a :: removeNth n' rest
  end.

(** Whether an event can happen: the screen offers the action, the interval
    is running, the invocation is pending.  (The uploaders, whose code is
    not part of this development, are taken to call [onFileSelect] only
    while the upload screen shows them.) *)
Definition possible (c : Component) (e : Event) : bool :=
  match e with
  | Tick => isLoading (state c)
  | Settle n => notNull (nth_error (pending c) n)
  | _ => offers (renderContent (state c)) e
  end.

Section Component.
Context {R : Type} `{JSNumber R}.
Variable W : World R.
Variable createObjectURL : File -> Completion string.

Definition handleDesignImageUpload (file : File) (s : State) : State :=
  let s := setError None s in
  match createObjectURL file with
  | inr imageUrl =>
      let design := {| id := date_now W; name := file_name file; imageUrl := imageUrl |} in
      setSelectedDesign (Some design) (setDesignImageFile (Some file) s)
  | inl err =>
      let errorMessage :=
        match err with
        | Error message => message
        | NonError _ => "An unknown error occurred."
        end in
      setError (Some ("Could not load the design image. Details: " ++ errorMessage)) s
  end.

(** [handleGenerate] from the settlement of the invocation on: the preload
    of the image, or the [catch] clause.  The [throw] in the preload's
    [onerror] runs in an event handler, after the [try] block has been
    left, and changes no state. *)
Definition handleGenerate_settle (p : Pending) (s : State) : State :=
  match fst (run W (pending_designImage p) (pending_designDescription p)
               (pending_contextImage p) (pending_contextDescription p)) with
  | inr result =>
      let finalImageUrl := finalImageUrl result in
      match loadImage W finalImageUrl with
      | ImageLoad _ => setIsLoading false (setGeneratedImageUrl (Some finalImageUrl) s)
      | ImageError _ => s
      end
  | inl err => setIsLoading false (setError (Some (handleGenerate_catch err)) s)
  end.

(** The handler of an event, whether or not the screen offers it.
    [handleDownloadImage] touches the document only. *)
Definition handle (e : Event) (c : Component) : Component :=
  match e with
  | SelectContext file =>
      {| state := setContextImage (Some file) (state c); pending := pending c |}
  | SelectDesign file =>
      {| state := handleDesignImageUpload file (state c); pending := pending c |}
  | ClickGenerate =>
      let '(s, started) := handleGenerate_start (state c) in
      {| state := s;
         pending := match started with
                    | Some p => (pending c ++ [p])%list
                    | None => pending c
                    end |}
  | ClickTryAgain | ClickStartOver =>
      {| state := handleReset (state c); pending := pending c |}
  | ClickDownload => c
  | Tick =>
      {| state := setLoadingMessageIndex
                    (nextLoadingMessageIndex (loadingMessageIndex (state c))) (state c);
         pending := pending c |}
  | Settle n =>
      match nth_error (pending c) n with
      | Some p => {| state := handleGenerate_settle p (state c);
                     pending := removeNth n (pending c) |}
      | None => c
      end
  end.

(** An event, then the effect of the render it causes. *)
Definition step (e : Event) (c : Component) : Component :=
  let c' := handle e c in
  {| state := useEffect_isLoading (state c) (state c'); pending := pending c' |}.

(** The components a session can reach. *)
Inductive Reachable : Component -> Prop :=
| Reachable_mount : Reachable mount
| Reachable_step c e : Reachable c -> possible c e = true -> Reachable (step e c).

(** What a component can become. *)
Inductive Steps (c : Component) : Component -> Prop :=
| Steps_none : Steps c c
| Steps_next c' e : Steps c c' -> possible c' e = true -> Steps c (step e c').

(** [n] rounds of the interval. *)
Fixpoint ticks (n : nat) (c : Component) : Component :=
  match n with
  | O => c
  | S n' => step Tick (ticks n' c)
  end.
End Component.
End App.

(** The two messages the handlers put in the error state, and the one of
    the guard of [handleGenerate]. *)
Definition generateFailure (m : string) : Prop :=
  exists detail, m = "Failed to generate the image. " ++ detail.

Definition designFailure (m : string) : Prop :=
  exists detail, m = "Could not load the design image. Details: " ++ detail.

Definition guardMessage : string :=
  "An unexpected error occurred. Please upload both a design and context file.".

(** What every component a session can reach satisfies. *)
Definition Invariant (c : App.Component) : Prop :=
  let s := App.state c in
  match App.designImageFile s, App.selectedDesign s with
  | Some f, Some d => App.name d = file_name f
  | None, None => True
  | _, _ => False
  end /\
  (App.isLoading s = true ->
   App.error s = None /\ App.generatedImageUrl s = None) /\
  (forall m, App.error s = Some m ->
     App.isLoading s = false /\ App.truthyOrNull (App.generatedImageUrl s) = false /\
     (generateFailure m \/ designFailure m)) /\
  match App.pending c with
  | [] => True
  | [p] =>
      App.isLoading s = true /\
      App.designImageFile s = Some (App.pending_designImage p) /\
      App.contextImage s = Some (App.pending_contextImage p) /\
      App.pending_designDescription p = file_name (App.pending_designImage p) /\
      App.pending_contextDescription p = file_name (App.pending_contextImage p)
  | _ => False
  end /\
  (App.loadingMessageIndex s < 6)%nat.

(** ** A concrete session *)

Module Session.
Definition createObjectURL (file : File) : Completion string :=
  inr ("blob:" ++ file_name file).

Definition atob (s : string) : Completion string :=
  if String.eqb s "Uk9PTQ==" then inr "ROOM"
  else inl (Error "The string to be decoded is not correctly encoded.").

(** A browser in which the composition call rejects with a value that is
    not an [Error]. *)
Definition unknownFailureWorld : World Binary64.t :=
  Scenario.browser 1920 1080 (Scenario.described Scenario.tvDescription)
    (reject (NonError "[object Object]")).

(** A browser given a 3000 by 2 panorama: every file decodes to that size, a
    canvas without pixels encodes as ["data:,"], and that URL does not
    decode. *)
Definition panoramaWorld : World Binary64.t :=
  {| readAsDataURL := fun f =>
       ReaderLoad (Some ("data:" ++ file_type f ++ ";base64," ++ file_bits f));
     loadImage := fun url =>
       if String.eqb url "data:," then ImageError "[object Event]"
       else ImageLoad {| src := url; naturalWidth := 3000; naturalHeight := 2 |};
     getContext2d := fun _ => true;
     toBlob := fun _ ty _ => Some {| blob_bits := "U1FVQVJF"; blob_type := ty |};
     toDataURL := fun c ty _ =>
       if ((canvas_width c =? 0) || (canvas_height c =? 0))%Z then "data:,"
       else "data:" ++ ty ++ ";base64,Q1JPUFBFRA==";
     date_now := 1700000000000;
     newGoogleGenAI := None;
     generateContent := fun params =>
       if String.eqb (model params) descriptionModel
       then Scenario.described Scenario.tvDescription
       else Scenario.composed [Scenario.imageCandidate] |}.

(** Both files uploaded, then "3. Generate!" clicked. *)
Definition uploaded (W : World Binary64.t) : App.Component :=
  App.step W createObjectURL (App.SelectDesign Scenario.designFile)
    (App.step W createObjectURL (App.SelectContext Scenario.contextFile) App.mount).

Definition generating (W : World Binary64.t) : App.Component :=
  App.step W createObjectURL App.ClickGenerate (uploaded W).

Definition invocation : App.Pending :=
  {| App.pending_designImage := Scenario.designFile;
     App.pending_designDescription := "poster.png";
     App.pending_contextImage := Scenario.contextFile;
     App.pending_contextDescription := "room.jpg" |}.
End Session.

(** ** Tactics for case analysis on a run *)

(** Case analysis on the next awaited call in [H]. *)
Ltac settle_stage H :=
  match type of H with
  | context [match ?p with _ => _ end] =>
      lazymatch p with
      | context [match _ with _ => _ end] => fail
      | _ => destruct p eqn:?; cbn beta iota zeta in H
      end
  end.

(** Unfolds the history of a path into an explicit list. *)
Ltac explicit_history :=
  unfold uptoCompose, uptoDescribe, uptoNormalize, uptoMeasure in *;
  cbn [app] in *.

(** Splits [In c [c1; ...; cn]] into its [n] cases. *)
Ltac each_call Hin :=
  cbn [In] in Hin;
  repeat (destruct Hin as [Hin | Hin]; [try discriminate Hin|]);
  try contradiction.

(** Rewrites the settlement of the call under scrutiny in [Hrej]. *)
Ltac settled_as Hrej :=
  cbn [rejection] in Hrej;
  match type of Hrej with
  | context [match ?p with _ => _ end] =>
      match goal with
      | Hs : p = _ |- _ => rewrite Hs in Hrej
      end
  | ?p = Some _ =>
      match goal with
      | Hs : p = _ |- _ => rewrite Hs in Hrej
      end
  end.

(** * Properties *)

(** ** Exact arithmetic: the setter conversion and the landscape test *)

Section ExactArithmetic.
Local Open Scope Z_scope.

Lemma Q_toUnsignedLong_inject_Z (t : Z) :
  0 <= t < 2 ^ 32 -> Q_toUnsignedLong (inject_Z t) = t.
Proof.
  intros Ht. unfold Q_toUnsignedLong. cbn [Qnum Qden inject_Z].
  rewrite Z.quot_1_r. now apply Z.mod_small.
Qed.

Lemma Q_toUnsignedLong_truncates (q : Q) :
  (0 <= q)%Q -> (q < inject_Z (2 ^ 32))%Q ->
  (inject_Z (Q_toUnsignedLong q) <= q)%Q /\
  (q < inject_Z (Q_toUnsignedLong q) + 1)%Q.
Proof.
  intros Hq Hlt.
  assert (Hfl : Q_toUnsignedLong q = Qfloor q).
  { unfold Q_toUnsignedLong. destruct q as [n d]. cbn [Qnum Qden Qfloor].
    assert (0 <= n) by (unfold Qle in Hq; cbn in Hq; lia).
    rewrite Z.quot_div_nonneg by lia.
    apply Z.mod_small. split.
    - apply Z.div_pos; lia.
    - apply Z.div_lt_upper_bound; [lia|].
      unfold Qlt in Hlt. cbn in Hlt. lia. }
  rewrite Hfl. split.
  - apply Qfloor_le.
  - pose proof (Qlt_floor q) as Hf. rewrite inject_Z_plus in Hf. exact Hf.
Qed.

Lemma Q_landscape_test (a : Q) : ngt a (ofZ 1) = true <-> (1 < a)%Q.
Proof.
  cbn [ngt ofZ Q_JSNumber]. change (inject_Z 1) with 1%Q.
  rewrite negb_true_iff. split; intros Ha.
  - apply Qnot_le_lt. intros Hle. apply Qle_bool_iff in Hle. congruence.
  - destruct (Qle_bool a 1) eqn:E; [|reflexivity].
    apply Qle_bool_iff in E. lra.
Qed.

Lemma Q_portrait_test (a : Q) : ngt a (ofZ 1) = false <-> (a <= 1)%Q.
Proof.
  cbn [ngt ofZ Q_JSNumber]. change (inject_Z 1) with 1%Q.
  rewrite negb_false_iff. apply Qle_bool_iff.
Qed.

Lemma Q_ratio_pos (w h : Z) : 0 < w -> 0 < h -> (0 < inject_Z w / inject_Z h)%Q.
Proof.
  intros Hw Hh. apply Qlt_shift_div_l.
  - change 0%Q with (inject_Z 0). rewrite <- Zlt_Qlt. exact Hh.
  - rewrite Qmult_0_l. change 0%Q with (inject_Z 0). rewrite <- Zlt_Qlt. exact Hw.
Qed.

(** The content box of a [w] by [h] image in a [t]-square, in exact
    arithmetic: it lies inside the square, is centred, and has the ratio
    [w : h]. *)
Lemma Q_contentBox_inside (w h t : Z) :
  0 < w -> 0 < h -> 0 <= t ->
  let b := contentBox (R:=Q) (ofZ w) (ofZ h) (ofZ t) in
  (0 <= box_w b <= inject_Z t)%Q /\ (0 <= box_h b <= inject_Z t)%Q /\
  (0 <= box_x b)%Q /\ (0 <= box_y b)%Q /\
  (box_x b + box_w b + box_x b == inject_Z t)%Q /\
  (box_y b + box_h b + box_y b == inject_Z t)%Q /\
  (box_w b * inject_Z h == box_h b * inject_Z w)%Q /\
  (box_w b = inject_Z t \/ box_h b = inject_Z t).
Proof.
  intros Hw Hh Ht b. subst b. unfold contentBox.
  pose proof (Q_ratio_pos w h Hw Hh) as Ha.
  assert (HtQ : (0 <= inject_Z t)%Q)
    by (change 0%Q with (inject_Z 0); rewrite <- Zle_Qle; exact Ht).
  assert (HhQ : ~ (inject_Z h == 0)%Q).
  { intros E. unfold Qeq in E. cbn in E. lia. }
  assert (HwQ : ~ (inject_Z w == 0)%Q).
  { intros E. unfold Qeq in E. cbn in E. lia. }
  cbn [ofZ ndiv nmul nsub Q_JSNumber].
  set (a := (inject_Z w / inject_Z h)%Q) in *.
  set (T := inject_Z t) in *.
  destruct (ngt a _) eqn:E; cbn [box_x box_y box_w box_h].
  - apply Q_landscape_test in E.
    assert (Hq : (0 <= T / a <= T)%Q).
    { split.
      - apply Qle_shift_div_l; lra.
      - apply Qle_shift_div_r; [lra|]. nra. }
    change (inject_Z 2) with 2%Q.
    repeat split; try lra; try (now left).
    + apply Qle_shift_div_l; lra.
    + apply Qle_shift_div_l; lra.
    + field.
    + field. lra.
    + subst a. field. split; assumption.
  - apply Q_portrait_test in E.
    assert (Hq : (0 <= T * a <= T)%Q) by (split; nra).
    change (inject_Z 2) with 2%Q.
    repeat split; try lra; try (now right).
    + apply Qle_shift_div_l; lra.
    + apply Qle_shift_div_l; lra.
    + field.
    + field.
    + subst a. field. assumption.
Qed.
(** The box is at least one pixel each way unless the image is more than
    [t] times as wide as it is high, or as high as it is wide. *)
Lemma Q_contentBox_nonempty (w h t : Z) :
  0 < w -> 0 < h -> w <= t * h -> h <= t * w ->
  let b := contentBox (R:=Q) (ofZ w) (ofZ h) (ofZ t) in
  (1 <= box_w b)%Q /\ (1 <= box_h b)%Q.
Proof.
  intros Hw Hh Hwide Htall b. subst b. unfold contentBox.
  pose proof (Q_ratio_pos w h Hw Hh) as Ha.
  assert (Ht : 1 <= t) by nia.
  assert (HtQ : (1 <= inject_Z t)%Q)
    by (change 1%Q with (inject_Z 1); rewrite <- Zle_Qle; exact Ht).
  assert (HhQ : (0 < inject_Z h)%Q)
    by (change 0%Q with (inject_Z 0); rewrite <- Zlt_Qlt; exact Hh).
  assert (HwQ : (0 < inject_Z w)%Q)
    by (change 0%Q with (inject_Z 0); rewrite <- Zlt_Qlt; exact Hw).
  assert (HwideQ : (inject_Z w <= inject_Z t * inject_Z h)%Q)
    by (rewrite <- inject_Z_mult, <- Zle_Qle; exact Hwide).
  assert (HtallQ : (inject_Z h <= inject_Z t * inject_Z w)%Q)
    by (rewrite <- inject_Z_mult, <- Zle_Qle; exact Htall).
  cbn [ofZ ndiv nmul nsub Q_JSNumber].
  set (a := (inject_Z w / inject_Z h)%Q) in *.
  set (T := inject_Z t) in *.
  destruct (ngt a _) eqn:E; cbn [box_x box_y box_w box_h].
  - split; [exact HtQ|].
    apply Qle_shift_div_l; [exact Ha|]. rewrite Qmult_1_l.
    subst a. apply Qle_shift_div_r; assumption.
  - split; [|exact HtQ].
    assert (Hinv : (T * a == T * inject_Z w / inject_Z h)%Q) by (subst a; field; lra).
    rewrite Hinv. apply Qle_shift_div_l; [exact HhQ|]. rewrite Qmult_1_l. exact HtallQ.
Qed.
End ExactArithmetic.

(** ** Binary64: rounding of normal values

    What the geometry needs of IEEE arithmetic, proved from the definition
    of the operations: integers below [2^53] convert exactly; the quotient
    of two normal values is normal, with a known exponent; a product with
    1024 only moves the exponent. *)

Section Binary64Rounding.
Local Open Scope Z_scope.

Lemma digits2_pos_size (p : positive) : digits2_pos p = Pos.size p.
Proof. induction p; cbn; congruence. Qed.

Lemma digits2_pos_bounds (p : positive) :
  2 ^ (Zpos (digits2_pos p) - 1) <= Zpos p < 2 ^ Zpos (digits2_pos p).
Proof.
  rewrite digits2_pos_size.
  pose proof (Pos.size_gt p) as Hgt. pose proof (Pos.size_le p) as Hle.
  split.
  - apply Pos2Z.pos_le_pos in Hle. rewrite Pos2Z.inj_pow in Hle.
    replace (Zpos (Pos.size p)) with (Z.succ (Zpos (Pos.size p) - 1)) in Hle by lia.
    rewrite Z.pow_succ_r in Hle by lia. lia.
  - apply Pos2Z.pos_lt_pos in Hgt. now rewrite Pos2Z.inj_pow in Hgt.
Qed.

Lemma digits2_pos_unique (p : positive) (n : Z) :
  0 < n -> 2 ^ (n - 1) <= Zpos p < 2 ^ n -> Zpos (digits2_pos p) = n.
Proof.
  intros Hn [Hlo Hhi]. pose proof (digits2_pos_bounds p) as [Blo Bhi].
  destruct (Z.lt_trichotomy (Zpos (digits2_pos p)) n) as [Hlt|[Heq|Hgt]]; [|exact Heq|].
  - exfalso. assert (2 ^ Zpos (digits2_pos p) <= 2 ^ (n - 1)) by (apply Z.pow_le_mono_r; lia). lia.
  - exfalso. assert (2 ^ n <= 2 ^ (Zpos (digits2_pos p) - 1)) by (apply Z.pow_le_mono_r; lia). lia.
Qed.

Lemma fexp_normal (e : Z) : -1074 <= e -> fexp 53 1024 (53 + e) = e.
Proof. intros He. unfold fexp, emin. lia. Qed.

Lemma shr_fexp_53 (q : positive) (e : Z) (l : location) :
  2 ^ 52 <= Zpos q < 2 ^ 53 -> -1074 <= e ->
  shr_fexp 53 1024 (Zpos q) e l = (shr_record_of_loc (Zpos q) l, e).
Proof.
  intros Hq He. unfold shr_fexp. cbn [Zdigits2].
  rewrite (digits2_pos_unique q 53) by (cbn; lia).
  rewrite fexp_normal by lia. rewrite Z.sub_diag. reflexivity.
Qed.

Lemma shr_fexp_54 (q : positive) (e : Z) (l : location) :
  2 ^ 53 <= Zpos q < 2 ^ 54 -> -1075 <= e ->
  shr_fexp 53 1024 (Zpos q) e l = (shr_1 (shr_record_of_loc (Zpos q) l), e + 1).
Proof.
  intros Hq He. unfold shr_fexp. cbn [Zdigits2].
  rewrite (digits2_pos_unique q 54) by (cbn; lia).
  replace (fexp 53 1024 (54 + e) - e) with 1 by (unfold fexp, emin; lia).
  reflexivity.
Qed.

Lemma shr_record_of_loc_m (m : Z) (l : location) : shr_m (shr_record_of_loc m l) = m.
Proof. destruct l as [|[]]; reflexivity. Qed.

Lemma loc_of_shr_record_of_loc (m : Z) (l : location) :
  loc_of_shr_record (shr_record_of_loc m l) = l.
Proof. destruct l as [|[]]; reflexivity. Qed.

Lemma round_nearest_even_range (m : Z) (l : location) :
  round_nearest_even m l = m \/ round_nearest_even m l = m + 1.
Proof. destruct l as [|[]]; cbn; try destruct (Z.even m); auto. Qed.

(** Rounding a 53-bit mantissa [q] at exponent [e]: the result is
    [m * 2^(e + k)] with [k = 0], or [k = 1] after a carry into [2^52];
    in units of [2^e] it lies between [q] and [q + 1]. *)
Lemma round_aux_53 (q : positive) (e : Z) (l : location) :
  2 ^ 52 <= Zpos q < 2 ^ 53 -> -1074 <= e <= 970 ->
  exists m k,
    Binary64.Normal (Binary64.round_aux false (Zpos q) e l) m (e + k) /\
    0 <= k <= 1 /\
    Zpos q <= Zpos m * 2 ^ k <= Zpos q + 1 /\
    (k = 1 -> Zpos m = 2 ^ 52) /\
    (l = loc_Exact -> m = q /\ k = 0).
Proof.
  intros Hq He. unfold Binary64.round_aux, Binary64.prec, Binary64.emax, binary_round_aux.
  rewrite shr_fexp_53 by lia.
  rewrite shr_record_of_loc_m, loc_of_shr_record_of_loc.
  destruct (round_nearest_even_range (Zpos q) l) as [Hr|Hr].
  - rewrite Hr, shr_fexp_53 by lia. cbn [shr_record_of_loc shr_m].
    replace (e <=? 1024 - 53) with true by (symmetry; apply Z.leb_le; lia).
    exists q, 0. rewrite Z.add_0_r.
    split; [split; [reflexivity|lia]|]. repeat split; lia.
  - rewrite Hr. destruct (Z.eq_dec (Zpos q + 1) (2 ^ 53)) as [Hc|Hc].
    + rewrite Hc. change (2 ^ 53) with (Zpos (2 ^ 53)%positive).
      rewrite shr_fexp_54 by (cbn; lia).
      cbn [shr_record_of_loc shr_1 shr_m Pos.pow Pos.iter Pos.mul].
      replace (e + 1 <=? 1024 - 53) with true by (symmetry; apply Z.leb_le; lia).
      exists 4503599627370496%positive, 1.
      split; [split; [reflexivity|split; [cbn; lia|lia]]|].
      split; [lia|]. split; [lia|]. split; [reflexivity|].
      intros ->. cbn in Hr. lia.
    + assert (Hpos : exists q', Zpos q + 1 = Zpos q') by (exists (q + 1)%positive; lia).
      destruct Hpos as [q' Hq']. rewrite Hq'.
      rewrite shr_fexp_53 by lia. cbn [shr_record_of_loc shr_m].
      replace (e <=? 1024 - 53) with true by (symmetry; apply Z.leb_le; lia).
      exists q', 0. rewrite Z.add_0_r.
      split; [split; [reflexivity|split; lia]|].
      split; [lia|]. split; [lia|]. split; [lia|].
      intros ->. cbn in Hr. lia.
Qed.

(** Rounding a 54-bit mantissa: one shift, then possibly a carry; in units
    of [2^e] the result lies between [q - 1] and [q + 2]. *)
Lemma round_aux_54 (q : positive) (e : Z) (l : location) :
  2 ^ 53 <= Zpos q < 2 ^ 54 -> -1075 <= e <= 969 ->
  exists m k,
    Binary64.Normal (Binary64.round_aux false (Zpos q) e l) m (e + k) /\
    1 <= k <= 2 /\
    Zpos q - 1 <= Zpos m * 2 ^ k <= Zpos q + 2 /\
    (k = 2 -> Zpos m = 2 ^ 52) /\
    (l = loc_Exact -> Zpos q = 2 ^ 53 -> Zpos m = 2 ^ 52 /\ k = 1).
Proof.
  intros Hq He. unfold Binary64.round_aux, Binary64.prec, Binary64.emax, binary_round_aux.
  rewrite shr_fexp_54 by lia.
  set (mrs := shr_1 (shr_record_of_loc (Zpos q) l)).
  assert (Hm : exists p, shr_m mrs = Zpos p /\ Zpos q <= 2 * Zpos p + 1 /\ 2 * Zpos p <= Zpos q /\
                         (l = loc_Exact -> Zpos q = 2 ^ 53 ->
                          loc_of_shr_record mrs = loc_Exact)).
  { subst mrs. destruct q as [p|p|]; [exists p|exists p|cbn in Hq; lia];
      (split; [destruct l as [|[]]; reflexivity|]); (split; [lia|]); (split; [lia|]).
    - intros _ Hc. cbn in Hc. lia.
    - intros -> _. reflexivity. }
  destruct Hm as (p & Hp & Hlo & Hhi & Hex). rewrite Hp.
  assert (Hprange : 2 ^ 52 <= Zpos p < 2 ^ 53) by (cbn in *; lia).
  destruct (round_nearest_even_range (Zpos p) (loc_of_shr_record mrs)) as [Hr|Hr].
  - rewrite Hr, shr_fexp_53 by lia. cbn [shr_record_of_loc shr_m].
    replace (e + 1 <=? 1024 - 53) with true by (symmetry; apply Z.leb_le; lia).
    exists p, 1. split; [split; [reflexivity|lia]|].
    split; [lia|]. split; [lia|]. split; [lia|]. intros _ Hc. split; [lia|reflexivity].
  - rewrite Hr. destruct (Z.eq_dec (Zpos p + 1) (2 ^ 53)) as [Hc|Hc].
    + rewrite Hc. change (2 ^ 53) with (Zpos (2 ^ 53)%positive).
      rewrite shr_fexp_54 by (cbn; lia).
      cbn [shr_record_of_loc shr_1 shr_m Pos.pow Pos.iter Pos.mul].
      replace (e + 1 + 1) with (e + 2) by lia.
      replace (e + 2 <=? 1024 - 53) with true by (symmetry; apply Z.leb_le; lia).
      exists 4503599627370496%positive, 2.
      split; [split; [reflexivity|split; [cbn; lia|lia]]|].
      split; [lia|]. split; [lia|]. split; [reflexivity|].
      intros Hl Hq53. rewrite (Hex Hl Hq53) in Hr. cbn in Hr. lia.
    + assert (Hpos : exists p', Zpos p + 1 = Zpos p') by (exists (p + 1)%positive; lia).
      destruct Hpos as [p' Hp']. rewrite Hp'.
      rewrite shr_fexp_53 by lia. cbn [shr_record_of_loc shr_m].
      replace (e + 1 <=? 1024 - 53) with true by (symmetry; apply Z.leb_le; lia).
      exists p', 1. split; [split; [reflexivity|split; lia]|].
      split; [lia|]. split; [lia|]. split; [lia|].
      intros Hl Hq53. rewrite (Hex Hl Hq53) in Hr. cbn in Hr. lia.
Qed.

(** The quotient and location a division of two 53-bit mantissas rounds. *)
Lemma SFdiv_core_53 (m1 m2 : positive) (e1 e2 : Z) :
  2 ^ 52 <= Zpos m1 < 2 ^ 53 -> 2 ^ 52 <= Zpos m2 < 2 ^ 53 ->
  -1021 <= e1 - e2 ->
  exists q l,
    SFdiv_core_binary 53 1024 (Zpos m1) e1 (Zpos m2) e2 = (Zpos q, e1 - e2 - 53, l) /\
    Zpos q = Zpos m1 * 2 ^ 53 / Zpos m2 /\
    (Zpos m1 * 2 ^ 53 mod Zpos m2 = 0 -> l = loc_Exact).
Proof.
  intros H1 H2 He. unfold SFdiv_core_binary. cbn [Zdigits2].
  rewrite (digits2_pos_unique m1 53), (digits2_pos_unique m2 53) by (cbn; lia).
  replace (Z.min (fexp 53 1024 (53 + e1 - (53 + e2))) (e1 - e2)) with (e1 - e2 - 53)
    by (unfold fexp, emin; lia).
  replace (e1 - e2 - (e1 - e2 - 53)) with 53 by lia.
  rewrite Z.shiftl_mul_pow2 by lia.
  assert (Hdiv : Zpos m1 * 2 ^ 53 / Zpos m2 = fst (Z.div_eucl (Zpos m1 * 2 ^ 53) (Zpos m2)))
    by reflexivity.
  assert (Hmod : Zpos m1 * 2 ^ 53 mod Zpos m2 = snd (Z.div_eucl (Zpos m1 * 2 ^ 53) (Zpos m2)))
    by reflexivity.
  destruct (Z.div_eucl (Zpos m1 * 2 ^ 53) (Zpos m2)) as [q r]. cbn [fst snd] in *.
  assert (Hq : 2 ^ 52 <= q) by (rewrite <- Hdiv; apply Z.div_le_lower_bound; nia).
  destruct q as [|q|q]; try lia.
  exists q, (new_location (Zpos m2) r). split; [reflexivity|].
  split; [symmetry; exact Hdiv|].
  rewrite Hmod. intros ->. unfold new_location, new_location_even, new_location_odd.
  destruct (Z.even (Zpos m2)); reflexivity.
Qed.

(** The quotient of two normal values [m1 * 2^e1] and [m2 * 2^e2] is the
    normal value [m * 2^(e1 - e2 - 53 + k)] with [k] in [0..2], within two
    units of [2^(e1 - e2 - 53)] of the exact quotient. *)
Lemma SFdiv_normal (x y : spec_float) (m1 m2 : positive) (e1 e2 : Z) :
  Binary64.Normal x m1 e1 -> Binary64.Normal y m2 e2 -> -1021 <= e1 - e2 <= 1022 ->
  exists m k,
    Binary64.Normal (SFdiv 53 1024 x y) m (e1 - e2 - 53 + k) /\
    0 <= k <= 2 /\
    Z.abs (Zpos m * 2 ^ k * Zpos m2 - Zpos m1 * 2 ^ 53) <= 2 * Zpos m2 /\
    (Zpos m1 < Zpos m2 -> k = 0 \/ (k = 1 /\ Zpos m = 2 ^ 52)) /\
    (Zpos m1 = Zpos m2 -> k = 1 /\ Zpos m = 2 ^ 52) /\
    (Zpos m2 < Zpos m1 -> k = 1 \/ (k = 2 /\ Zpos m = 2 ^ 52)).
Proof.
  intros (-> & Hm1 & He1) (-> & Hm2 & He2) He. unfold SFdiv.
  destruct (SFdiv_core_53 m1 m2 e1 e2 Hm1 Hm2 ltac:(lia)) as (q & l & -> & Hq & Hl).
  cbn [xorb]. change (binary_round_aux 53 1024) with Binary64.round_aux.
  assert (Hlo : 2 ^ 52 <= Zpos q) by (rewrite Hq; apply Z.div_le_lower_bound; nia).
  assert (Hhi : Zpos q < 2 ^ 54) by (rewrite Hq; apply Z.div_lt_upper_bound; nia).
  assert (Hqm : Zpos q * Zpos m2 <= Zpos m1 * 2 ^ 53 < (Zpos q + 1) * Zpos m2).
  { pose proof (Z.div_mod (Zpos m1 * 2 ^ 53) (Zpos m2) ltac:(lia)) as Hdm.
    pose proof (Z.mod_pos_bound (Zpos m1 * 2 ^ 53) (Zpos m2) ltac:(lia)) as Hmb.
    rewrite <- Hq in Hdm. nia. }
  destruct (Z_lt_le_dec (Zpos q) (2 ^ 53)) as [Hsmall|Hbig].
  - destruct (round_aux_53 q (e1 - e2 - 53) l ltac:(lia) ltac:(lia))
      as (m & k & HN & Hk & Hval & Hcarry & _).
    exists m, k. split; [exact HN|]. split; [lia|].
    assert (Hlt : Zpos m1 < Zpos m2).
    { destruct (Z_lt_le_dec (Zpos m1) (Zpos m2)) as [|Hge]; [assumption|exfalso].
      assert (2 ^ 53 <= Zpos q) by (rewrite Hq; apply Z.div_le_lower_bound; nia). lia. }
    split; [apply Z.abs_le; nia|].
    repeat split; intros; lia.
  - destruct (round_aux_54 q (e1 - e2 - 53) l ltac:(lia) ltac:(lia))
      as (m & k & HN & Hk & Hval & Hcarry & Hex).
    exists m, k. split; [exact HN|]. split; [lia|].
    assert (Hge : Zpos m2 <= Zpos m1).
    { destruct (Z_lt_le_dec (Zpos m1) (Zpos m2)) as [Hlt|]; [exfalso|assumption].
      assert (Zpos q < 2 ^ 53) by (rewrite Hq; apply Z.div_lt_upper_bound; nia). lia. }
    split; [apply Z.abs_le; nia|].
    split; [intros; lia|]. split.
    + intros Heq. assert (Hq53 : Zpos q = 2 ^ 53).
      { rewrite Hq, Heq, Z.mul_comm. apply Z.div_mul. lia. }
      assert (Hlex : l = loc_Exact).
      { apply Hl. rewrite Heq, Z.mul_comm. apply Z.mod_mul. lia. }
      destruct (Hex Hlex Hq53) as [-> ->]. split; reflexivity.
    + intros _. destruct (Z.eq_dec k 1); [left; assumption|right; split; [lia|apply Hcarry; lia]].
Qed.

Lemma iter_xO_mul (p k : positive) : Zpos (Pos.iter xO p k) = Zpos p * 2 ^ Zpos k.
Proof.
  induction k as [|k IH] using Pos.peano_ind.
  - cbn. lia.
  - rewrite Pos.iter_succ, Pos2Z.inj_succ, Z.pow_succ_r by lia.
    rewrite Pos2Z.inj_xO, IH. lia.
Qed.

(** Integers below [2^53] convert exactly, to a normal value. *)
Lemma of_Z_normal (w : Z) :
  0 < w < 2 ^ 53 ->
  exists m e, Binary64.Normal (Binary64.of_Z w) m e /\ -52 <= e <= 0 /\
              Zpos m = w * 2 ^ (- e).
Proof.
  intros Hw. destruct w as [|p|p]; try lia.
  unfold Binary64.of_Z, binary_normalize, binary_round, Binary64.prec, Binary64.emax.
  pose proof (digits2_pos_bounds p) as Hd.
  set (d := Zpos (digits2_pos p)) in *.
  assert (Hd53 : 1 <= d <= 53).
  { split; [subst d; lia|].
    destruct (Z_lt_le_dec 53 d) as [Hbig|]; [exfalso|assumption].
    assert (2 ^ 53 <= 2 ^ (d - 1)) by (apply Z.pow_le_mono_r; lia). lia. }
  replace (fexp 53 1024 (d + 0)) with (d - 53) by (unfold fexp, emin; lia).
  unfold shl_align. rewrite Z.sub_0_r.
  destruct (d - 53) as [|k|k] eqn:Hk; try lia.
  - change (binary_round_aux 53 1024) with Binary64.round_aux.
    destruct (round_aux_53 p 0 loc_Exact) as (m & k & HN & _ & _ & _ & Hex);
      [replace d with 53 in Hd by lia; cbn in Hd; lia|lia|].
    destruct (Hex eq_refl) as [-> ->]. exists p, 0.
    split; [exact HN|]. split; [lia|]. cbn. lia.
  - change (binary_round_aux 53 1024) with Binary64.round_aux.
    assert (Hmz : 2 ^ 52 <= Zpos (Pos.iter xO p k) < 2 ^ 53).
    { rewrite iter_xO_mul.
      assert (Hk' : Zpos k = 53 - d) by lia. rewrite Hk'.
      assert (E52 : 2 ^ 52 = 2 ^ (d - 1) * 2 ^ (53 - d))
        by (rewrite <- Z.pow_add_r by lia; f_equal; lia).
      assert (E53 : 2 ^ 53 = 2 ^ d * 2 ^ (53 - d))
        by (rewrite <- Z.pow_add_r by lia; f_equal; lia).
      assert (0 < 2 ^ (53 - d)) by (apply Z.pow_pos_nonneg; lia).
      rewrite E52, E53. nia. }
    destruct (round_aux_53 (Pos.iter xO p k) (Zneg k) loc_Exact Hmz ltac:(lia))
      as (m & k' & HN & _ & _ & _ & Hex).
    destruct (Hex eq_refl) as [-> ->]. rewrite Z.add_0_r in HN.
    exists (Pos.iter xO p k), (Zneg k). split; [exact HN|]. split; [lia|].
    rewrite iter_xO_mul. reflexivity.
Qed.

Lemma of_Z_1024 : Binary64.of_Z 1024 = S754_finite false 4503599627370496 (-42).
Proof. reflexivity. Qed.

Lemma of_Z_1 : Binary64.of_Z 1 = S754_finite false 4503599627370496 (-52).
Proof. reflexivity. Qed.

(** Multiplying by 1024 adds 10 to the exponent. *)
Lemma SFmul_1024 (a : spec_float) (m : positive) (e : Z) :
  Binary64.Normal a m e -> e <= 961 ->
  SFmul 53 1024 (Binary64.of_Z 1024) a = S754_finite false m (e + 10).
Proof.
  intros (-> & Hm & He) He'. rewrite of_Z_1024. unfold SFmul. cbn [xorb].
  unfold binary_round_aux.
  assert (Hd : Zdigits2 (Zpos (4503599627370496 * m)) = 105).
  { cbn [Zdigits2]. apply digits2_pos_unique; [lia|].
    rewrite Pos2Z.inj_mul. change (Zpos 4503599627370496) with (2 ^ 52).
    change (2 ^ (105 - 1)) with (2 ^ 52 * 2 ^ 52). change (2 ^ 105) with (2 ^ 52 * 2 ^ 53).
    nia. }
  unfold shr_fexp at 1. rewrite Hd.
  replace (fexp 53 1024 (105 + (-42 + e)) - (-42 + e)) with 52
    by (unfold fexp, emin; lia).
  unfold shr.
  change (iter_pos shr_1 52
            (shr_record_of_loc (Zpos (4503599627370496 * m)) loc_Exact))
    with {| shr_m := Zpos m; shr_r := false; shr_s := false |}.
  cbn [shr_m loc_of_shr_record round_nearest_even].
  rewrite shr_fexp_53 by lia. cbn [shr_record_of_loc shr_m].
  replace (-42 + e + 52) with (e + 10) by lia.
  replace (e + 10 <=? 1024 - 53) with true by (symmetry; apply Z.leb_le; lia).
  reflexivity.
Qed.

Lemma SFleb_1024 (m : positive) (e : Z) :
  2 ^ 52 <= Zpos m ->
  e < -42 \/ (e = -42 /\ Zpos m = 2 ^ 52) ->
  SFleb (S754_finite false m e) (Binary64.of_Z 1024) = true.
Proof.
  intros Hm Hcase. rewrite of_Z_1024. unfold SFleb, SFcompare.
  destruct (Z.compare_spec e (-42)) as [Heq|Hlt|Hgt]; try reflexivity; try lia.
  destruct Hcase as [|[_ Hm52]]; [lia|].
  assert (m = 4503599627370496%positive) as -> by (cbn in Hm52; lia).
  reflexivity.
Qed.

Lemma SFltb_1 (m : positive) (e : Z) :
  2 ^ 52 <= Zpos m ->
  (SFltb (Binary64.of_Z 1) (S754_finite false m e) = true ->
   -52 < e \/ (e = -52 /\ 2 ^ 52 < Zpos m)) /\
  (SFltb (Binary64.of_Z 1) (S754_finite false m e) = false ->
   e < -52 \/ (e = -52 /\ Zpos m = 2 ^ 52)).
Proof.
  intros Hm. rewrite of_Z_1. unfold SFltb, SFcompare.
  change (2 ^ 52) with (Zpos 4503599627370496) in *.
  destruct (Z.compare_spec (-52) e) as [Heq|Hlt|Hgt].
  - change (Pos.compare_cont Eq 4503599627370496 m) with (Pos.compare 4503599627370496 m).
    destruct (Pos.compare_spec 4503599627370496 m) as [Hme|Hml|Hmg].
    + split; intros; [discriminate|]. subst m. right. split; [lia|reflexivity].
    + apply Pos2Z.pos_lt_pos in Hml. split; intros; [|discriminate]. lia.
    + apply Pos2Z.pos_lt_pos in Hmg. lia.
  - split; intros; [|discriminate]. lia.
  - split; intros; [discriminate|]. lia.
Qed.

(** Binary64, target 1024: neither side of the content box exceeds 1024. *)
Lemma binary64_layout_within_square (w h : Z) :
  0 < w < 2 ^ 32 -> 0 < h < 2 ^ 32 ->
  let b := resizeImage_layout (R:=Binary64.t) (ofZ w) (ofZ h) MAX_DIMENSION in
  SFleb (box_w b) MAX_DIMENSION = true /\ SFleb (box_h b) MAX_DIMENSION = true.
Proof.
  intros Hw Hh b. subst b. unfold resizeImage_layout, MAX_DIMENSION.
  cbn [ofZ ndiv nmul nsub ngt Binary64_JSNumber].
  unfold Binary64.prec, Binary64.emax.
  destruct (of_Z_normal w ltac:(lia)) as (mw & ew & HNw & Hew & _).
  destruct (of_Z_normal h ltac:(lia)) as (mh & eh & HNh & Heh & _).
  destruct (SFdiv_normal _ _ _ _ _ _ HNw HNh ltac:(lia))
    as (ma & ka & HNa & Hka & _).
  set (ea := ew - eh - 53 + ka) in *.
  assert (Hea : -105 <= ea <= 52) by (subst ea; lia).
  pose proof HNa as (Ha & Hma & _). rewrite Ha.
  destruct (SFltb_1 ma ea (proj1 Hma)) as [Hgt Hle].
  destruct (SFltb (Binary64.of_Z 1) (S754_finite false ma ea)) eqn:Hcmp;
    cbn [box_w box_h].
  - split; [reflexivity|]. specialize (Hgt eq_refl).
    assert (HN1024 : Binary64.Normal (Binary64.of_Z 1024) 4503599627370496 (-42))
      by (split; [reflexivity|split; [cbn; lia|lia]]).
    assert (HNa' : Binary64.Normal (S754_finite false ma ea) ma ea)
      by (split; [reflexivity|split; lia]).
    destruct (SFdiv_normal _ _ _ _ _ _ HN1024 HNa' ltac:(lia))
      as (m & k & (-> & Hm & He) & Hk & _ & H1 & H2 & H3).
    apply SFleb_1024; [lia|].
    change (Zpos 4503599627370496) with (2 ^ 52) in *.
    destruct (Z.lt_trichotomy (2 ^ 52) (Zpos ma)) as [Hc|[Hc|Hc]];
      [specialize (H1 Hc)|specialize (H2 Hc)|]; lia.
  - split; [|reflexivity]. specialize (Hle eq_refl).
    rewrite (SFmul_1024 _ ma ea) by (try split; try reflexivity; lia).
    apply SFleb_1024; lia.
Qed.
(** *** The ratio of the content box, through two roundings *)

Lemma abs_cancel (x a b : Z) : 0 < a -> Z.abs (x * a) <= b * a -> Z.abs x <= b.
Proof. intros Ha H. rewrite Z.abs_mul, (Z.abs_eq a) in H by lia. nia. Qed.

(** Two roundings in a row: [A ~ mw 2^53 / mh] and [B ~ 2^105 K / A]. *)
Lemma landscape_core (mw mh A B K : Z) :
  0 < mh -> 0 < mw -> 0 < K -> 2 ^ 52 * K <= A ->
  Z.abs (A * mh - mw * 2 ^ 53) <= 2 * mh ->
  Z.abs (B * A - 2 ^ 105 * K) <= 2 * A ->
  Z.abs (2 ^ 52 * K * mh - B * mw) <= 2 * mh + 2 * mw.
Proof.
  intros Hmh Hmw HK HA H1 H2.
  apply abs_cancel with A; [lia|].
  set (d1 := A * mh - mw * 2 ^ 53) in *.
  set (d2 := B * A - 2 ^ 105 * K) in *.
  replace ((2 ^ 52 * K * mh - B * mw) * A) with (2 ^ 52 * K * d1 - d2 * mw)
    by (subst d1 d2; change (2 ^ 105) with (2 ^ 52 * 2 ^ 53); ring).
  apply Z.abs_le in H1. apply Z.abs_le in H2. apply Z.abs_le.
  assert (0 < 2 ^ 52 * K) by lia.
  split; nia.
Qed.

Lemma to_Q_normal (x : spec_float) (m : positive) (e : Z) :
  Binary64.Normal x m e -> e < 0 ->
  exists q : Q,
    Binary64.to_Q x = Some q /\
    (q * inject_Z (2 ^ (- e)) == inject_Z (Zpos m))%Q /\
    Binary64.to_unsigned_long x = (Zpos m / 2 ^ (- e)) mod 2 ^ 32.
Proof.
  intros (-> & Hm & He) Hneg. destruct e as [|p|p]; try lia.
  eexists. split; [reflexivity|]. split.
  - change (- Zneg p) with (Zpos p).
    unfold Qeq. cbn [Qnum Qden Qmult inject_Z Pos.shiftl].
    rewrite Pos2Z.inj_mul, iter_xO_mul. lia.
  - unfold Binary64.to_unsigned_long, Binary64.integerPart.
    rewrite Z.shiftr_div_pow2 by lia. reflexivity.
Qed.

Lemma small_of_scaled (x : Q) (Y T : Z) :
  0 < T -> (x * inject_Z T == inject_Z Y)%Q -> 256 * Z.abs Y <= T ->
  (Qabs x <= 1 # 256)%Q.
Proof.
  intros HT Hx HY.
  assert (HTq : (0 < inject_Z T)%Q) by (change 0%Q with (inject_Z 0); now rewrite <- Zlt_Qlt).
  assert (Hlo : (inject_Z (- T) <= inject_Z (256 * Y))%Q) by (rewrite <- Zle_Qle; lia).
  assert (Hhi : (inject_Z (256 * Y) <= inject_Z T)%Q) by (rewrite <- Zle_Qle; lia).
  rewrite inject_Z_opp in Hlo. rewrite inject_Z_mult in Hlo, Hhi.
  change (inject_Z 256) with 256%Q in *.
  apply Qabs_Qle_condition. split.
  - apply Qnot_lt_le. intros Hc. nra.
  - apply Qnot_lt_le. intros Hc. nra.
Qed.

Lemma floor_of_scaled (x : Q) (M T : Z) :
  0 < T -> (x * inject_Z T == inject_Z M)%Q ->
  (inject_Z (M / T) <= x)%Q /\ (x < inject_Z (M / T) + 1)%Q.
Proof.
  intros HT Hx.
  assert (HTq : (0 < inject_Z T)%Q) by (change 0%Q with (inject_Z 0); now rewrite <- Zlt_Qlt).
  pose proof (Z.mul_div_le M T HT) as Hlo.
  pose proof (Z.mul_succ_div_gt M T HT) as Hhi.
  rewrite Zle_Qle in Hlo. rewrite Zlt_Qlt in Hhi.
  rewrite inject_Z_mult in Hlo, Hhi. unfold Z.succ in Hhi. rewrite inject_Z_plus in Hhi.
  change (inject_Z 1) with 1%Q in Hhi.
  split.
  - apply Qnot_lt_le. intros Hc. nra.
  - apply Qnot_le_lt. intros Hc. nra.
Qed.

Lemma shift_at_least_21 (h p : Z) :
  0 <= p -> 0 < h < 2 ^ 32 -> 2 ^ 52 <= h * 2 ^ p -> 21 <= p.
Proof.
  intros Hp Hh Hm. destruct (Z_lt_le_dec p 21) as [Hlt|]; [exfalso|assumption].
  assert (2 ^ p <= 2 ^ 20) by (apply Z.pow_le_mono_r; lia).
  assert (0 < 2 ^ p) by (apply Z.pow_pos_nonneg; lia).
  change (2 ^ 52) with (2 ^ 32 * 2 ^ 20) in Hm. nia.
Qed.

(** Landscape, in integers: [m * 2^(-P)] is the content height. *)
Lemma landscape_ratio_core (w h mw mh ma m pw ph ka kb : Z) :
  0 < w < 2 ^ 32 -> 0 < h < 2 ^ 32 ->
  0 <= pw <= 52 -> 0 <= ph <= 52 -> 0 <= ka <= 2 -> 0 <= kb <= 2 ->
  mw = w * 2 ^ pw -> mh = h * 2 ^ ph ->
  2 ^ 52 <= mw < 2 ^ 53 -> 2 ^ 52 <= mh < 2 ^ 53 -> 2 ^ 52 <= ma < 2 ^ 53 ->
  Z.abs (ma * 2 ^ ka * mh - mw * 2 ^ 53) <= 2 * mh ->
  Z.abs (m * 2 ^ kb * ma - 2 ^ 52 * 2 ^ 53) <= 2 * ma ->
  let P := 42 - pw + ph + ka - kb in
  0 <= P ->
  256 * Z.abs (1024 * h * 2 ^ P - m * w) <= 2 ^ P.
Proof.
  intros Hw Hh Hpw Hph Hka Hkb Emw Emh Hmw Hmh Hma F2 F3 P HP.
  assert (Hph21 : 21 <= ph) by (apply (shift_at_least_21 h); subst; lia).
  set (K := 2 ^ ka). set (L := 2 ^ kb).
  assert (HK : 0 < K) by (apply Z.pow_pos_nonneg; lia).
  assert (HL : 0 < L) by (apply Z.pow_pos_nonneg; lia).
  assert (HX : Z.abs (2 ^ 52 * K * mh - m * L * mw) <= 2 * mh + 2 * mw).
  { apply (landscape_core mw mh (ma * K) (m * L) K); try lia.
    - nia.
    - replace (m * L * (ma * K) - 2 ^ 105 * K) with ((m * L * ma - 2 ^ 52 * 2 ^ 53) * K)
        by (change (2 ^ 105) with (2 ^ 52 * 2 ^ 53); ring).
      rewrite Z.abs_mul, (Z.abs_eq K) by lia. nia. }
  set (E2 := 2 ^ (pw + kb)).
  assert (HE2 : 0 < E2) by (apply Z.pow_pos_nonneg; lia).
  assert (HPE : 2 ^ P * E2 = 2 ^ 42 * 2 ^ ph * K).
  { subst E2 K P. rewrite <- !Z.pow_add_r by lia. f_equal. lia. }
  assert (HE2' : E2 = 2 ^ pw * L) by (subst E2 L; apply Z.pow_add_r; lia).
  assert (HY : (1024 * h * 2 ^ P - m * w) * E2 = 2 ^ 52 * K * mh - m * L * mw).
  { rewrite Z.mul_sub_distr_r.
    replace (1024 * h * 2 ^ P * E2) with (1024 * h * (2 ^ P * E2)) by ring.
    rewrite HPE, HE2', Emw, Emh. change (2 ^ 52) with (1024 * 2 ^ 42). ring. }
  assert (H63 : 2 ^ 63 <= 2 ^ P * E2).
  { rewrite HPE. assert (2 ^ 21 <= 2 ^ ph) by (apply Z.pow_le_mono_r; lia).
    change (2 ^ 63) with (2 ^ 42 * 2 ^ 21 * 1). nia. }
  assert (HYE : Z.abs (1024 * h * 2 ^ P - m * w) * E2 <= 2 * mh + 2 * mw).
  { rewrite <- (Z.abs_eq E2) at 1 by lia. rewrite <- Z.abs_mul, HY. exact HX. }
  apply (Z.mul_le_mono_pos_r _ _ E2 HE2). rewrite <- Z.mul_assoc.
  change (2 ^ 63) with (256 * 2 ^ 55) in H63. lia.
Qed.

(** Portrait or square, in integers: [ma * 2^(-P)] is the content width. *)
Lemma portrait_ratio_core (w h mw mh ma pw ph ka : Z) :
  0 < w < 2 ^ 32 -> 0 < h < 2 ^ 32 ->
  0 <= pw <= 52 -> 0 <= ph <= 52 -> 0 <= ka <= 2 ->
  mw = w * 2 ^ pw -> mh = h * 2 ^ ph ->
  Z.abs (ma * 2 ^ ka * mh - mw * 2 ^ 53) <= 2 * mh ->
  let P := 43 + pw - ph - ka in
  42 <= P ->
  256 * Z.abs (ma * h - 1024 * w * 2 ^ P) <= 2 ^ P.
Proof.
  intros Hw Hh Hpw Hph Hka Emw Emh F2 P HP.
  set (K := 2 ^ ka) in *.
  assert (HK : 0 < K) by (apply Z.pow_pos_nonneg; lia).
  set (E2 := K * 2 ^ ph).
  assert (HE2 : 0 < E2) by (subst E2; apply Z.mul_pos_pos; [lia|apply Z.pow_pos_nonneg; lia]).
  assert (HPE : 2 ^ P * E2 = 2 ^ 43 * 2 ^ pw).
  { subst E2 K P. rewrite <- !Z.pow_add_r by lia. f_equal. lia. }
  assert (HY : (ma * h - 1024 * w * 2 ^ P) * E2 = ma * K * mh - mw * 2 ^ 53).
  { rewrite Z.mul_sub_distr_r.
    replace (1024 * w * 2 ^ P * E2) with (1024 * w * (2 ^ P * E2)) by ring.
    rewrite HPE, Emw, Emh. subst E2. change (2 ^ 53) with (1024 * 2 ^ 43). ring. }
  assert (HYE : Z.abs (ma * h - 1024 * w * 2 ^ P) * E2 <= 2 * h * 2 ^ ph).
  { rewrite <- (Z.abs_eq E2) at 1 by lia. rewrite <- Z.abs_mul, HY.
    rewrite Emh in F2. lia. }
  assert (H2ph : 0 < 2 ^ ph) by (apply Z.pow_pos_nonneg; lia).
  assert (Hsmall : Z.abs (ma * h - 1024 * w * 2 ^ P) <= 2 * h).
  { subst E2. set (Y := Z.abs (ma * h - 1024 * w * 2 ^ P)) in *.
    assert (0 <= Y) by (subst Y; apply Z.abs_nonneg).
    assert (HYK : Y * K <= 2 * h).
    { apply (Z.mul_le_mono_pos_r _ _ (2 ^ ph) H2ph). rewrite <- Z.mul_assoc. exact HYE. }
    clear - HYK HK H. nia. }
  assert (2 ^ 42 <= 2 ^ P) by (apply Z.pow_le_mono_r; lia).
  change (2 ^ 42) with (256 * 2 ^ 34) in *. lia.
Qed.

Lemma truncates_normal (x : spec_float) (m : positive) (e : Z) (q : Q) :
  2 ^ 52 <= Zpos m < 2 ^ 53 -> e <= -42 ->
  (q * inject_Z (2 ^ (- e)) == inject_Z (Zpos m))%Q ->
  Binary64.to_unsigned_long x = (Zpos m / 2 ^ (- e)) mod 2 ^ 32 ->
  (inject_Z (Binary64.to_unsigned_long x) <= q)%Q /\
  (q < inject_Z (Binary64.to_unsigned_long x) + 1)%Q.
Proof.
  intros Hm He Hq ->.
  assert (HT : 0 < 2 ^ (- e)) by (apply Z.pow_pos_nonneg; lia).
  assert (H42 : 2 ^ 42 <= 2 ^ (- e)) by (apply Z.pow_le_mono_r; lia).
  rewrite Z.mod_small.
  - apply floor_of_scaled; assumption.
  - split; [apply Z.div_pos; lia|].
    apply Z.div_lt_upper_bound; [lia|].
    change (2 ^ 53) with (2 ^ 42 * 2 ^ 11) in Hm. nia.
Qed.

(** Binary64, target 1024: the content box has the ratio [w : h] to within
    1/256 of a pixel, and the setter conversion drops less than a pixel. *)
Lemma binary64_contentBox_ratio (w h : Z) :
  0 < w < 2 ^ 32 -> 0 < h < 2 ^ 32 ->
  let b := contentBox (R:=Binary64.t) (ofZ w) (ofZ h) MAX_DIMENSION in
  exists bw bh : Q,
    Binary64.to_Q (box_w b) = Some bw /\ Binary64.to_Q (box_h b) = Some bh /\
    (Qabs (bw * inject_Z h - bh * inject_Z w) <= 1 # 256)%Q /\
    (inject_Z (toUnsignedLong (box_w b)) <= bw < inject_Z (toUnsignedLong (box_w b)) + 1)%Q /\
    (inject_Z (toUnsignedLong (box_h b)) <= bh < inject_Z (toUnsignedLong (box_h b)) + 1)%Q.
Proof.
  intros Hw Hh b. subst b. unfold contentBox, MAX_DIMENSION.
  cbn [ofZ ndiv nmul nsub ngt toUnsignedLong Binary64_JSNumber].
  unfold Binary64.prec, Binary64.emax.
  destruct (of_Z_normal w ltac:(lia)) as (mw & ew & HNw & Hew & Emw).
  destruct (of_Z_normal h ltac:(lia)) as (mh & eh & HNh & Heh & Emh).
  destruct (SFdiv_normal _ _ _ _ _ _ HNw HNh ltac:(lia))
    as (ma & ka & HNa & Hka & F2 & _).
  set (ea := ew - eh - 53 + ka) in *.
  pose proof HNw as (_ & Hmw & _). pose proof HNh as (_ & Hmh & _).
  pose proof HNa as (Ha & Hma & _). rewrite Ha.
  destruct (SFltb_1 ma ea (proj1 Hma)) as [Hgt Hle].
  assert (Hbw1024 : ((4503599627370496 # 4398046511104) == 1024)%Q) by reflexivity.
  destruct (SFltb (Binary64.of_Z 1) (S754_finite false ma ea)) eqn:Hcmp;
    cbn [box_w box_h].
  - specialize (Hgt eq_refl).
    assert (HN1024 : Binary64.Normal (Binary64.of_Z 1024) 4503599627370496 (-42))
      by (split; [reflexivity|split; [cbn; lia|lia]]).
    assert (HNa' : Binary64.Normal (S754_finite false ma ea) ma ea)
      by (split; [reflexivity|split; [lia|subst ea; lia]]).
    destruct (SFdiv_normal _ _ _ _ _ _ HN1024 HNa' ltac:(subst ea; lia))
      as (m & kb & HNb & Hkb & F3 & H1 & H2 & H3).
    set (e := -42 - ea - 53 + kb) in *.
    assert (He : e <= -42).
    { change (Zpos 4503599627370496) with (2 ^ 52) in H1, H2, H3.
      destruct (Z.lt_trichotomy (2 ^ 52) (Zpos ma)) as [Hc|[Hc|Hc]];
        [specialize (H1 Hc)|specialize (H2 Hc)|]; subst e; lia. }
    destruct (to_Q_normal _ m e HNb ltac:(lia)) as (bh & Hbh & Hbhv & Hbht).
    pose proof HNb as (_ & Hm & _).
    exists (4503599627370496 # 4398046511104)%Q, bh.
    split; [reflexivity|]. split; [exact Hbh|]. split.
    + apply (small_of_scaled _ (1024 * h * 2 ^ (- e) - Zpos m * w) (2 ^ (- e))).
      * apply Z.pow_pos_nonneg; lia.
      * unfold Z.sub. rewrite inject_Z_plus, inject_Z_opp, !inject_Z_mult.
        change (inject_Z 1024) with 1024%Q.
        rewrite <- Hbhv, Hbw1024. ring.
      * replace (- e) with (42 - (- ew) + (- eh) + ka - kb) by (subst e ea; lia).
        apply (landscape_ratio_core w h (Zpos mw) (Zpos mh) (Zpos ma) (Zpos m));
          try assumption; try lia.
    + split; [split; [discriminate|reflexivity]|].
      apply (truncates_normal _ m e); assumption.
  - specialize (Hle eq_refl).
    assert (Hea : ea + 10 <= -42) by lia.
    rewrite (SFmul_1024 _ ma ea) by (try split; try reflexivity; subst ea; lia).
    assert (HNb : Binary64.Normal (S754_finite false ma (ea + 10)) ma (ea + 10))
      by (split; [reflexivity|split; [lia|subst ea; lia]]).
    destruct (to_Q_normal _ ma (ea + 10) HNb ltac:(lia)) as (bw & Hbw & Hbwv & Hbwt).
    exists bw, (4503599627370496 # 4398046511104)%Q.
    split; [exact Hbw|]. split; [reflexivity|]. split.
    + apply (small_of_scaled _ (Zpos ma * h - 1024 * w * 2 ^ (- (ea + 10)))
               (2 ^ (- (ea + 10)))).
      * apply Z.pow_pos_nonneg; lia.
      * unfold Z.sub. rewrite inject_Z_plus, inject_Z_opp, !inject_Z_mult.
        change (inject_Z 1024) with 1024%Q.
        rewrite <- Hbwv, Hbw1024. ring.
      * replace (- (ea + 10)) with (43 + (- ew) - (- eh) - ka) by (subst ea; lia).
        apply (portrait_ratio_core w h (Zpos mw) (Zpos mh) (Zpos ma));
          try assumption; try lia.
    + split; [apply (truncates_normal _ ma (ea + 10)); assumption|].
      split; [discriminate|reflexivity].
Qed.
End Binary64Rounding.

(** ** The two layouts are the specified content box *)

Lemma resizeImage_layout_contentBox {R} `{JSNumber R} (w h t : R) :
  resizeImage_layout w h t = contentBox w h t.
Proof.
  unfold resizeImage_layout, contentBox.
  destruct (ngt (ndiv w h) (ofZ 1)); reflexivity.
Qed.

Lemma cropToOriginalAspectRatio_layout_contentBox {R} `{JSNumber R} (w h t : R) :
  cropToOriginalAspectRatio_layout w h t = contentBox w h t.
Proof.
  unfold cropToOriginalAspectRatio_layout, contentBox.
  destruct (ngt (ndiv w h) (ofZ 1)); reflexivity.
Qed.

Lemma content_box_shared_canvases (R : Type) (N : JSNumber R)
    (img sq : HTMLImageElement) (w h t : R) :
  painted (resizeImage_canvas img t) =
    [FillRect "black" (square t);
     DrawImage img (contentBox (ofZ (img_width img)) (ofZ (img_height img)) t)] /\
  painted (cropToOriginalAspectRatio_canvas sq w h t) =
    [DrawSubImage sq (contentBox w h t) (atOrigin (contentBox w h t))].
Proof.
  split.
  - unfold resizeImage_canvas, paint, set_height, set_width, createCanvas, square.
    cbn [painted app]. now rewrite resizeImage_layout_contentBox.
  - unfold cropToOriginalAspectRatio_canvas, paint, set_height, set_width,
      createCanvas, atOrigin.
    cbn [painted app]. now rewrite cropToOriginalAspectRatio_layout_contentBox.
Qed.

(** ** The size of the canvases, and what the two helpers return *)

Lemma limited_small (default n : Z) :
  (n <= 2147483647)%Z -> limited default n = n.
Proof. intros Hn. unfold limited. now rewrite (proj2 (Z.leb_le _ _) Hn). Qed.

Lemma limited_large (default n : Z) :
  (2147483647 < n)%Z -> limited default n = default.
Proof. intros Hn. unfold limited. now rewrite (proj2 (Z.leb_gt _ _) Hn). Qed.

Lemma limited_nonneg (default n : Z) :
  (0 <= default)%Z -> (0 <= n)%Z -> (0 <= limited default n)%Z.
Proof. intros Hd Hn. unfold limited. now destruct (n <=? 2147483647)%Z. Qed.

(** The square canvas has the target, converted and limited, on both sides. *)
Lemma resizeImage_canvas_dimensions {R} `{JSNumber R} (img : HTMLImageElement) (t : R) :
  canvas_width (resizeImage_canvas img t) = limited 300 (toUnsignedLong t) /\
  canvas_height (resizeImage_canvas img t) = limited 150 (toUnsignedLong t).
Proof. split; reflexivity. Qed.

(** A target of 3000000000 is beyond the limit: the canvas keeps its default
    size, 300 by 150, in binary64 and in exact arithmetic. *)
Lemma resizeImage_canvas_beyond_the_limit (img : HTMLImageElement) :
  canvas_width (resizeImage_canvas (R:=Binary64.t) img (ofZ 3000000000)) = 300%Z /\
  canvas_height (resizeImage_canvas (R:=Binary64.t) img (ofZ 3000000000)) = 150%Z /\
  canvas_width (resizeImage_canvas (R:=Q) img (ofZ 3000000000)) = 300%Z /\
  canvas_height (resizeImage_canvas (R:=Q) img (ofZ 3000000000)) = 150%Z.
Proof. repeat split; vm_compute; reflexivity. Qed.

(** The crop canvas has the sides of the content box, converted and
    limited. *)
Lemma crop_canvas_dimensions {R} `{JSNumber R} (sq : HTMLImageElement) (w h t : R) :
  let crop := cropToOriginalAspectRatio_canvas sq w h t in
  canvas_width crop = limited 300 (toUnsignedLong (box_w (contentBox w h t))) /\
  canvas_height crop = limited 150 (toUnsignedLong (box_h (contentBox w h t))).
Proof.
  intros crop. subst crop.
  unfold cropToOriginalAspectRatio_canvas, paint, set_height, set_width, createCanvas.
  cbn [canvas_width canvas_height].
  rewrite cropToOriginalAspectRatio_layout_contentBox. split; reflexivity.
Qed.

(** What a successful [resizeImage] returns: the file was read as a data
    URL, the URL decoded to an image, and the result holds the JPEG
    encoding, at quality 0.95, of the square canvas painted with that
    image, under the name of the input. *)
Lemma resizeImage_resolves {R} `{JSNumber R} (W : World R)
    (file out : File) (t : R) :
  resizeImage W file t = resolve out ->
  exists url img blob,
    readAsDataURL W file = ReaderLoad (Some url) /\
    loadImage W url = ImageLoad img /\
    toBlob W (resizeImage_canvas img t) "image/jpeg" (95 # 100)%Q = Some blob /\
    out = {| file_bits := blob_bits blob; file_name := file_name file;
             file_type := "image/jpeg"; lastModified := date_now W |}.
Proof.
  unfold resizeImage. intros Hres.
  destruct (readAsDataURL W file) as [err|[url|]]; try discriminate.
  destruct (truthy url); try discriminate.
  destruct (loadImage W url) as [err|img] eqn:Hload; try discriminate.
  destruct (getContext2d W _); try discriminate.
  destruct (toBlob W _ _ _) as [blob|] eqn:Hblob; try discriminate.
  injection Hres as <-. exists url, img, blob. repeat split; assumption.
Qed.

(** What a successful measurement returns: the natural size of the image
    the file decodes to. *)
Lemma getImageDimensions_resolves {R} `{JSNumber R} (W : World R)
    (file : File) (dims : Dimensions) :
  getImageDimensions W file = resolve dims ->
  exists url img,
    readAsDataURL W file = ReaderLoad (Some url) /\
    loadImage W url = ImageLoad img /\
    dims = {| width := naturalWidth img; height := naturalHeight img |}.
Proof.
  unfold getImageDimensions. intros Hres.
  destruct (readAsDataURL W file) as [err|[url|]]; try discriminate.
  destruct (truthy url); try discriminate.
  destruct (loadImage W url) as [err|img] eqn:Hload; try discriminate.
  injection Hres as <-. exists url, img. repeat split; assumption.
Qed.

(** What a successful crop returns: the JPEG data URL, at quality 0.95, of
    the crop canvas painted from the image the URL decodes to. *)
Lemma cropToOriginalAspectRatio_resolves {R} `{JSNumber R} (W : World R)
    (url : string) (ow oh t : R) (final : string) :
  cropToOriginalAspectRatio W url ow oh t = resolve final ->
  exists sq,
    loadImage W url = ImageLoad sq /\
    final = toDataURL W (cropToOriginalAspectRatio_canvas sq ow oh t)
              "image/jpeg" (95 # 100)%Q.
Proof.
  unfold cropToOriginalAspectRatio. intros Hc.
  destruct (loadImage W url) as [err|sq]; [discriminate|].
  destruct (getContext2d W _); [|discriminate].
  injection Hc as <-. now exists sq.
Qed.

(** ** The geometry in binary64, for every image *)

Section Geometry.
Local Open Scope Z_scope.

Lemma Normal_unique (x : spec_float) (m m' : positive) (e e' : Z) :
  Binary64.Normal x m e -> Binary64.Normal x m' e' -> m = m' /\ e = e'.
Proof. intros (-> & _) (E & _). injection E as <- <-. now split. Qed.

(** The landscape test, in integers: with [X] the scaled mantissa of the
    rounded ratio and [T] the scaled value of 1. *)
Lemma orientation_core (w h pw ph X T : Z) :
  0 < w < 2 ^ 32 -> 0 < h < 2 ^ 32 -> 0 <= pw -> 0 <= ph ->
  2 ^ 52 <= w * 2 ^ pw -> h * 2 ^ ph < 2 ^ 53 ->
  T = 2 ^ (pw + 53) ->
  Z.abs (h * X - w * T) <= 2 * (h * 2 ^ ph) ->
  (h < w -> T < X) /\ (w < h -> X <= T).
Proof.
  intros Hw Hh Hpw Hph Hmw Hmh HT Habs.
  assert (Hpw21 : 21 <= pw) by (apply (shift_at_least_21 w); lia).
  assert (H74 : 2 ^ 74 <= T).
  { subst T. apply Z.pow_le_mono_r; lia. }
  change (2 ^ 74) with (2 ^ 21 * 2 ^ 53) in H74.
  apply Z.abs_le in Habs.
  split; intros Hlt.
  - destruct (Z_lt_le_dec T X) as [|Hle]; [assumption|exfalso]. nia.
  - destruct (Z_lt_le_dec T X) as [Hgt|]; [exfalso|assumption]. nia.
Qed.

(** Binary64: the landscape test [aspectRatio > 1] is decided as [w > h]. *)
Lemma binary64_landscape_test (w h : Z) :
  0 < w < 2 ^ 32 -> 0 < h < 2 ^ 32 ->
  ngt (ndiv (ofZ (R:=Binary64.t) w) (ofZ h)) (ofZ 1) = (h <? w).
Proof.
  intros Hw Hh. cbn [ofZ ndiv ngt Binary64_JSNumber].
  unfold Binary64.prec, Binary64.emax.
  destruct (of_Z_normal w ltac:(lia)) as (mw & ew & HNw & Hew & Emw).
  destruct (of_Z_normal h ltac:(lia)) as (mh & eh & HNh & Heh & Emh).
  destruct (SFdiv_normal _ _ _ _ _ _ HNw HNh ltac:(lia))
    as (ma & ka & HNa & Hka & F2 & _ & Heq & _).
  pose proof HNw as (_ & Hmw & _). pose proof HNh as (_ & Hmh & _).
  pose proof HNa as (Ha & Hma & _). rewrite Ha.
  destruct (SFltb_1 ma (ew - eh - 53 + ka) (proj1 Hma)) as [Hgt Hle].
  destruct (Z.lt_trichotomy h w) as [Hlt|[Hsame|Hlt]].
  - (* landscape *)
    replace (h <? w) with true by (symmetry; apply Z.ltb_lt; lia).
    destruct (SFltb _ _) eqn:Hcmp; [reflexivity|exfalso].
    specialize (Hle eq_refl).
    destruct (orientation_core w h (- ew) (- eh) (Zpos ma * 2 ^ (ka + - eh))
                (2 ^ (- ew + 53))) as [Hland _]; try lia.
    + rewrite Z.pow_add_r by lia.
      replace (h * (Zpos ma * (2 ^ ka * 2 ^ (- eh))))
        with (Zpos ma * 2 ^ ka * (h * 2 ^ (- eh))) by ring.
      replace (w * 2 ^ (- ew + 53)) with (w * 2 ^ (- ew) * 2 ^ 53)
        by (rewrite (Z.pow_add_r 2 (- ew) 53) by lia; ring).
      rewrite <- Emw, <- Emh. exact F2.
    + specialize (Hland Hlt).
      destruct Hle as [He|[He Hm]].
      * assert (Hk : ka + - eh <= - ew) by lia.
        assert (2 ^ (ka + - eh) <= 2 ^ (- ew)) by (apply Z.pow_le_mono_r; lia).
        rewrite Z.pow_add_r in Hland by lia.
        assert (0 < 2 ^ (- ew)) by (apply Z.pow_pos_nonneg; lia). nia.
      * rewrite Hm in Hland. rewrite <- Z.pow_add_r in Hland by lia.
        replace (52 + (ka + - eh)) with (- ew + 53) in Hland by lia. lia.
  - (* square *)
    subst w. destruct (Normal_unique _ _ _ _ _ HNw HNh) as [-> ->].
    destruct (Heq eq_refl) as [-> Hm].
    rewrite Z.ltb_irrefl.
    destruct (SFltb _ _) eqn:Hcmp; [exfalso|reflexivity].
    specialize (Hgt eq_refl). lia.
  - (* portrait *)
    replace (h <? w) with false by (symmetry; apply Z.ltb_ge; lia).
    destruct (SFltb _ _) eqn:Hcmp; [exfalso|reflexivity].
    specialize (Hgt eq_refl).
    destruct (orientation_core w h (- ew) (- eh) (Zpos ma * 2 ^ (ka + - eh))
                (2 ^ (- ew + 53))) as [_ Hport]; try lia.
    + rewrite Z.pow_add_r by lia.
      replace (h * (Zpos ma * (2 ^ ka * 2 ^ (- eh))))
        with (Zpos ma * 2 ^ ka * (h * 2 ^ (- eh))) by ring.
      replace (w * 2 ^ (- ew + 53)) with (w * 2 ^ (- ew) * 2 ^ 53)
        by (rewrite (Z.pow_add_r 2 (- ew) 53) by lia; ring).
      rewrite <- Emw, <- Emh. exact F2.
    + specialize (Hport Hlt).
      destruct Hgt as [He|[He Hm]].
      * assert (Hk : - ew + 2 <= ka + - eh) by lia.
        assert (2 ^ (- ew + 2) <= 2 ^ (ka + - eh)) by (apply Z.pow_le_mono_r; lia).
        rewrite !Z.pow_add_r in * by lia.
        assert (0 < 2 ^ (- ew)) by (apply Z.pow_pos_nonneg; lia).
        change (2 ^ 53) with (2 * 2 ^ 52) in Hport. change (2 ^ 2) with 4 in *. nia.
      * replace (ka + - eh) with (- ew + 1) in Hport by lia.
        rewrite !Z.pow_add_r in Hport by lia.
        assert (0 < 2 ^ (- ew)) by (apply Z.pow_pos_nonneg; lia).
        change (2 ^ 53) with (2 * 2 ^ 52) in Hport. change (2 ^ 1) with 2 in Hport. nia.
Qed.

Lemma Q_landscape_test_Z (w h : Z) :
  0 < w -> 0 < h ->
  ngt (ndiv (ofZ (R:=Q) w) (ofZ h)) (ofZ 1) = (h <? w).
Proof.
  intros Hw Hh.
  assert (HhQ : (0 < inject_Z h)%Q)
    by (change 0%Q with (inject_Z 0); rewrite <- Zlt_Qlt; exact Hh).
  destruct (Z.ltb_spec h w) as [Hlt|Hge].
  - apply Q_landscape_test. cbn [ofZ ndiv Q_JSNumber].
    apply Qlt_shift_div_l; [exact HhQ|]. rewrite Qmult_1_l. now rewrite <- Zlt_Qlt.
  - apply Q_portrait_test. cbn [ofZ ndiv Q_JSNumber].
    apply Qle_shift_div_r; [exact HhQ|]. rewrite Qmult_1_l. now rewrite <- Zle_Qle.
Qed.

(** Binary64, target 1024: the long side of the content box is the whole
    side of the square, at offset zero. *)
Lemma long_side_fills_the_square_aux (w h : Z) :
  0 < w < 2 ^ 32 -> 0 < h < 2 ^ 32 ->
  let b := contentBox (R:=Binary64.t) (ofZ w) (ofZ h) MAX_DIMENSION in
  (h < w -> box_w b = MAX_DIMENSION /\ box_x b = ofZ 0) /\
  (w <= h -> box_h b = MAX_DIMENSION /\ box_y b = ofZ 0).
Proof.
  intros Hw Hh b. subst b. unfold contentBox.
  rewrite (binary64_landscape_test w h Hw Hh).
  split.
  - intros Hlt. replace (h <? w) with true by (symmetry; apply Z.ltb_lt; lia).
    cbn [box_w box_x]. split; reflexivity.
  - intros Hle. replace (h <? w) with false by (symmetry; apply Z.ltb_ge; lia).
    cbn [box_h box_y]. split; reflexivity.
Qed.

(** X10.  The long side of the image fills the side of the square.  For
    natural dimensions below [2^32] the test [aspectRatio > 1] comes out as
    [w > h], in binary64 as in exact arithmetic: rounding the quotient never
    misjudges the orientation.  So in binary64, at the target the
    orchestrator uses, a landscape image gets the full width at horizontal
    offset 0, any other the full height at vertical offset 0, and a square
    image the whole square: it is not padded at all. *)
Theorem long_side_fills_the_square :
  forall w h : Z,
    0 < w < 2 ^ 32 -> 0 < h < 2 ^ 32 ->
    let b := contentBox (R:=Binary64.t) (ofZ w) (ofZ h) MAX_DIMENSION in
    ngt (ndiv (ofZ (R:=Binary64.t) w) (ofZ h)) (ofZ 1) = (h <? w) /\
    ngt (ndiv (ofZ (R:=Q) w) (ofZ h)) (ofZ 1) = (h <? w) /\
    (h < w -> box_w b = MAX_DIMENSION /\ box_x b = ofZ 0) /\
    (w <= h -> box_h b = MAX_DIMENSION /\ box_y b = ofZ 0) /\
    (w = h -> b = square MAX_DIMENSION).
Proof.
  intros w h Hw Hh b. subst b.
  pose proof (binary64_landscape_test w h Hw Hh) as Htest.
  split; [exact Htest|]. split; [apply Q_landscape_test_Z; lia|].
  split; [apply long_side_fills_the_square_aux; assumption|].
  split; [apply long_side_fills_the_square_aux; assumption|].
  unfold contentBox. rewrite Htest.
  intros ->. rewrite Z.ltb_irrefl. unfold square.
  destruct (of_Z_normal h ltac:(lia)) as (mh & eh & HNh & Heh & Emh).
  destruct (SFdiv_normal _ _ _ _ _ _ HNh HNh ltac:(lia))
    as (ma & ka & HNa & _ & _ & _ & Heq & _).
  destruct (Heq eq_refl) as [-> Hm].
  assert (Hone : SFmul 53 1024 (Binary64.of_Z 1024)
                   (SFdiv 53 1024 (Binary64.of_Z h) (Binary64.of_Z h))
                 = Binary64.of_Z 1024).
  { rewrite (SFmul_1024 _ ma (eh - eh - 53 + 1) HNa) by lia.
    replace (eh - eh - 53 + 1 + 10) with (-42) by lia.
    assert (ma = 4503599627370496%positive) as -> by (cbn in Hm; lia).
    reflexivity. }
  unfold MAX_DIMENSION. cbn [ofZ ndiv nmul nsub Binary64_JSNumber].
  unfold Binary64.prec, Binary64.emax. rewrite Hone. reflexivity.
Qed.

Lemma long_side_fills_the_square_witness :
  let b := contentBox (R:=Binary64.t) (ofZ 1920) (ofZ 1080) MAX_DIMENSION in
  ngt (ndiv (ofZ (R:=Binary64.t) 1920) (ofZ 1080)) (ofZ 1) = (1080 <? 1920) /\
  ngt (ndiv (ofZ (R:=Q) 1920) (ofZ 1080)) (ofZ 1) = (1080 <? 1920) /\
  (1080 < 1920 -> box_w b = MAX_DIMENSION /\ box_x b = ofZ 0) /\
  (1920 <= 1080 -> box_h b = MAX_DIMENSION /\ box_y b = ofZ 0) /\
  (1920 = 1080 -> b = square MAX_DIMENSION).
Proof. apply (long_side_fills_the_square 1920 1080); lia. Defined.

(** A number within 1/256 of [N / d] that converts to [c]: [c] is the
    integer quotient, or one less when the quotient is exact. *)
Lemma floor_near_quotient (c N d : Z) (q : Q) :
  0 < d ->
  (inject_Z c <= q)%Q -> (q < inject_Z c + 1)%Q ->
  (Qabs (inject_Z N - q * inject_Z d) <= 1 # 256)%Q ->
  N / d - 1 <= c <= N / d /\ (c = N / d - 1 -> N mod d = 0).
Proof.
  intros Hd Hlo Hhi Hnear.
  assert (HdQ : (0 < inject_Z d)%Q)
    by (change 0%Q with (inject_Z 0); rewrite <- Zlt_Qlt; exact Hd).
  apply Qabs_Qle_condition in Hnear. destruct Hnear as [Hn1 Hn2].
  assert (Hup : c * d <= N).
  { assert (Hq : (inject_Z (c * d) < inject_Z (N + 1))%Q).
    { rewrite inject_Z_mult, inject_Z_plus. change (inject_Z 1) with 1%Q.
      assert ((inject_Z c * inject_Z d <= q * inject_Z d)%Q) by nra.
      lra. }
    rewrite <- Zlt_Qlt in Hq. lia. }
  assert (Hdown : N <= (c + 1) * d).
  { assert (Hq : (inject_Z (N - 1) < inject_Z ((c + 1) * d))%Q).
    { unfold Z.sub. rewrite inject_Z_mult, !inject_Z_plus, inject_Z_opp.
      change (inject_Z 1) with 1%Q.
      assert ((q * inject_Z d < (inject_Z c + 1) * inject_Z d)%Q) by nra.
      lra. }
    rewrite <- Zlt_Qlt in Hq. lia. }
  pose proof (Z.div_mod N d ltac:(lia)) as Hdm.
  pose proof (Z.mod_pos_bound N d Hd) as Hmb.
  split; [split|].
  - assert (N / d < c + 2); [|lia]. apply Z.div_lt_upper_bound; [lia|]. nia.
  - apply Z.div_le_lower_bound; [lia|]. lia.
  - intros ->. nia.
Qed.

(** The exact conversion of [N / d]. *)
Lemma floor_exact_quotient (c N d : Z) (q : Q) :
  0 < d ->
  (inject_Z c <= q)%Q -> (q < inject_Z c + 1)%Q ->
  (q * inject_Z d == inject_Z N)%Q ->
  c = N / d.
Proof.
  intros Hd Hlo Hhi Hq.
  assert (HdQ : (0 < inject_Z d)%Q)
    by (change 0%Q with (inject_Z 0); rewrite <- Zlt_Qlt; exact Hd).
  assert (Hup : c * d <= N).
  { rewrite Zle_Qle, inject_Z_mult, <- Hq. nra. }
  assert (Hdown : N < (c + 1) * d).
  { rewrite Zlt_Qlt, inject_Z_mult, inject_Z_plus, <- Hq.
    change (inject_Z 1) with 1%Q. nra. }
  apply Z.div_unique with (N - c * d); lia.
Qed.

Lemma to_Q_1024 :
  Binary64.to_Q (MAX_DIMENSION (R:=Binary64.t))
  = Some (4503599627370496 # 4398046511104)%Q.
Proof. reflexivity. Qed.

(** Binary64, target 1024: the size of the crop canvas against the exact
    quotients. *)
Lemma binary64_box_pixels (w h : Z) :
  0 < w < 2 ^ 32 -> 0 < h < 2 ^ 32 ->
  let b := contentBox (R:=Binary64.t) (ofZ w) (ofZ h) MAX_DIMENSION in
  (h < w ->
   toUnsignedLong (box_w b) = 1024 /\
   1024 * h / w - 1 <= toUnsignedLong (box_h b) <= 1024 * h / w /\
   (toUnsignedLong (box_h b) = 1024 * h / w - 1 -> (1024 * h) mod w = 0)) /\
  (w <= h ->
   toUnsignedLong (box_h b) = 1024 /\
   1024 * w / h - 1 <= toUnsignedLong (box_w b) <= 1024 * w / h /\
   (toUnsignedLong (box_w b) = 1024 * w / h - 1 -> (1024 * w) mod h = 0)).
Proof.
  intros Hw Hh b. subst b.
  destruct (binary64_contentBox_ratio w h Hw Hh) as (bw & bh & Hbw & Hbh & Hratio & Hcw & Hch).
  destruct (long_side_fills_the_square_aux w h Hw Hh) as (Hland & Hport).
  split; intros Hcase.
  - destruct (Hland Hcase) as [Hfull _]. rewrite Hfull in *.
    rewrite to_Q_1024 in Hbw. injection Hbw as <-.
    split; [reflexivity|].
    apply (floor_near_quotient _ _ _ bh); try lia; try tauto.
    rewrite inject_Z_mult. change (inject_Z 1024) with 1024%Q.
    assert (E : ((4503599627370496 # 4398046511104) == 1024)%Q) by reflexivity.
    rewrite E in Hratio. exact Hratio.
  - destruct (Hport Hcase) as [Hfull _]. rewrite Hfull in *.
    rewrite to_Q_1024 in Hbh. injection Hbh as <-.
    split; [reflexivity|].
    apply (floor_near_quotient _ _ _ bw); try lia; try tauto.
    rewrite inject_Z_mult. change (inject_Z 1024) with 1024%Q.
    assert (E : ((4503599627370496 # 4398046511104) == 1024)%Q) by reflexivity.
    rewrite E in Hratio.
    rewrite <- Qabs_opp.
    assert (E2 : (- (1024 * inject_Z w - bw * inject_Z h) == bw * inject_Z h - 1024 * inject_Z w)%Q) by ring.
    rewrite E2. exact Hratio.
Qed.

(** Binary64, target 1024: neither side reaches the limit of the setter, so
    the canvas has the converted sides. *)
Lemma binary64_crop_canvas_bounds (sq : HTMLImageElement) (w h : Z) :
  0 < w < 2 ^ 32 -> 0 < h < 2 ^ 32 ->
  let crop := cropToOriginalAspectRatio_canvas (R:=Binary64.t) sq
                (ofZ w) (ofZ h) MAX_DIMENSION in
  (h < w ->
   canvas_width crop = 1024 /\
   1024 * h / w - 1 <= canvas_height crop <= 1024 * h / w /\
   (canvas_height crop = 1024 * h / w - 1 -> (1024 * h) mod w = 0)) /\
  (w <= h ->
   canvas_height crop = 1024 /\
   1024 * w / h - 1 <= canvas_width crop <= 1024 * w / h /\
   (canvas_width crop = 1024 * w / h - 1 -> (1024 * w) mod h = 0)).
Proof.
  intros Hw Hh crop. subst crop.
  destruct (crop_canvas_dimensions (R:=Binary64.t) sq (ofZ w) (ofZ h) MAX_DIMENSION)
    as [-> ->].
  destruct (binary64_box_pixels w h Hw Hh) as [Hland Hport].
  destruct (Z_lt_le_dec h w) as [Hlt|Hle].
  - destruct (Hland Hlt) as (Hfull & Hb & Hexact).
    assert (1024 * h / w <= 1024) by (apply Z.div_le_upper_bound; lia).
    rewrite !limited_small by lia.
    split; intros Hcase; [now split | lia].
  - destruct (Hport Hle) as (Hfull & Hb & Hexact).
    assert (1024 * w / h <= 1024) by (apply Z.div_le_upper_bound; lia).
    rewrite !limited_small by lia.
    split; intros Hcase; [lia | now split].
Qed.

Lemma binary64_crop_canvas_nonneg (sq : HTMLImageElement) (w h t : Binary64.t) :
  0 <= canvas_width (cropToOriginalAspectRatio_canvas sq w h t) /\
  0 <= canvas_height (cropToOriginalAspectRatio_canvas sq w h t).
Proof.
  destruct (crop_canvas_dimensions sq w h t) as [-> ->].
  cbn [toUnsignedLong Binary64_JSNumber]. unfold Binary64.to_unsigned_long.
  split; apply limited_nonneg; try lia; apply Z.mod_pos_bound; lia.
Qed.

(** Binary64, target 1024: the sides of the crop canvas are the converted
    sides of the content box. *)
Lemma binary64_crop_canvas_converted (sq : HTMLImageElement) (w h : Z) :
  0 < w < 2 ^ 32 -> 0 < h < 2 ^ 32 ->
  let b := contentBox (R:=Binary64.t) (ofZ w) (ofZ h) MAX_DIMENSION in
  let crop := cropToOriginalAspectRatio_canvas (R:=Binary64.t) sq
                (ofZ w) (ofZ h) MAX_DIMENSION in
  canvas_width crop = toUnsignedLong (box_w b) /\
  canvas_height crop = toUnsignedLong (box_h b).
Proof.
  intros Hw Hh b crop. subst b crop.
  destruct (crop_canvas_dimensions (R:=Binary64.t) sq (ofZ w) (ofZ h) MAX_DIMENSION)
    as [-> ->].
  destruct (binary64_box_pixels w h Hw Hh) as [Hland Hport].
  destruct (Z_lt_le_dec h w) as [Hlt|Hle].
  - destruct (Hland Hlt) as (Hfull & Hb & _).
    assert (1024 * h / w <= 1024) by (apply Z.div_le_upper_bound; lia).
    rewrite !limited_small by lia. now split.
  - destruct (Hport Hle) as (Hfull & Hb & _).
    assert (1024 * w / h <= 1024) by (apply Z.div_le_upper_bound; lia).
    rewrite !limited_small by lia. now split.
Qed.

(** Exact arithmetic: the converted sides of the content box. *)
Lemma Q_box_pixels (w h t : Z) :
  0 < w -> 0 < h -> 0 <= t < 2 ^ 32 ->
  let b := contentBox (R:=Q) (ofZ w) (ofZ h) (ofZ t) in
  toUnsignedLong (box_w b) = (if h <? w then t else t * w / h) /\
  toUnsignedLong (box_h b) = (if h <? w then t * h / w else t).
Proof.
  intros Hw Hh Ht b. subst b.
  destruct (Q_contentBox_inside w h t Hw Hh (proj1 Ht))
    as (Hbw & Hbh & _ & _ & _ & _ & Hratio & _).
  assert (Hbig : (inject_Z t < inject_Z (2 ^ 32))%Q) by (rewrite <- Zlt_Qlt; apply Ht).
  destruct (Q_toUnsignedLong_truncates _ (proj1 Hbw) ltac:(lra)) as [Hw1 Hw2].
  destruct (Q_toUnsignedLong_truncates _ (proj1 Hbh) ltac:(lra)) as [Hh1 Hh2].
  cbn [toUnsignedLong Q_JSNumber].
  revert Hratio Hw1 Hw2 Hh1 Hh2. unfold contentBox.
  rewrite (Q_landscape_test_Z w h Hw Hh). cbn [box_w box_h].
  destruct (h <? w); intros Hratio Hw1 Hw2 Hh1 Hh2.
  - split; [apply Q_toUnsignedLong_inject_Z, Ht|].
    apply (floor_exact_quotient _ _ _ _ Hw Hh1 Hh2).
    rewrite inject_Z_mult, <- Hratio. reflexivity.
  - split; [|apply Q_toUnsignedLong_inject_Z, Ht].
    apply (floor_exact_quotient _ _ _ _ Hh Hw1 Hw2).
    rewrite inject_Z_mult, Hratio. reflexivity.
Qed.

(** Exact arithmetic: the size of the crop canvas, for a target the setter
    accepts. *)
Lemma Q_crop_canvas_size (sq : HTMLImageElement) (w h t : Z) :
  0 < w -> 0 < h -> 0 <= t < 2 ^ 31 ->
  let crop := cropToOriginalAspectRatio_canvas (R:=Q) sq (ofZ w) (ofZ h) (ofZ t) in
  canvas_width crop = (if h <? w then t else t * w / h) /\
  canvas_height crop = (if h <? w then t * h / w else t).
Proof.
  intros Hw Hh Ht crop. subst crop.
  destruct (crop_canvas_dimensions (R:=Q) sq (ofZ w) (ofZ h) (ofZ t)) as [-> ->].
  destruct (Q_box_pixels w h t Hw Hh ltac:(lia)) as [-> ->].
  change (2 ^ 31) with 2147483648 in Ht.
  destruct (Z.ltb_spec h w) as [Hlt|Hle].
  - assert (t * h / w <= t) by (apply Z.div_le_upper_bound; nia).
    rewrite !limited_small by lia. now split.
  - assert (t * w / h <= t) by (apply Z.div_le_upper_bound; nia).
    rewrite !limited_small by lia. now split.
Qed.

(** Above [2^31 - 1] the setter puts the default on the long side. *)
Lemma Q_crop_canvas_default (sq : HTMLImageElement) (w h t : Z) :
  0 < w -> 0 < h -> 2 ^ 31 <= t < 2 ^ 32 ->
  let crop := cropToOriginalAspectRatio_canvas (R:=Q) sq (ofZ w) (ofZ h) (ofZ t) in
  if h <? w then canvas_width crop = 300 else canvas_height crop = 150.
Proof.
  intros Hw Hh Ht crop. subst crop.
  destruct (crop_canvas_dimensions (R:=Q) sq (ofZ w) (ofZ h) (ofZ t)) as [Ew Eh].
  destruct (Q_box_pixels w h t Hw Hh ltac:(lia)) as [Pw Ph].
  change (2 ^ 31) with 2147483648 in Ht.
  destruct (h <? w).
  - rewrite Ew, Pw. apply limited_large. lia.
  - rewrite Eh, Ph. apply limited_large. lia.
Qed.

(** Exact arithmetic, for a target the setter accepts: the sides of the
    crop canvas are the converted sides of the content box. *)
Lemma Q_crop_canvas_converted (sq : HTMLImageElement) (w h t : Z) :
  0 < w -> 0 < h -> 0 <= t < 2 ^ 31 ->
  let b := contentBox (R:=Q) (ofZ w) (ofZ h) (ofZ t) in
  let crop := cropToOriginalAspectRatio_canvas (R:=Q) sq (ofZ w) (ofZ h) (ofZ t) in
  canvas_width crop = toUnsignedLong (box_w b) /\
  canvas_height crop = toUnsignedLong (box_h b).
Proof.
  intros Hw Hh Ht b crop. subst b crop.
  destruct (crop_canvas_dimensions (R:=Q) sq (ofZ w) (ofZ h) (ofZ t)) as [-> ->].
  destruct (Q_box_pixels w h t Hw Hh ltac:(lia)) as [Ew Eh].
  change (2 ^ 31) with 2147483648 in Ht.
  rewrite Ew, Eh.
  destruct (Z.ltb_spec h w) as [Hlt|Hle].
  - assert (t * h / w <= t) by (apply Z.div_le_upper_bound; nia).
    rewrite !limited_small by lia. now split.
  - assert (t * w / h <= t) by (apply Z.div_le_upper_bound; nia).
    rewrite !limited_small by lia. now split.
Qed.

(** X11.  The size of the cropped image.  In exact arithmetic, for any
    integer target [t] up to [2^31 - 1], the crop canvas of a [w] by [h]
    original is [t] by [floor (t * h / w)] pixels when [w > h], and
    [floor (t * w / h)] by [t] otherwise; for a target from [2^31] to
    [2^32 - 1] the setter refuses the long side and leaves the default,
    300 for the width and 150 for the height.  In binary64, at target 1024
    and for dimensions below [2^32], the long side is exactly 1024 and the
    short side is that integer quotient, or one pixel less, which can only
    happen when the division leaves no remainder. *)
Theorem crop_canvas_size :
  forall (sq : HTMLImageElement) (w h : Z),
    0 < w < 2 ^ 32 -> 0 < h < 2 ^ 32 ->
    (forall t : Z, 0 <= t < 2 ^ 31 ->
       let crop := cropToOriginalAspectRatio_canvas (R:=Q) sq (ofZ w) (ofZ h) (ofZ t) in
       canvas_width crop = (if h <? w then t else t * w / h) /\
       canvas_height crop = (if h <? w then t * h / w else t)) /\
    (forall t : Z, 2 ^ 31 <= t < 2 ^ 32 ->
       let crop := cropToOriginalAspectRatio_canvas (R:=Q) sq (ofZ w) (ofZ h) (ofZ t) in
       if h <? w then canvas_width crop = 300 else canvas_height crop = 150) /\
    (let crop := cropToOriginalAspectRatio_canvas (R:=Binary64.t) sq
                   (ofZ w) (ofZ h) MAX_DIMENSION in
     (h < w ->
      canvas_width crop = 1024 /\
      1024 * h / w - 1 <= canvas_height crop <= 1024 * h / w /\
      (canvas_height crop = 1024 * h / w - 1 -> (1024 * h) mod w = 0)) /\
     (w <= h ->
      canvas_height crop = 1024 /\
      1024 * w / h - 1 <= canvas_width crop <= 1024 * w / h /\
      (canvas_width crop = 1024 * w / h - 1 -> (1024 * w) mod h = 0))).
Proof.
  intros sq w h Hw Hh. split; [|split].
  - intros t Ht. apply Q_crop_canvas_size; lia.
  - intros t Ht. apply Q_crop_canvas_default; lia.
  - apply binary64_crop_canvas_bounds; assumption.
Qed.

Lemma crop_canvas_size_witness :
  (forall t : Z, 0 <= t < 2 ^ 31 ->
     let crop := cropToOriginalAspectRatio_canvas (R:=Q)
                   {| src := EmptyString; naturalWidth := 1024; naturalHeight := 1024 |}
                   (ofZ 128) (ofZ 93) (ofZ t) in
     canvas_width crop = (if 93 <? 128 then t else t * 128 / 93) /\
     canvas_height crop = (if 93 <? 128 then t * 93 / 128 else t)) /\
  (forall t : Z, 2 ^ 31 <= t < 2 ^ 32 ->
     let crop := cropToOriginalAspectRatio_canvas (R:=Q)
                   {| src := EmptyString; naturalWidth := 1024; naturalHeight := 1024 |}
                   (ofZ 128) (ofZ 93) (ofZ t) in
     if 93 <? 128 then canvas_width crop = 300 else canvas_height crop = 150) /\
  (let crop := cropToOriginalAspectRatio_canvas (R:=Binary64.t)
                 {| src := EmptyString; naturalWidth := 1024; naturalHeight := 1024 |}
                 (ofZ 128) (ofZ 93) MAX_DIMENSION in
   (93 < 128 ->
    canvas_width crop = 1024 /\
    1024 * 93 / 128 - 1 <= canvas_height crop <= 1024 * 93 / 128 /\
    (canvas_height crop = 1024 * 93 / 128 - 1 -> (1024 * 93) mod 128 = 0)) /\
   (128 <= 93 ->
    canvas_height crop = 1024 /\
    1024 * 128 / 93 - 1 <= canvas_width crop <= 1024 * 128 / 93 /\
    (canvas_width crop = 1024 * 128 / 93 - 1 -> (1024 * 128) mod 93 = 0))).
Proof. apply (crop_canvas_size _ 128 93); lia. Defined.

(** Two scalings of [h] by powers of two in the same binade are equal. *)
Lemma binade_unique (h a b : Z) :
  0 < h -> 0 <= a -> 0 <= b ->
  2 ^ 52 <= h * 2 ^ a < 2 ^ 53 -> 2 ^ 52 <= h * 2 ^ b < 2 ^ 53 -> a = b.
Proof.
  intros Hh Ha Hb H1 H2.
  destruct (Z.lt_trichotomy a b) as [Hlt|[Heq|Hlt]]; [exfalso|assumption|exfalso].
  - replace b with (a + (b - a)) in H2 by lia. rewrite Z.pow_add_r in H2 by lia.
    assert (2 ^ 1 <= 2 ^ (b - a)) by (apply Z.pow_le_mono_r; lia).
    change (2 ^ 1) with 2 in *. nia.
  - replace a with (b + (a - b)) in H1 by lia. rewrite Z.pow_add_r in H1 by lia.
    assert (2 ^ 1 <= 2 ^ (a - b)) by (apply Z.pow_le_mono_r; lia).
    change (2 ^ 1) with 2 in *. nia.
Qed.

(** Binary64: a quotient that is a power of two is computed exactly. *)
Lemma SFdiv_power_of_two (w h s : Z) :
  0 < h -> 0 <= s <= 31 -> w = 2 ^ s * h -> w < 2 ^ 32 ->
  SFdiv 53 1024 (Binary64.of_Z w) (Binary64.of_Z h)
    = S754_finite false 4503599627370496 (s - 52) /\
  SFdiv 53 1024 (Binary64.of_Z h) (Binary64.of_Z w)
    = S754_finite false 4503599627370496 (- s - 52).
Proof.
  intros Hh Hs Hw Hw32.
  assert (H2s : 0 < 2 ^ s) by (apply Z.pow_pos_nonneg; lia).
  assert (Hh32 : h < 2 ^ 32) by nia.
  destruct (of_Z_normal w ltac:(nia)) as (mw & ew & HNw & Hew & Emw).
  destruct (of_Z_normal h ltac:(lia)) as (mh & eh & HNh & Heh & Emh).
  pose proof HNw as (_ & Hmw & _). pose proof HNh as (_ & Hmh & _).
  assert (Hexp : s + - ew = - eh).
  { apply (binade_unique h); try lia.
    rewrite Z.pow_add_r by lia. rewrite Emw, Hw in Hmw.
    replace (h * (2 ^ s * 2 ^ (- ew))) with (2 ^ s * h * 2 ^ (- ew)) by ring. exact Hmw. }
  assert (Hm : Zpos mw = Zpos mh).
  { rewrite Emw, Emh, Hw, <- Hexp, Z.pow_add_r by lia. ring. }
  split.
  - destruct (SFdiv_normal _ _ _ _ _ _ HNw HNh ltac:(lia))
      as (m & k & (-> & _) & _ & _ & _ & Heq & _).
    destruct (Heq Hm) as [-> Hm52].
    assert (m = 4503599627370496%positive) as -> by (cbn in Hm52; lia).
    f_equal. lia.
  - destruct (SFdiv_normal _ _ _ _ _ _ HNh HNw ltac:(lia))
      as (m & k & (-> & _) & _ & _ & _ & Heq & _).
    destruct (Heq (eq_sym Hm)) as [-> Hm52].
    assert (m = 4503599627370496%positive) as -> by (cbn in Hm52; lia).
    f_equal. lia.
Qed.

(** Binary64, target 1024: an original exactly 1024 times as wide as high,
    or as high as wide, has a short side of one pixel. *)
Lemma binary64_crop_ratio_1024 (sq : HTMLImageElement) (h : Z) :
  0 < h -> 1024 * h < 2 ^ 32 ->
  canvas_height (cropToOriginalAspectRatio_canvas (R:=Binary64.t) sq
                   (ofZ (1024 * h)) (ofZ h) MAX_DIMENSION) = 1 /\
  canvas_width (cropToOriginalAspectRatio_canvas (R:=Binary64.t) sq
                  (ofZ h) (ofZ (1024 * h)) MAX_DIMENSION) = 1.
Proof.
  intros Hh H32.
  destruct (SFdiv_power_of_two (1024 * h) h 10 Hh ltac:(lia) eq_refl H32) as [Hq Hq'].
  split.
  - destruct (crop_canvas_dimensions (R:=Binary64.t) sq (ofZ (1024 * h)) (ofZ h)
                MAX_DIMENSION) as [_ ->].
    unfold contentBox. cbn [ofZ ndiv ngt nmul nsub toUnsignedLong Binary64_JSNumber].
    unfold Binary64.prec, Binary64.emax. rewrite Hq. reflexivity.
  - destruct (crop_canvas_dimensions (R:=Binary64.t) sq (ofZ h) (ofZ (1024 * h))
                MAX_DIMENSION) as [-> _].
    unfold contentBox. cbn [ofZ ndiv ngt nmul nsub toUnsignedLong Binary64_JSNumber].
    unfold Binary64.prec, Binary64.emax. rewrite Hq'. reflexivity.
Qed.

Lemma binary64_crop_canvas_empty (sq : HTMLImageElement) (w h : Z) :
  0 < w < 2 ^ 32 -> 0 < h < 2 ^ 32 ->
  let crop := cropToOriginalAspectRatio_canvas (R:=Binary64.t) sq
                (ofZ w) (ofZ h) MAX_DIMENSION in
  (1024 * h < w -> canvas_height crop = 0) /\
  (1024 * w < h -> canvas_width crop = 0).
Proof.
  intros Hw Hh crop. subst crop.
  destruct (binary64_crop_canvas_bounds sq w h Hw Hh) as [Hland Hport].
  destruct (binary64_crop_canvas_nonneg sq (ofZ w) (ofZ h) MAX_DIMENSION) as [Hw0 Hh0].
  split.
  - intros Hwide. destruct (Hland ltac:(lia)) as (_ & Hb & _).
    rewrite Z.div_small in Hb by lia. lia.
  - intros Htall. destruct (Hport ltac:(lia)) as (_ & Hb & _).
    rewrite Z.div_small in Hb by lia. lia.
Qed.

(** Binary64, target 1024: the canvas loses a side exactly beyond the ratio
    1024. *)
Lemma binary64_crop_canvas_zero_iff (sq : HTMLImageElement) (w h : Z) :
  0 < w < 2 ^ 32 -> 0 < h < 2 ^ 32 ->
  let crop := cropToOriginalAspectRatio_canvas (R:=Binary64.t) sq
                (ofZ w) (ofZ h) MAX_DIMENSION in
  (canvas_height crop = 0 <-> 1024 * h < w) /\
  (canvas_width crop = 0 <-> 1024 * w < h).
Proof.
  intros Hw Hh crop. subst crop.
  destruct (binary64_crop_canvas_bounds sq w h Hw Hh) as [Hland Hport].
  destruct (binary64_crop_canvas_empty sq w h Hw Hh) as [Hwide Htall].
  split; split; try assumption.
  - intros Hzero.
    destruct (Z_lt_le_dec h w) as [Hlt|Hle]; [|destruct (Hport Hle) as (Hfull & _); lia].
    destruct (Hland Hlt) as (_ & Hb & Hexact).
    destruct (Z_lt_le_dec (1024 * h) w) as [|Hfit]; [assumption|exfalso].
    assert (H1 : 1 <= 1024 * h / w) by (apply Z.div_le_lower_bound; lia).
    assert (HF : 1024 * h / w = 1) by lia.
    specialize (Hexact ltac:(lia)).
    assert (Heq : w = 1024 * h).
    { pose proof (Z.div_mod (1024 * h) w ltac:(lia)) as Hdm.
      rewrite HF, Hexact in Hdm. lia. }
    subst w.
    destruct (binary64_crop_ratio_1024 sq h ltac:(lia) ltac:(lia)) as [Hone _].
    lia.
  - intros Hzero.
    destruct (Z_lt_le_dec h w) as [Hlt|Hle]; [destruct (Hland Hlt) as (Hfull & _); lia|].
    destruct (Hport Hle) as (_ & Hb & Hexact).
    destruct (Z_lt_le_dec (1024 * w) h) as [|Hfit]; [assumption|exfalso].
    assert (H1 : 1 <= 1024 * w / h) by (apply Z.div_le_lower_bound; lia).
    assert (HF : 1024 * w / h = 1) by lia.
    specialize (Hexact ltac:(lia)).
    assert (Heq : h = 1024 * w).
    { pose proof (Z.div_mod (1024 * w) h ltac:(lia)) as Hdm.
      rewrite HF, Hexact in Hdm. lia. }
    subst h.
    destruct (binary64_crop_ratio_1024 sq w ltac:(lia) ltac:(lia)) as [_ Hone].
    lia.
Qed.

(** Binary64, target 1024: the sides of the crop canvas are between 0 and
    1024, and at least 1 up to the ratio 1024. *)
Lemma binary64_crop_canvas_range (sq : HTMLImageElement) (w h : Z) :
  0 < w < 2 ^ 32 -> 0 < h < 2 ^ 32 ->
  let crop := cropToOriginalAspectRatio_canvas (R:=Binary64.t) sq
                (ofZ w) (ofZ h) MAX_DIMENSION in
  (0 <= canvas_width crop <= 1024 /\ 0 <= canvas_height crop <= 1024) /\
  (w <= 1024 * h -> h <= 1024 * w -> 1 <= canvas_width crop /\ 1 <= canvas_height crop).
Proof.
  intros Hw Hh crop. subst crop.
  destruct (binary64_crop_canvas_bounds sq w h Hw Hh) as [Hland Hport].
  destruct (binary64_crop_canvas_nonneg sq (ofZ w) (ofZ h) MAX_DIMENSION) as [Hw0 Hh0].
  destruct (binary64_crop_canvas_zero_iff sq w h Hw Hh) as [Zh Zw].
  split.
  - destruct (Z_lt_le_dec h w) as [Hlt|Hle].
    + destruct (Hland Hlt) as (Hfull & Hb & _).
      assert (1024 * h / w <= 1024) by (apply Z.div_le_upper_bound; lia).
      lia.
    + destruct (Hport Hle) as (Hfull & Hb & _).
      assert (1024 * w / h <= 1024) by (apply Z.div_le_upper_bound; lia).
      lia.
  - intros Hwide Htall.
    assert (canvas_height (cropToOriginalAspectRatio_canvas (R:=Binary64.t) sq
                             (ofZ w) (ofZ h) MAX_DIMENSION) <> 0)
      by (intros E; apply Zh in E; lia).
    assert (canvas_width (cropToOriginalAspectRatio_canvas (R:=Binary64.t) sq
                            (ofZ w) (ofZ h) MAX_DIMENSION) <> 0)
      by (intros E; apply Zw in E; lia).
    lia.
Qed.

(** X12.  The extremes of the crop, in binary64 at target 1024 and for
    dimensions below [2^32].  Neither side of the crop canvas exceeds 1024
    pixels, whatever the size of the original.  The canvas has height 0
    exactly when the original is more than 1024 times as wide as it is
    high, and width 0 exactly when it is more than 1024 times as high as
    wide: the same originals as in exact arithmetic.  At a ratio of exactly
    1024 the short side is one pixel. *)
Theorem crop_canvas_extremes :
  forall (sq : HTMLImageElement) (w h : Z),
    0 < w < 2 ^ 32 -> 0 < h < 2 ^ 32 ->
    let crop := cropToOriginalAspectRatio_canvas (R:=Binary64.t) sq
                  (ofZ w) (ofZ h) MAX_DIMENSION in
    let exact := cropToOriginalAspectRatio_canvas (R:=Q) sq (ofZ w) (ofZ h) (ofZ 1024) in
    (0 <= canvas_width crop <= 1024 /\ 0 <= canvas_height crop <= 1024) /\
    (canvas_height crop = 0 <-> 1024 * h < w) /\
    (canvas_width crop = 0 <-> 1024 * w < h) /\
    (canvas_height exact = 0 <-> 1024 * h < w) /\
    (canvas_width exact = 0 <-> 1024 * w < h).
Proof.
  intros sq w h Hw Hh crop exact. subst crop exact.
  destruct (binary64_crop_canvas_range sq w h Hw Hh) as [Hrange _].
  destruct (binary64_crop_canvas_zero_iff sq w h Hw Hh) as [Zh Zw].
  destruct (Q_crop_canvas_size sq w h 1024 ltac:(lia) ltac:(lia) ltac:(lia)) as [Ew Eh].
  assert (Hwide : forall a b, 0 < a -> 0 < b -> (1024 * a / b = 0 <-> 1024 * a < b)).
  { intros a b Ha Hb. split; intros Hz.
    - apply Z.div_small_iff in Hz; lia.
    - apply Z.div_small. lia. }
  split; [exact Hrange|]. split; [exact Zh|]. split; [exact Zw|]. split.
  - rewrite Eh. destruct (Z.ltb_spec h w) as [Hlt|Hle].
    + apply Hwide; lia.
    + split; intros; lia.
  - rewrite Ew. destruct (Z.ltb_spec h w) as [Hlt|Hle].
    + split; intros; lia.
    + apply Hwide; lia.
Qed.

Lemma crop_canvas_extremes_witness :
  let sq := {| src := EmptyString; naturalWidth := 1024; naturalHeight := 1024 |} in
  let crop := cropToOriginalAspectRatio_canvas (R:=Binary64.t) sq
                (ofZ 3000) (ofZ 2) MAX_DIMENSION in
  let exact := cropToOriginalAspectRatio_canvas (R:=Q) sq (ofZ 3000) (ofZ 2) (ofZ 1024) in
  (0 <= canvas_width crop <= 1024 /\ 0 <= canvas_height crop <= 1024) /\
  (canvas_height crop = 0 <-> 1024 * 2 < 3000) /\
  (canvas_width crop = 0 <-> 1024 * 3000 < 2) /\
  (canvas_height exact = 0 <-> 1024 * 2 < 3000) /\
  (canvas_width exact = 0 <-> 1024 * 3000 < 2).
Proof. apply (crop_canvas_extremes _ 3000 2); lia. Defined.

End Geometry.

(** ** Padding and cropping as the helpers perform them *)

(** C5.  Padding and cropping compute the same content box, the one the
    specification describes: with [aspectRatio = w / h], a landscape input
    ([aspectRatio > 1]) gets width [t] and height [t / aspectRatio], any
    other input height [t] and width [t * aspectRatio], at offsets
    [((t - width) / 2, (t - height) / 2)].  This holds in any arithmetic,
    for all [w], [h] and [t], and it is what the two helpers do with it:
    - whenever [resizeImage] resolves, the file it returns holds the
      encoding of a canvas on which a black square was painted and then the
      image decoded from the input file, into the content box of that
      image's natural size;
    - whenever [cropToOriginalAspectRatio] resolves, the URL it returns is
      the encoding of a canvas onto which the content box of [(w, h, t)]
      was copied, to the origin and at the same size, from the image
      decoded from the URL it was given. *)
Theorem content_box_formula_shared :
  forall (R : Type) (N : JSNumber R),
    (forall w h t : R,
       resizeImage_layout w h t = contentBox w h t /\
       cropToOriginalAspectRatio_layout w h t = contentBox w h t) /\
    (forall (W : World R) (file out : File) (t : R),
       resizeImage W file t = resolve out ->
       exists (url : string) (img : HTMLImageElement) (blob : Blob),
         readAsDataURL W file = ReaderLoad (Some url) /\
         loadImage W url = ImageLoad img /\
         toBlob W (resizeImage_canvas img t) "image/jpeg" (95 # 100)%Q = Some blob /\
         file_bits out = blob_bits blob /\
         painted (resizeImage_canvas img t) =
           [FillRect "black" (square t);
            DrawImage img
              (contentBox (ofZ (img_width img)) (ofZ (img_height img)) t)]) /\
    (forall (W : World R) (imageDataUrl : string) (w h t : R) (final : string),
       cropToOriginalAspectRatio W imageDataUrl w h t = resolve final ->
       exists sq : HTMLImageElement,
         loadImage W imageDataUrl = ImageLoad sq /\
         final = toDataURL W (cropToOriginalAspectRatio_canvas sq w h t)
                   "image/jpeg" (95 # 100)%Q /\
         painted (cropToOriginalAspectRatio_canvas sq w h t) =
           [DrawSubImage sq (contentBox w h t) (atOrigin (contentBox w h t))]).
Proof.
  intros R N. split; [|split].
  - intros w h t. split.
    + apply resizeImage_layout_contentBox.
    + apply cropToOriginalAspectRatio_layout_contentBox.
  - intros W file out t Hres.
    destruct (resizeImage_resolves W file out t Hres)
      as (url & img & blob & Hread & Hload & Hblob & ->).
    exists url, img, blob.
    split; [exact Hread|]. split; [exact Hload|]. split; [exact Hblob|].
    split; [reflexivity|].
    exact (proj1 (content_box_shared_canvases R N img img t t t)).
  - intros W imageDataUrl w h t final Hres.
    destruct (cropToOriginalAspectRatio_resolves W imageDataUrl w h t final Hres)
      as (sq & Hload & ->).
    exists sq. split; [exact Hload|]. split; [reflexivity|].
    exact (proj2 (content_box_shared_canvases R N sq sq w h t)).
Qed.

Lemma content_box_formula_shared_witness :
  (exists (url : string) (img : HTMLImageElement) (blob : Blob),
     readAsDataURL Scenario.happyWorld Scenario.contextFile = ReaderLoad (Some url) /\
     loadImage Scenario.happyWorld url = ImageLoad img /\
     toBlob Scenario.happyWorld (resizeImage_canvas img MAX_DIMENSION)
       "image/jpeg" (95 # 100)%Q = Some blob /\
     file_bits (Scenario.resized Scenario.contextFile) = blob_bits blob /\
     painted (resizeImage_canvas img MAX_DIMENSION) =
       [FillRect "black" (square MAX_DIMENSION);
        DrawImage img
          (contentBox (ofZ (img_width img)) (ofZ (img_height img)) MAX_DIMENSION)]) /\
  (exists sq : HTMLImageElement,
     loadImage Scenario.happyWorld "data:image/png;base64,Q09NUE9TSVRF" = ImageLoad sq /\
     "data:image/jpeg;base64,Q1JPUFBFRA==" =
       toDataURL Scenario.happyWorld
         (cropToOriginalAspectRatio_canvas sq (ofZ 1920) (ofZ 1080) MAX_DIMENSION)
         "image/jpeg" (95 # 100)%Q /\
     painted (cropToOriginalAspectRatio_canvas sq (ofZ 1920) (ofZ 1080) MAX_DIMENSION) =
       [DrawSubImage sq (contentBox (ofZ 1920) (ofZ 1080) MAX_DIMENSION)
          (atOrigin (contentBox (ofZ 1920) (ofZ 1080) MAX_DIMENSION))]).
Proof.
  destruct (content_box_formula_shared Binary64.t _) as (_ & Hpad & Hcrop).
  split.
  - apply (Hpad Scenario.happyWorld Scenario.contextFile
             (Scenario.resized Scenario.contextFile) MAX_DIMENSION).
    reflexivity.
  - apply (Hcrop Scenario.happyWorld "data:image/png;base64,Q09NUE9TSVRF"
             (ofZ 1920) (ofZ 1080) MAX_DIMENSION "data:image/jpeg;base64,Q1JPUFBFRA==").
    reflexivity.
Defined.

(** C6.  A 1920 by 1080 original at a target of 1024, in binary64 as the
    code computes it.  The content box is exactly 1024 by 576 at offset
    (0, 224), for the padding and for the crop, and in exact arithmetic
    too.  [resizeImage] on a file that decodes to a 1920 by 1080 image
    encodes a 1024 by 1024 canvas on which that image was painted into
    that box, over black.  [cropToOriginalAspectRatio] resolves with the
    encoding of a 1024 by 576 canvas whose single [drawImage] copies
    exactly that box of the decoded square to the origin, at the same
    size. *)
Theorem landscape_1920x1080_crop :
  forall (W : World Binary64.t) (file : File) (url imageDataUrl : string)
         (img sq : HTMLImageElement),
    readAsDataURL W file = ReaderLoad (Some url) ->
    truthy url = true ->
    loadImage W url = ImageLoad img ->
    naturalWidth img = 1920%Z -> naturalHeight img = 1080%Z ->
    loadImage W imageDataUrl = ImageLoad sq ->
    (forall c : Canvas Binary64.t, getContext2d W c = true) ->
    let q := cropToOriginalAspectRatio_layout (R:=Q) (ofZ 1920) (ofZ 1080) (ofZ 1024) in
    cropToOriginalAspectRatio_layout (R:=Binary64.t) (ofZ 1920) (ofZ 1080) (ofZ 1024)
      = Scenario.landscapeBox /\
    resizeImage_layout (R:=Binary64.t) (ofZ 1920) (ofZ 1080) (ofZ 1024)
      = Scenario.landscapeBox /\
    (box_x q == 0 /\ box_y q == 224 /\ box_w q == 1024 /\ box_h q == 576)%Q /\
    resizeImage W file (ofZ 1024) =
      match
        toBlob W
          {| canvas_width := 1024; canvas_height := 1024;
             painted := [FillRect "black" (square (ofZ 1024));
                         DrawImage img Scenario.landscapeBox] |}
          "image/jpeg" (95 # 100)%Q
      with
      | Some blob =>
          resolve {| file_bits := blob_bits blob; file_name := file_name file;
                     file_type := "image/jpeg"; lastModified := date_now W |}
      | None => reject (Error "Canvas to Blob conversion failed.")
      end /\
    cropToOriginalAspectRatio W imageDataUrl (ofZ 1920) (ofZ 1080) (ofZ 1024) =
      resolve
        (toDataURL W
           {| canvas_width := 1024; canvas_height := 576;
              painted := [DrawSubImage sq Scenario.landscapeBox
                            (atOrigin Scenario.landscapeBox)] |}
           "image/jpeg" (95 # 100)%Q).
Proof.
  intros W file url imageDataUrl img sq Hread Htruthy Himg Hw Hh Hsq Hctx q. subst q.
  split; [vm_compute; reflexivity|].
  split; [vm_compute; reflexivity|].
  split; [repeat split; vm_compute; reflexivity|].
  split.
  - unfold resizeImage. rewrite Hread, Htruthy, Himg, Hctx.
    destruct img as [s iw ih]. cbn [naturalWidth naturalHeight] in Hw, Hh. subst iw ih.
    assert (Hpad : resizeImage_canvas (R:=Binary64.t)
                     {| src := s; naturalWidth := 1920; naturalHeight := 1080 |} (ofZ 1024)
                   = {| canvas_width := 1024; canvas_height := 1024;
                        painted := [FillRect "black" (square (ofZ 1024));
                                    DrawImage
                                      {| src := s; naturalWidth := 1920;
                                         naturalHeight := 1080 |}
                                      Scenario.landscapeBox] |})
      by (vm_compute; reflexivity).
    rewrite Hpad. reflexivity.
  - unfold cropToOriginalAspectRatio. rewrite Hsq, Hctx.
    assert (Hcrop : cropToOriginalAspectRatio_canvas (R:=Binary64.t) sq
                      (ofZ 1920) (ofZ 1080) (ofZ 1024)
                    = {| canvas_width := 1024; canvas_height := 576;
                         painted := [DrawSubImage sq Scenario.landscapeBox
                                       (atOrigin Scenario.landscapeBox)] |})
      by (vm_compute; reflexivity).
    rewrite Hcrop. reflexivity.
Qed.

Lemma landscape_1920x1080_crop_witness :
  let img := {| src := "data:image/jpeg;base64,Uk9PTQ==";
                naturalWidth := 1920; naturalHeight := 1080 |} in
  let sq := {| src := "data:image/png;base64,Q09NUE9TSVRF";
               naturalWidth := 1920; naturalHeight := 1080 |} in
  let q := cropToOriginalAspectRatio_layout (R:=Q) (ofZ 1920) (ofZ 1080) (ofZ 1024) in
  cropToOriginalAspectRatio_layout (R:=Binary64.t) (ofZ 1920) (ofZ 1080) (ofZ 1024)
    = Scenario.landscapeBox /\
  resizeImage_layout (R:=Binary64.t) (ofZ 1920) (ofZ 1080) (ofZ 1024)
    = Scenario.landscapeBox /\
  (box_x q == 0 /\ box_y q == 224 /\ box_w q == 1024 /\ box_h q == 576)%Q /\
  resizeImage Scenario.happyWorld Scenario.contextFile (ofZ 1024) =
    match
      toBlob Scenario.happyWorld
        {| canvas_width := 1024; canvas_height := 1024;
           painted := [FillRect "black" (square (ofZ 1024));
                       DrawImage img Scenario.landscapeBox] |}
        "image/jpeg" (95 # 100)%Q
    with
    | Some blob =>
        resolve {| file_bits := blob_bits blob;
                   file_name := file_name Scenario.contextFile;
                   file_type := "image/jpeg";
                   lastModified := date_now Scenario.happyWorld |}
    | None => reject (Error "Canvas to Blob conversion failed.")
    end /\
  cropToOriginalAspectRatio Scenario.happyWorld "data:image/png;base64,Q09NUE9TSVRF"
    (ofZ 1920) (ofZ 1080) (ofZ 1024) =
    resolve
      (toDataURL Scenario.happyWorld
         {| canvas_width := 1024; canvas_height := 576;
            painted := [DrawSubImage sq Scenario.landscapeBox
                          (atOrigin Scenario.landscapeBox)] |}
         "image/jpeg" (95 # 100)%Q).
Proof.
  apply (landscape_1920x1080_crop Scenario.happyWorld Scenario.contextFile
           "data:image/jpeg;base64,Uk9PTQ==" "data:image/png;base64,Q09NUE9TSVRF").
  - reflexivity.
  - reflexivity.
  - reflexivity.
  - reflexivity.
  - reflexivity.
  - reflexivity.
  - intros c. reflexivity.
Defined.

(** C7.  Whenever [resizeImage] resolves, the input file was read and
    decoded to an image, and the file returned is the JPEG encoding of a
    square canvas, black with that image painted into a box; for an image
    of positive width and height, of any shape, neither side of that box
    exceeds the target.
    - In binary64, as the code computes, at the target the orchestrator
      uses: the canvas is exactly 1024 by 1024 and the box's width and
      height are at most 1024, for all natural dimensions below [2^32].
    - In exact arithmetic, for any integer target [0 <= t < 2^31], the
      values a canvas accepts as a size: the canvas is exactly [t] by [t]
      and the box lies inside the square. *)
Theorem padToSquare_square_output :
  (forall (W : World Binary64.t) (file out : File),
     resizeImage W file MAX_DIMENSION = resolve out ->
     exists (url : string) (img : HTMLImageElement) (blob : Blob),
       let c := resizeImage_canvas img MAX_DIMENSION in
       readAsDataURL W file = ReaderLoad (Some url) /\
       loadImage W url = ImageLoad img /\
       toBlob W c "image/jpeg" (95 # 100)%Q = Some blob /\
       file_bits out = blob_bits blob /\ file_type out = "image/jpeg" /\
       canvas_width c = 1024%Z /\ canvas_height c = 1024%Z /\
       ((0 < img_width img < 2 ^ 32)%Z -> (0 < img_height img < 2 ^ 32)%Z ->
        exists b,
          painted c = [FillRect "black" (square MAX_DIMENSION); DrawImage img b] /\
          SFleb (box_w b) MAX_DIMENSION = true /\
          SFleb (box_h b) MAX_DIMENSION = true)) /\
  (forall (W : World Q) (file out : File) (t : Z),
     (0 <= t < 2 ^ 31)%Z ->
     resizeImage W file (ofZ t) = resolve out ->
     exists (url : string) (img : HTMLImageElement) (blob : Blob),
       let c := resizeImage_canvas img (ofZ t) in
       readAsDataURL W file = ReaderLoad (Some url) /\
       loadImage W url = ImageLoad img /\
       toBlob W c "image/jpeg" (95 # 100)%Q = Some blob /\
       file_bits out = blob_bits blob /\ file_type out = "image/jpeg" /\
       canvas_width c = t /\ canvas_height c = t /\
       ((0 < img_width img)%Z -> (0 < img_height img)%Z ->
        exists b,
          painted c = [FillRect "black" (square (ofZ t)); DrawImage img b] /\
          (0 <= box_w b <= inject_Z t)%Q /\ (0 <= box_h b <= inject_Z t)%Q /\
          (0 <= box_x b)%Q /\ (0 <= box_y b)%Q /\
          (box_x b + box_w b <= inject_Z t)%Q /\
          (box_y b + box_h b <= inject_Z t)%Q)).
Proof.
  split.
  - intros W file out Hres.
    destruct (resizeImage_resolves W file out _ Hres)
      as (url & img & blob & Hread & Hload & Hblob & ->).
    exists url, img, blob. cbn zeta.
    split; [exact Hread|]. split; [exact Hload|]. split; [exact Hblob|].
    split; [reflexivity|]. split; [reflexivity|].
    split; [reflexivity|]. split; [reflexivity|].
    intros Hw Hh.
    exists (resizeImage_layout (ofZ (img_width img)) (ofZ (img_height img)) MAX_DIMENSION).
    split; [reflexivity|].
    apply binary64_layout_within_square; assumption.
  - intros W file out t Ht Hres.
    destruct (resizeImage_resolves W file out _ Hres)
      as (url & img & blob & Hread & Hload & Hblob & ->).
    exists url, img, blob. cbn zeta.
    split; [exact Hread|]. split; [exact Hload|]. split; [exact Hblob|].
    split; [reflexivity|]. split; [reflexivity|].
    assert (Ht32 : (0 <= t < 2 ^ 32)%Z) by (change (2 ^ 31)%Z with 2147483648%Z in Ht;
                                            change (2 ^ 32)%Z with 4294967296%Z; lia).
    assert (Hconv : toUnsignedLong (ofZ (R:=Q) t) = t)
      by (apply Q_toUnsignedLong_inject_Z, Ht32).
    destruct (resizeImage_canvas_dimensions (R:=Q) img (ofZ t)) as [Ew Eh].
    change (2 ^ 31)%Z with 2147483648%Z in Ht.
    split; [rewrite Ew, Hconv; apply limited_small; lia|].
    split; [rewrite Eh, Hconv; apply limited_small; lia|].
    intros Hw Hh.
    exists (contentBox (ofZ (img_width img)) (ofZ (img_height img)) (ofZ t)).
    split; [exact (proj1 (content_box_shared_canvases Q _ img img (ofZ t) (ofZ t) (ofZ t)))|].
    destruct (Q_contentBox_inside (img_width img) (img_height img) t Hw Hh (proj1 Ht))
      as (Hbw & Hbh & Hx & Hy & Hcx & Hcy & _).
    repeat split; try tauto; lra.
Qed.

Lemma padToSquare_square_output_witness :
  (exists (url : string) (img : HTMLImageElement) (blob : Blob),
     let W : World Binary64.t :=
       Scenario.browser 10 1 (Scenario.described EmptyString) (Scenario.composed []) in
     let c := resizeImage_canvas (R:=Binary64.t) img MAX_DIMENSION in
     readAsDataURL W Scenario.contextFile = ReaderLoad (Some url) /\
     loadImage W url = ImageLoad img /\
     toBlob W c "image/jpeg" (95 # 100)%Q = Some blob /\
     file_bits (Scenario.resized Scenario.contextFile) = blob_bits blob /\
     file_type (Scenario.resized Scenario.contextFile) = "image/jpeg" /\
     canvas_width c = 1024%Z /\ canvas_height c = 1024%Z /\
     ((0 < img_width img < 2 ^ 32)%Z -> (0 < img_height img < 2 ^ 32)%Z ->
      exists b,
        painted c = [FillRect "black" (square MAX_DIMENSION); DrawImage img b] /\
        SFleb (box_w b) MAX_DIMENSION = true /\
        SFleb (box_h b) MAX_DIMENSION = true)) /\
  (exists (url : string) (img : HTMLImageElement) (blob : Blob),
     let W : World Q :=
       Scenario.browser 1 10 (Scenario.described EmptyString) (Scenario.composed []) in
     let c := resizeImage_canvas (R:=Q) img (ofZ 1024) in
     readAsDataURL W Scenario.contextFile = ReaderLoad (Some url) /\
     loadImage W url = ImageLoad img /\
     toBlob W c "image/jpeg" (95 # 100)%Q = Some blob /\
     file_bits (Scenario.resized Scenario.contextFile) = blob_bits blob /\
     file_type (Scenario.resized Scenario.contextFile) = "image/jpeg" /\
     canvas_width c = 1024%Z /\ canvas_height c = 1024%Z /\
     ((0 < img_width img)%Z -> (0 < img_height img)%Z ->
      exists b,
        painted c = [FillRect "black" (square (ofZ 1024)); DrawImage img b] /\
        (0 <= box_w b <= inject_Z 1024)%Q /\ (0 <= box_h b <= inject_Z 1024)%Q /\
        (0 <= box_x b)%Q /\ (0 <= box_y b)%Q /\
        (box_x b + box_w b <= inject_Z 1024)%Q /\
        (box_y b + box_h b <= inject_Z 1024)%Q)).
Proof.
  split.
  - apply (proj1 padToSquare_square_output
             (Scenario.browser 10 1 (Scenario.described EmptyString) (Scenario.composed []))
             Scenario.contextFile (Scenario.resized Scenario.contextFile)).
    reflexivity.
  - apply (proj2 padToSquare_square_output
             (Scenario.browser 1 10 (Scenario.described EmptyString) (Scenario.composed []))
             Scenario.contextFile (Scenario.resized Scenario.contextFile) 1024%Z).
    + split; [discriminate | reflexivity].
    + reflexivity.
Defined.

(** C4, on the code.  The crop of a padded image need not have the shape
    of the original.  For a 3000 by 2 original at target 1024 the crop
    canvas is 1024 by 0, in binary64 and in exact arithmetic: it has no
    pixels and no aspect ratio, and in a browser that encodes such a canvas
    as ["data:,"] that is what [cropToOriginalAspectRatio] resolves with,
    after a measurement and a padding that both succeeded.  For a 700 by 1
    original the crop canvas is 1024 by 1. *)
Lemma crop_of_a_panorama_has_no_pixels :
  getImageDimensions Session.panoramaWorld Scenario.contextFile
    = resolve {| width := 3000; height := 2 |} /\
  resizeImage Session.panoramaWorld Scenario.contextFile MAX_DIMENSION
    = resolve (Scenario.resized Scenario.contextFile) /\
  cropToOriginalAspectRatio Session.panoramaWorld "data:image/png;base64,Q09NUE9TSVRF"
    (ofZ 3000) (ofZ 2) MAX_DIMENSION = resolve "data:," /\
  (forall sq : HTMLImageElement,
     let crop := cropToOriginalAspectRatio_canvas (R:=Binary64.t) sq
                   (ofZ 3000) (ofZ 2) MAX_DIMENSION in
     let exact := cropToOriginalAspectRatio_canvas (R:=Q) sq
                    (ofZ 3000) (ofZ 2) (ofZ 1024) in
     canvas_width crop = 1024%Z /\ canvas_height crop = 0%Z /\
     canvas_width exact = 1024%Z /\ canvas_height exact = 0%Z) /\
  (forall sq : HTMLImageElement,
     let crop := cropToOriginalAspectRatio_canvas (R:=Binary64.t) sq
                   (ofZ 700) (ofZ 1) MAX_DIMENSION in
     let exact := cropToOriginalAspectRatio_canvas (R:=Q) sq
                    (ofZ 700) (ofZ 1) (ofZ 1024) in
     canvas_width crop = 1024%Z /\ canvas_height crop = 1%Z /\
     canvas_width exact = 1024%Z /\ canvas_height exact = 1%Z).
Proof.
  split; [reflexivity|].
  split; [vm_compute; reflexivity|].
  split; [vm_compute; reflexivity|].
  split; intros sq crop exact; subst crop exact; repeat split; vm_compute; reflexivity.
Qed.

(** C4, amended.  Cropping reads back the box the padding painted, and
    what it returns has the shape of the original up to the truncation of
    each side to whole pixels.
    - In any arithmetic: when the measurement of a file, its padding to
      [t] and a crop with the measured size and the same [t] all resolve,
      the padded file encodes a canvas with the decoded image painted into
      the content box of the measured size, and the crop returns the
      encoding of a canvas onto which that same box was copied, at scale 1,
      from the image it decoded; the sides of that canvas are the sides of
      the box, converted to pixel counts by the canvas setters.
    - In binary64, as the code computes, at target 1024 and for dimensions
      below [2^32]: the box has the ratio [w : h] to within 1/256 of a
      pixel ([width * h] and [height * w] differ by at most 1/256), the
      conversion drops less than one pixel from each side, the long side of
      the canvas is exactly 1024 and the short side is
      [floor (1024 * short / long)] or one less.  Up to a ratio of 1024
      both sides are between 1 and 1024 pixels; beyond it the short side
      is 0 and the canvas has no pixels.
    - In exact arithmetic, for an integer target [0 <= t < 2^31]: the box
      has the ratio [w : h] exactly, the conversion drops less than one
      pixel from each side, both sides are at least one pixel when neither
      side of the original is more than [t] times the other, and the short
      side is 0 otherwise. *)
Theorem crop_inverts_pad :
  (forall (R : Type) (N : JSNumber R) (W : World R) (file out : File)
          (dims : Dimensions) (imageDataUrl final : string) (t : R),
     getImageDimensions W file = resolve dims ->
     resizeImage W file t = resolve out ->
     cropToOriginalAspectRatio W imageDataUrl (ofZ (width dims)) (ofZ (height dims)) t
       = resolve final ->
     exists (url : string) (img sq : HTMLImageElement) (blob : Blob),
       let b : Box R := contentBox (ofZ (width dims)) (ofZ (height dims)) t in
       let crop := cropToOriginalAspectRatio_canvas sq
                     (ofZ (width dims)) (ofZ (height dims)) t in
       readAsDataURL W file = ReaderLoad (Some url) /\
       loadImage W url = ImageLoad img /\
       toBlob W (resizeImage_canvas img t) "image/jpeg" (95 # 100)%Q = Some blob /\
       file_bits out = blob_bits blob /\
       painted (resizeImage_canvas img t) =
         [FillRect "black" (square t); DrawImage img b] /\
       loadImage W imageDataUrl = ImageLoad sq /\
       final = toDataURL W crop "image/jpeg" (95 # 100)%Q /\
       painted crop = [DrawSubImage sq b (atOrigin b)] /\
       canvas_width crop = limited 300 (toUnsignedLong (box_w b)) /\
       canvas_height crop = limited 150 (toUnsignedLong (box_h b))) /\
  (forall (sq : HTMLImageElement) (w h : Z),
     (0 < w < 2 ^ 32)%Z -> (0 < h < 2 ^ 32)%Z ->
     let b : Box Binary64.t := contentBox (ofZ w) (ofZ h) MAX_DIMENSION in
     let crop := cropToOriginalAspectRatio_canvas (R:=Binary64.t) sq
                   (ofZ w) (ofZ h) MAX_DIMENSION in
     (exists bw bh : Q,
        Binary64.to_Q (box_w b) = Some bw /\ Binary64.to_Q (box_h b) = Some bh /\
        (Qabs (bw * inject_Z h - bh * inject_Z w) <= 1 # 256)%Q /\
        (inject_Z (canvas_width crop) <= bw < inject_Z (canvas_width crop) + 1)%Q /\
        (inject_Z (canvas_height crop) <= bh < inject_Z (canvas_height crop) + 1)%Q) /\
     ((h < w)%Z ->
      canvas_width crop = 1024%Z /\
      (1024 * h / w - 1 <= canvas_height crop <= 1024 * h / w)%Z) /\
     ((w <= h)%Z ->
      canvas_height crop = 1024%Z /\
      (1024 * w / h - 1 <= canvas_width crop <= 1024 * w / h)%Z) /\
     ((w <= 1024 * h)%Z -> (h <= 1024 * w)%Z ->
      (1 <= canvas_width crop <= 1024)%Z /\ (1 <= canvas_height crop <= 1024)%Z) /\
     ((1024 * h < w)%Z -> canvas_height crop = 0%Z) /\
     ((1024 * w < h)%Z -> canvas_width crop = 0%Z)) /\
  (forall (sq : HTMLImageElement) (w h t : Z),
     (0 < w)%Z -> (0 < h)%Z -> (0 <= t < 2 ^ 31)%Z ->
     let b : Box Q := contentBox (ofZ w) (ofZ h) (ofZ t) in
     let crop := cropToOriginalAspectRatio_canvas (R:=Q) sq (ofZ w) (ofZ h) (ofZ t) in
     (box_w b * inject_Z h == box_h b * inject_Z w)%Q /\
     (inject_Z (canvas_width crop) <= box_w b < inject_Z (canvas_width crop) + 1)%Q /\
     (inject_Z (canvas_height crop) <= box_h b < inject_Z (canvas_height crop) + 1)%Q /\
     ((w <= t * h)%Z -> (h <= t * w)%Z ->
      (1 <= canvas_width crop)%Z /\ (1 <= canvas_height crop)%Z) /\
     ((t * h < w)%Z -> canvas_height crop = 0%Z) /\
     ((t * w < h)%Z -> canvas_width crop = 0%Z)).
Proof.
  split; [|split].
  - intros R N W file out dims imageDataUrl final t Hdims Hpad Hcrop.
    destruct (getImageDimensions_resolves W file dims Hdims)
      as (url' & img' & Hread' & Hload' & ->).
    destruct (resizeImage_resolves W file out t Hpad)
      as (url & img & blob & Hread & Hload & Hblob & ->).
    rewrite Hread in Hread'. injection Hread' as <-.
    rewrite Hload in Hload'. injection Hload' as <-.
    destruct (cropToOriginalAspectRatio_resolves W imageDataUrl _ _ t final Hcrop)
      as (sq & Hsq & ->).
    exists url, img, sq, blob. cbn zeta. cbn [width height].
    split; [exact Hread|]. split; [exact Hload|]. split; [exact Hblob|].
    split; [reflexivity|].
    split; [exact (proj1 (content_box_shared_canvases R N img img t t t))|].
    split; [exact Hsq|]. split; [reflexivity|].
    split; [exact (proj2 (content_box_shared_canvases R N sq sq
                            (ofZ (naturalWidth img)) (ofZ (naturalHeight img)) t))|].
    apply crop_canvas_dimensions.
  - intros sq w h Hw Hh b crop. subst b crop.
    destruct (binary64_crop_canvas_bounds sq w h Hw Hh) as [Hland Hport].
    destruct (binary64_crop_canvas_range sq w h Hw Hh) as [Hrange Hfull].
    destruct (binary64_crop_canvas_empty sq w h Hw Hh) as [Hwide Htall].
    split.
    { destruct (binary64_crop_canvas_converted sq w h Hw Hh) as [-> ->].
      apply binary64_contentBox_ratio; lia. }
    split; [intros Hlt; destruct (Hland Hlt) as (E & Hb & _); now split|].
    split; [intros Hle; destruct (Hport Hle) as (E & Hb & _); now split|].
    split; [|split; assumption].
    intros Hr1 Hr2. destruct (Hfull Hr1 Hr2). lia.
  - intros sq w h t Hw Hh Ht b crop. subst b crop.
    assert (Ht32 : (0 <= t < 2 ^ 32)%Z) by (change (2 ^ 31)%Z with 2147483648%Z in Ht;
                                            change (2 ^ 32)%Z with 4294967296%Z; lia).
    destruct (Q_crop_canvas_size sq w h t Hw Hh Ht) as [Sw Sh].
    destruct (Q_crop_canvas_converted sq w h t Hw Hh Ht) as [Ew Eh].
    rewrite Ew, Eh.
    destruct (Q_contentBox_inside w h t Hw Hh (proj1 Ht))
      as (Hbw & Hbh & _ & _ & _ & _ & Hratio & _).
    assert (Hbig : (inject_Z t < inject_Z (2 ^ 32))%Q) by (rewrite <- Zlt_Qlt; apply Ht32).
    assert (Hcw := Q_toUnsignedLong_truncates
                     (box_w (contentBox (R:=Q) (ofZ w) (ofZ h) (ofZ t)))
                     (proj1 Hbw) ltac:(lra)).
    assert (Hch := Q_toUnsignedLong_truncates
                     (box_h (contentBox (R:=Q) (ofZ w) (ofZ h) (ofZ t)))
                     (proj1 Hbh) ltac:(lra)).
    split; [exact Hratio|]. split; [exact Hcw|]. split; [exact Hch|].
    rewrite <- Ew, <- Eh, Sw, Sh.
    split; [|split].
    + intros Hwide Htall.
      destruct (Z.ltb_spec h w) as [Hlt|Hle].
      * split; [nia|apply Z.div_le_lower_bound; lia].
      * split; [apply Z.div_le_lower_bound; lia|nia].
    + intros Hwide. destruct (Z.ltb_spec h w) as [Hlt|Hle]; [|nia].
      apply Z.div_small. nia.
    + intros Htall. destruct (Z.ltb_spec h w) as [Hlt|Hle]; [nia|].
      apply Z.div_small. nia.
Qed.

Lemma crop_inverts_pad_witness :
  (exists (url : string) (img sq : HTMLImageElement) (blob : Blob),
     let W := Scenario.happyWorld in
     let b : Box Binary64.t := contentBox (ofZ 1920) (ofZ 1080) MAX_DIMENSION in
     let crop := cropToOriginalAspectRatio_canvas sq (ofZ 1920) (ofZ 1080) MAX_DIMENSION in
     readAsDataURL W Scenario.contextFile = ReaderLoad (Some url) /\
     loadImage W url = ImageLoad img /\
     toBlob W (resizeImage_canvas img MAX_DIMENSION) "image/jpeg" (95 # 100)%Q
       = Some blob /\
     file_bits (Scenario.resized Scenario.contextFile) = blob_bits blob /\
     painted (resizeImage_canvas img MAX_DIMENSION) =
       [FillRect "black" (square MAX_DIMENSION); DrawImage img b] /\
     loadImage W "data:image/png;base64,Q09NUE9TSVRF" = ImageLoad sq /\
     "data:image/jpeg;base64,Q1JPUFBFRA==" = toDataURL W crop "image/jpeg" (95 # 100)%Q /\
     painted crop = [DrawSubImage sq b (atOrigin b)] /\
     canvas_width crop = limited 300 (toUnsignedLong (box_w b)) /\
     canvas_height crop = limited 150 (toUnsignedLong (box_h b))) /\
  (let sq := {| src := "data:image/png;base64,Q09NUE9TSVRF";
                naturalWidth := 1024; naturalHeight := 1024 |} in
   let b : Box Binary64.t := contentBox (ofZ 3) (ofZ 2) MAX_DIMENSION in
   let crop := cropToOriginalAspectRatio_canvas (R:=Binary64.t) sq
                 (ofZ 3) (ofZ 2) MAX_DIMENSION in
   (exists bw bh : Q,
      Binary64.to_Q (box_w b) = Some bw /\ Binary64.to_Q (box_h b) = Some bh /\
      (Qabs (bw * inject_Z 2 - bh * inject_Z 3) <= 1 # 256)%Q /\
      (inject_Z (canvas_width crop) <= bw < inject_Z (canvas_width crop) + 1)%Q /\
      (inject_Z (canvas_height crop) <= bh < inject_Z (canvas_height crop) + 1)%Q) /\
   ((2 < 3)%Z ->
    canvas_width crop = 1024%Z /\
    (1024 * 2 / 3 - 1 <= canvas_height crop <= 1024 * 2 / 3)%Z) /\
   ((3 <= 2)%Z ->
    canvas_height crop = 1024%Z /\
    (1024 * 3 / 2 - 1 <= canvas_width crop <= 1024 * 3 / 2)%Z) /\
   ((3 <= 1024 * 2)%Z -> (2 <= 1024 * 3)%Z ->
    (1 <= canvas_width crop <= 1024)%Z /\ (1 <= canvas_height crop <= 1024)%Z) /\
   ((1024 * 2 < 3)%Z -> canvas_height crop = 0%Z) /\
   ((1024 * 3 < 2)%Z -> canvas_width crop = 0%Z)) /\
  (let sq := {| src := "data:image/png;base64,Q09NUE9TSVRF";
                naturalWidth := 1024; naturalHeight := 1024 |} in
   let b : Box Q := contentBox (ofZ 3) (ofZ 2) (ofZ 1024) in
   let crop := cropToOriginalAspectRatio_canvas (R:=Q) sq (ofZ 3) (ofZ 2) (ofZ 1024) in
   (box_w b * inject_Z 2 == box_h b * inject_Z 3)%Q /\
   (inject_Z (canvas_width crop) <= box_w b < inject_Z (canvas_width crop) + 1)%Q /\
   (inject_Z (canvas_height crop) <= box_h b < inject_Z (canvas_height crop) + 1)%Q /\
   ((3 <= 1024 * 2)%Z -> (2 <= 1024 * 3)%Z ->
    (1 <= canvas_width crop)%Z /\ (1 <= canvas_height crop)%Z) /\
   ((1024 * 2 < 3)%Z -> canvas_height crop = 0%Z) /\
   ((1024 * 3 < 2)%Z -> canvas_width crop = 0%Z)).
Proof.
  destruct crop_inverts_pad as (Hany & Hbinary64 & Hexact).
  split; [|split].
  - apply (Hany Binary64.t _ Scenario.happyWorld Scenario.contextFile
             (Scenario.resized Scenario.contextFile)
             {| width := 1920; height := 1080 |}
             "data:image/png;base64,Q09NUE9TSVRF"
             "data:image/jpeg;base64,Q1JPUFBFRA==" MAX_DIMENSION).
    + reflexivity.
    + reflexivity.
    + reflexivity.
  - intros sq. apply (Hbinary64 sq 3 2)%Z.
    + split; reflexivity.
    + split; reflexivity.
  - intros sq. apply (Hexact sq 3 2 1024)%Z.
    + reflexivity.
    + reflexivity.
    + split; [discriminate | reflexivity].
Defined.

(** ** Binary64 on the shapes the geometry is exercised on *)

(** A 1 by 1, a 10 by 1 and a 1 by 10 image padded to 1024: the canvas is
    1024 by 1024 and neither side of the painted box exceeds 1024. *)
Lemma binary64_padding_boundary_shapes :
  forall (s : string) (w h : Z),
    In (w, h) [(1, 1); (10, 1); (1, 10)]%Z ->
    let img := {| src := s; naturalWidth := w; naturalHeight := h |} in
    let c := resizeImage_canvas (R:=Binary64.t) img MAX_DIMENSION in
    let b := resizeImage_layout (R:=Binary64.t) (ofZ w) (ofZ h) MAX_DIMENSION in
    canvas_width c = 1024%Z /\ canvas_height c = 1024%Z /\
    SFleb (box_w b) MAX_DIMENSION = true /\ SFleb (box_h b) MAX_DIMENSION = true /\
    SFleb (ofZ 0) (box_x b) = true /\ SFleb (ofZ 0) (box_y b) = true.
Proof.
  intros s w h Hin img c b. subst img c b. cbn [In] in Hin.
  destruct Hin as [E|[E|[E|[]]]]; injection E as <- <-;
    repeat split; vm_compute; reflexivity.
Qed.

(** Where binary64 and exact arithmetic part by a pixel: for a 128 by 93
    original the exact box is 744 high, binary64 computes a height just
    below 744, and the crop canvas gets 743 rows. *)
Lemma binary64_crop_128x93 :
  forall sq : HTMLImageElement,
    canvas_height
      (cropToOriginalAspectRatio_canvas (R:=Q) sq (ofZ 128) (ofZ 93) (ofZ 1024)) = 744%Z /\
    canvas_height
      (cropToOriginalAspectRatio_canvas (R:=Binary64.t) sq (ofZ 128) (ofZ 93) (ofZ 1024))
      = 743%Z /\
    Binary64.to_Q
      (box_h (cropToOriginalAspectRatio_layout (R:=Binary64.t) (ofZ 128) (ofZ 93) (ofZ 1024)))
      = Some (6544293208522751 # 8796093022208)%Q.
Proof. intros sq. repeat split; vm_compute; reflexivity. Qed.

(** ** Every invocation follows one of the paths *)

Lemma run_Run {R} `{JSNumber R} (W : World R)
    (designImage : File) (designDescription : string)
    (contextImage : File) (contextDescription : string) res tr :
  run W designImage designDescription contextImage contextDescription = (res, tr) ->
  Run W designImage contextImage res tr.
Proof.
  intros Hrun.
  unfold run, generateCompositeImage, bind, await, try_catch, ret, throw,
    resolve, reject in Hrun.
  cbn beta iota zeta in Hrun.
  repeat settle_stage Hrun.
  all: injection Hrun as <- <-.
  all: cbn [app].
  all: econstructor; eassumption.
Qed.

Lemma run_paths {R} `{JSNumber R} (W : World R)
    (designImage : File) (designDescription : string)
    (contextImage : File) (contextDescription : string) :
  Run W designImage contextImage
    (fst (run W designImage designDescription contextImage contextDescription))
    (snd (run W designImage designDescription contextImage contextDescription)).
Proof. apply run_Run with designDescription contextDescription. apply surjective_pairing. Qed.

Section ModelCalls.
Context {R : Type}.

Lemma describeRequest_not_composition (cp : Part) :
  model (describeRequest cp) <> compositionModel.
Proof. discriminate. Qed.

End ModelCalls.

Lemma find_none_of_existsb_false {A} (f : A -> bool) (l : list A) :
  existsb f l = false -> find f l = None.
Proof.
  induction l as [|a l IH]; cbn [existsb find]; [reflexivity|].
  destruct (f a); cbn [orb]; [discriminate | exact IH].
Qed.

Lemma first_candidate_decides (c0 : Candidate) (rest : list Candidate) (s : string) :
  candidateHasInlineData c0 = false ->
  selectedInlineData {| candidates := Some (c0 :: rest); response_text := s |} = None.
Proof.
  unfold candidateHasInlineData, selectedInlineData, imagePartFromResponse.
  cbn [candidates]. destruct (content c0) as [[[ps|]]|]; cbn [parts]; try reflexivity.
  intros Hno. now rewrite (find_none_of_existsb_false _ _ Hno).
Qed.

Lemma no_inline_data_nothing_selected (r : GenerateContentResponse) :
  responseHasInlineData r = false -> selectedInlineData r = None.
Proof.
  destruct r as [[[|c0 rest]|] s]; try reflexivity.
  unfold responseHasInlineData. cbn [candidates existsb]. intros Hno.
  apply orb_false_iff in Hno. now apply first_candidate_decides.
Qed.

(** ** The orchestrator's data flow *)

(** C8.  Whenever an invocation reaches the crop, the width and height it
    passes are the ones [getImageDimensions] measured on the raw context
    file, with the target [MAX_DIMENSION]; that measurement is the first
    helper call of the invocation, ahead of both resizes, and it is the only
    measurement: no dimension is ever read from a resized or generated
    image. *)
Theorem crop_uses_measured_dimensions :
  forall (R : Type) (N : JSNumber R) (W : World R)
         (designImage : File) (designDescription : string)
         (contextImage : File) (contextDescription : string)
         (url : string) (ow oh t : R),
    let tr := snd (run W designImage designDescription contextImage contextDescription) in
    In (Call_cropToOriginalAspectRatio url ow oh t) tr ->
    exists dims rest,
      getImageDimensions W contextImage = resolve dims /\
      ow = ofZ (width dims) /\ oh = ofZ (height dims) /\ t = MAX_DIMENSION /\
      tr = Call_newGoogleGenAI :: Call_getImageDimensions contextImage ::
           Call_resizeImage designImage MAX_DIMENSION ::
           Call_resizeImage contextImage MAX_DIMENSION :: rest /\
      (forall f, ~ In (Call_getImageDimensions f) rest) /\
      countCalls isResize rest = 0%nat /\
      countCalls isCrop tr = 1%nat.
Proof.
  intros R N W designImage designDescription contextImage contextDescription
    url ow oh t tr Hin. subst tr.
  destruct (run_paths W designImage designDescription contextImage contextDescription);
    explicit_history; each_call Hin.
  all: injection Hin as <- <- <- <-.
  all: eexists; eexists; split; [eassumption|].
  all: repeat (split; [reflexivity|]).
  all: split; [intros f Hf; each_call Hf | split; reflexivity].
Qed.

Lemma crop_uses_measured_dimensions_witness :
  exists dims rest,
    getImageDimensions Scenario.happyWorld Scenario.contextFile = resolve dims /\
    ofZ 1920 = ofZ (width dims) /\ ofZ 1080 = ofZ (height dims) /\
    ofZ 1024 = MAX_DIMENSION /\
    snd (Scenario.go Scenario.happyWorld) =
      Call_newGoogleGenAI :: Call_getImageDimensions Scenario.contextFile ::
      Call_resizeImage Scenario.designFile MAX_DIMENSION ::
      Call_resizeImage Scenario.contextFile MAX_DIMENSION :: rest /\
    (forall f, ~ In (Call_getImageDimensions f) rest) /\
    countCalls isResize rest = 0%nat /\
    countCalls isCrop (snd (Scenario.go Scenario.happyWorld)) = 1%nat.
Proof.
  apply (crop_uses_measured_dimensions _ _ Scenario.happyWorld
           Scenario.designFile "poster.png" Scenario.contextFile "room.jpg"
           "data:image/png;base64,Q09NUE9TSVRF").
  vm_compute. do 8 right. left. reflexivity.
Defined.

(** C9, on the code.  A request for JPEG is not always answered with
    JPEG.  In the browser below every canvas that has pixels encodes as
    [data:image/jpeg;base64,...], and a canvas without pixels as
    ["data:,"], as the HTML standard has it.  The context photograph is
    3000 by 2 and the model's payload is a PNG: the invocation resolves,
    and its [finalImageUrl] is ["data:,"], which carries no MIME type. *)
Lemma panorama_result_is_not_a_jpeg :
  mimeType Scenario.pngPayload = "image/png" /\
  (forall canvas : Canvas Binary64.t,
     (0 < canvas_width canvas)%Z -> (0 < canvas_height canvas)%Z ->
     toDataURL Session.panoramaWorld canvas "image/jpeg" (95 # 100)%Q
       = "data:image/jpeg;base64,Q1JPUFBFRA==") /\
  getImageDimensions Session.panoramaWorld Scenario.contextFile
    = resolve {| width := 3000; height := 2 |} /\
  fst (Scenario.go Session.panoramaWorld) = resolve {| finalImageUrl := "data:," |} /\
  (forall bytes : string, "data:," <> ("data:image/jpeg;base64," ++ bytes)%string).
Proof.
  split; [reflexivity|]. split.
  { intros [cw ch ops] Hw Hh. cbn [canvas_width canvas_height] in Hw, Hh.
    unfold Session.panoramaWorld. cbn [toDataURL canvas_width canvas_height].
    destruct (Z.eqb_spec cw 0) as [->|_]; [discriminate Hw|].
    destruct (Z.eqb_spec ch 0) as [->|_]; [discriminate Hh|].
    reflexivity. }
  split; [reflexivity|]. split; [vm_compute; reflexivity|].
  intros bytes. discriminate.
Qed.

(** C9, amended.  Whenever an invocation resolves, its [finalImageUrl] is
    the string [canvas.toDataURL('image/jpeg', 0.95)] returns for the crop
    canvas: the type and quality requested are fixed by that call,
    whatever MIME type the model's payload carries (the payload's own type
    only appears in the URL the square image is decoded from).  What the
    string is depends on the crop canvas.  In binary64, for a context
    photograph of dimensions below [2^32]:
    - if neither side is more than 1024 times the other, the canvas has
      pixels, so in a browser that encodes every canvas with pixels as a
      [data:image/jpeg;base64,] URL the result is such a URL;
    - otherwise the canvas has none, and in a browser that encodes a canvas
      without pixels as ["data:,"] the result is ["data:,"]. *)
Theorem final_image_is_jpeg_reencoding :
  (forall (R : Type) (N : JSNumber R) (W : World R)
          (designImage : File) (designDescription : string)
          (contextImage : File) (contextDescription : string)
          (result : CompositeResult),
     fst (run W designImage designDescription contextImage contextDescription)
       = resolve result ->
     exists (payload : InlineData) (sq : HTMLImageElement) (dims : Dimensions),
       getImageDimensions W contextImage = resolve dims /\
       loadImage W (squareImageUrl (mimeType payload) (data payload)) = ImageLoad sq /\
       finalImageUrl result =
         toDataURL W
           (cropToOriginalAspectRatio_canvas sq
              (ofZ (width dims)) (ofZ (height dims)) MAX_DIMENSION)
           "image/jpeg" (95 # 100)%Q) /\
  (forall (W : World Binary64.t)
          (designImage : File) (designDescription : string)
          (contextImage : File) (contextDescription : string)
          (dims : Dimensions) (result : CompositeResult),
     fst (run W designImage designDescription contextImage contextDescription)
       = resolve result ->
     getImageDimensions W contextImage = resolve dims ->
     (0 < width dims < 2 ^ 32)%Z -> (0 < height dims < 2 ^ 32)%Z ->
     ((forall canvas : Canvas Binary64.t,
         (0 < canvas_width canvas)%Z -> (0 < canvas_height canvas)%Z ->
         exists bytes : string,
           toDataURL W canvas "image/jpeg" (95 # 100)%Q
             = ("data:image/jpeg;base64," ++ bytes)%string) ->
      (width dims <= 1024 * height dims)%Z -> (height dims <= 1024 * width dims)%Z ->
      exists bytes : string,
        finalImageUrl result = ("data:image/jpeg;base64," ++ bytes)%string) /\
     ((forall (canvas : Canvas Binary64.t) (type : string) (quality : Q),
         canvas_width canvas = 0%Z \/ canvas_height canvas = 0%Z ->
         toDataURL W canvas type quality = "data:,") ->
      (1024 * height dims < width dims)%Z \/ (1024 * width dims < height dims)%Z ->
      finalImageUrl result = "data:,")).
Proof.
  split.
  - intros R N W designImage designDescription contextImage contextDescription
      result Hres.
    destruct (run_paths W designImage designDescription contextImage contextDescription);
      try discriminate Hres.
    injection Hres as <-.
    match goal with
    | Hc : cropToOriginalAspectRatio _ _ _ _ _ = inr _ |- _ =>
        destruct (cropToOriginalAspectRatio_resolves _ _ _ _ _ _ Hc) as (sq & Hsq & ->)
    end.
    exists inline, sq, dims. repeat split; assumption.
  - intros W designImage designDescription contextImage contextDescription dims result
      Hres Hdims Hw Hh.
    destruct (run_paths W designImage designDescription contextImage contextDescription);
      try discriminate Hres.
    injection Hres as <-. cbn [finalImageUrl].
    match goal with
    | Hc : cropToOriginalAspectRatio _ _ _ _ _ = inr _ |- _ =>
        destruct (cropToOriginalAspectRatio_resolves _ _ _ _ _ _ Hc) as (sq & _ & ->)
    end.
    match goal with
    | Hd : getImageDimensions _ _ = inr _ |- _ =>
        unfold resolve in Hdims; rewrite Hdims in Hd; injection Hd as <-
    end.
    repeat match goal with x := _ |- _ => subst x end.
    split.
    + intros Hjpeg Hr1 Hr2.
      destruct (binary64_crop_canvas_range sq (width dims) (height dims) Hw Hh)
        as [_ Hfull].
      destruct (Hfull Hr1 Hr2) as [H1w H1h].
      apply Hjpeg; lia.
    + intros Hempty Hratio.
      apply Hempty.
      destruct (binary64_crop_canvas_empty sq (width dims) (height dims) Hw Hh)
        as [Hwide Htall].
      destruct Hratio as [Hr|Hr]; [right; now apply Hwide | left; now apply Htall].
Qed.

Lemma final_image_is_jpeg_reencoding_witness :
  mimeType Scenario.pngPayload = "image/png" /\
  (exists (payload : InlineData) (sq : HTMLImageElement) (dims : Dimensions),
     getImageDimensions Scenario.happyWorld Scenario.contextFile = resolve dims /\
     loadImage Scenario.happyWorld (squareImageUrl (mimeType payload) (data payload))
       = ImageLoad sq /\
     "data:image/jpeg;base64,Q1JPUFBFRA==" =
       toDataURL Scenario.happyWorld
         (cropToOriginalAspectRatio_canvas sq
            (ofZ (width dims)) (ofZ (height dims)) MAX_DIMENSION)
         "image/jpeg" (95 # 100)%Q) /\
  (exists bytes : string,
     "data:image/jpeg;base64,Q1JPUFBFRA==" = ("data:image/jpeg;base64," ++ bytes)%string) /\
  finalImageUrl {| finalImageUrl := "data:," |} = "data:,".
Proof.
  destruct final_image_is_jpeg_reencoding as [Hencoded Hkind].
  split; [reflexivity|]. split; [|split].
  - apply (Hencoded _ _ Scenario.happyWorld
             Scenario.designFile "poster.png" Scenario.contextFile "room.jpg"
             {| finalImageUrl := "data:image/jpeg;base64,Q1JPUFBFRA==" |}).
    vm_compute. reflexivity.
  - assert (Hw : (0 < 1920 < 2 ^ 32)%Z) by (split; reflexivity).
    assert (Hh : (0 < 1080 < 2 ^ 32)%Z) by (split; reflexivity).
    assert (Hrun : fst (run Scenario.happyWorld Scenario.designFile "poster.png"
                          Scenario.contextFile "room.jpg")
                   = resolve {| finalImageUrl := "data:image/jpeg;base64,Q1JPUFBFRA==" |})
      by (vm_compute; reflexivity).
    apply (proj1 (Hkind Scenario.happyWorld
                    Scenario.designFile "poster.png" Scenario.contextFile "room.jpg"
                    {| width := 1920; height := 1080 |}
                    {| finalImageUrl := "data:image/jpeg;base64,Q1JPUFBFRA==" |}
                    Hrun eq_refl Hw Hh)).
    + intros canvas _ _. exists "Q1JPUFBFRA==". reflexivity.
    + discriminate.
    + discriminate.
  - assert (Hw : (0 < 3000 < 2 ^ 32)%Z) by (split; reflexivity).
    assert (Hh : (0 < 2 < 2 ^ 32)%Z) by (split; reflexivity).
    assert (Hrun : fst (run Session.panoramaWorld Scenario.designFile "poster.png"
                          Scenario.contextFile "room.jpg")
                   = resolve {| finalImageUrl := "data:," |})
      by (vm_compute; reflexivity).
    apply (proj2 (Hkind Session.panoramaWorld
                    Scenario.designFile "poster.png" Scenario.contextFile "room.jpg"
                    {| width := 3000; height := 2 |}
                    {| finalImageUrl := "data:," |}
                    Hrun eq_refl Hw Hh)).
    + intros [cw ch ops] type quality [Hz|Hz]; cbn in Hz; subst; cbn.
      * reflexivity.
      * now rewrite orb_true_r.
    + left. reflexivity.
Defined.

(** ** Failure exits *)

(** C3.  If the composition call was issued and resolved with a response in
    which no part of any candidate carries inline data, the invocation
    rejects with the no-image error and [cropToOriginalAspectRatio] is not
    called in that run. *)
Theorem no_image_then_no_crop :
  forall (R : Type) (N : JSNumber R) (W : World R)
         (designImage : File) (designDescription : string)
         (contextImage : File) (contextDescription : string)
         (request : GenerateContentParameters) (response : GenerateContentResponse),
    let settled := run W designImage designDescription contextImage contextDescription in
    In (Call_generateContent request) (snd settled) ->
    model request = compositionModel ->
    generateContent W request = resolve response ->
    responseHasInlineData response = false ->
    fst settled = reject noImageFailure /\
    countCalls isCrop (snd settled) = 0%nat.
Proof.
  intros R N W designImage designDescription contextImage contextDescription
    request response settled Hin Hmodel Hresp Hnone. subst settled.
  apply no_inline_data_nothing_selected in Hnone.
  destruct (run_paths W designImage designDescription contextImage contextDescription);
    explicit_history; each_call Hin.
  all: injection Hin as <-.
  all: try (exfalso; revert Hmodel; apply describeRequest_not_composition).
  all: unfold resolve, reject in *; try congruence.
  split; reflexivity.
Qed.

Lemma no_image_then_no_crop_witness :
  fst (Scenario.go Scenario.textOnlyWorld) = reject noImageFailure /\
  countCalls isCrop (snd (Scenario.go Scenario.textOnlyWorld)) = 0%nat.
Proof.
  apply (no_image_then_no_crop _ _ Scenario.textOnlyWorld
           Scenario.designFile "poster.png" Scenario.contextFile "room.jpg"
           (composeRequest Scenario.squarePart Scenario.squarePart Scenario.tvDescription)
           {| candidates := Some [Scenario.textCandidate];
              response_text := EmptyString |}).
  - vm_compute. do 7 right. left. reflexivity.
  - reflexivity.
  - reflexivity.
  - reflexivity.
Defined.






(** C2, on the code.  A rejection of the composition call is not caught by
    the orchestrator: in the run below the caller receives the very value
    the SDK rejected with, not a message of the orchestrator's own. *)
Lemma composition_failure_reaches_caller_unwrapped :
  rejection Scenario.composeFailsWorld (Scenario.composeCall Scenario.tvDescription)
    = Some Scenario.serviceUnavailable /\
  In (Scenario.composeCall Scenario.tvDescription)
     (snd (Scenario.go Scenario.composeFailsWorld)) /\
  fst (Scenario.go Scenario.composeFailsWorld) = reject Scenario.serviceUnavailable /\
  Scenario.serviceUnavailable <> descriptionFailure /\
  Scenario.serviceUnavailable <> noImageFailure.
Proof.
  split; [reflexivity|].
  split; [vm_compute; do 7 right; left; reflexivity|].
  split; [vm_compute; reflexivity|].
  split; discriminate.
Qed.

(** C2, amended.  No error is swallowed and nothing is retried, but only the
    description call's failure is replaced by a message of the
    orchestrator's own:
    - if any awaited call of a run rejects with [e], the invocation rejects:
      with "The AI failed to analyze the context image." when the call is
      the description call, with [e] itself otherwise (composition call,
      crop, resize, measurement, file reading);
    - so an invocation that resolves had every awaited call resolve;
    - a composition response without an image part rejects with "The AI
      model did not return an image. Please try again.";
    - each model is called at most once per run;
    - the caller's [catch] puts "Failed to generate the image. " and the
      error's message (or "An unknown error occurred." for a value that is
      not an [Error]) in the error state. *)
Theorem errors_surface_without_retry :
  forall (R : Type) (N : JSNumber R) (W : World R)
         (designImage : File) (designDescription : string)
         (contextImage : File) (contextDescription : string),
    let settled := run W designImage designDescription contextImage contextDescription in
    (forall call e, In call (snd settled) -> rejection W call = Some e ->
       fst settled = reject (surfacedAs call e)) /\
    (forall result, fst settled = resolve result ->
       forall call, In call (snd settled) -> rejection W call = None) /\
    (forall request response,
       In (Call_generateContent request) (snd settled) ->
       model request = compositionModel ->
       generateContent W request = resolve response ->
       selectedInlineData response = None ->
       fst settled = reject noImageFailure) /\
    (countCalls (isGenerateContentFor descriptionModel) (snd settled) <= 1)%nat /\
    (countCalls (isGenerateContentFor compositionModel) (snd settled) <= 1)%nat /\
    (forall e, fst settled = reject e ->
       handleGenerate_catch e =
         "Failed to generate the image. " ++
         match e with
         | Error message => message
         | NonError _ => "An unknown error occurred."
         end).
Proof.
  intros R N W designImage designDescription contextImage contextDescription settled.
  subst settled.
  assert (Hsurface :
    forall call e,
      In call (snd (run W designImage designDescription contextImage contextDescription)) ->
      rejection W call = Some e ->
      fst (run W designImage designDescription contextImage contextDescription)
        = reject (surfacedAs call e)).
  { intros call e Hin Hrej.
    destruct (run_paths W designImage designDescription contextImage contextDescription);
      explicit_history; each_call Hin.
    all: subst call; settled_as Hrej.
    all: try discriminate Hrej.
    all: injection Hrej as <-; reflexivity. }
  split; [exact Hsurface|].
  split.
  { intros result Hres call Hin.
    destruct (rejection W call) as [e|] eqn:Hrej; [|reflexivity].
    rewrite (Hsurface call e Hin Hrej) in Hres. discriminate Hres. }
  split.
  { intros request response Hin Hmodel Hresp Hnone.
    destruct (run_paths W designImage designDescription contextImage contextDescription);
      explicit_history; each_call Hin.
    all: injection Hin as <-.
    all: try (exfalso; revert Hmodel; apply describeRequest_not_composition).
    all: unfold resolve, reject in *; congruence. }
  split.
  { destruct (run_paths W designImage designDescription contextImage contextDescription);
      explicit_history; cbv [countCalls]; cbn; lia. }
  split.
  { destruct (run_paths W designImage designDescription contextImage contextDescription);
      explicit_history; cbv [countCalls]; cbn; lia. }
  intros e _. destruct e; reflexivity.
Qed.

Lemma errors_surface_without_retry_witness :
  fst (Scenario.go Scenario.composeFailsWorld) = reject Scenario.serviceUnavailable /\
  fst (Scenario.go Scenario.describeFailsWorld) = reject descriptionFailure /\
  (countCalls (isGenerateContentFor descriptionModel)
     (snd (Scenario.go Scenario.composeFailsWorld)) <= 1)%nat /\
  (countCalls (isGenerateContentFor compositionModel)
     (snd (Scenario.go Scenario.composeFailsWorld)) <= 1)%nat /\
  handleGenerate_catch Scenario.serviceUnavailable =
    "Failed to generate the image. got status: 503 Service Unavailable".
Proof.
  destruct (errors_surface_without_retry _ _ Scenario.composeFailsWorld
              Scenario.designFile "poster.png" Scenario.contextFile "room.jpg")
    as (Hsurface & _ & _ & Hdescribe & Hcompose & Hcatch).
  destruct (errors_surface_without_retry _ _ Scenario.describeFailsWorld
              Scenario.designFile "poster.png" Scenario.contextFile "room.jpg")
    as (Hsurface' & _).
  split.
  { apply (Hsurface (Scenario.composeCall Scenario.tvDescription)
             Scenario.serviceUnavailable).
    - vm_compute. do 7 right. left. reflexivity.
    - reflexivity. }
  split.
  { apply (Hsurface' Scenario.describeCall Scenario.failedToFetch).
    - vm_compute. do 5 right. left. reflexivity.
    - reflexivity. }
  split; [exact Hdescribe|]. split; [exact Hcompose|].
  apply (Hcatch Scenario.serviceUnavailable).
  apply (Hsurface (Scenario.composeCall Scenario.tvDescription)
           Scenario.serviceUnavailable).
  - vm_compute. do 7 right. left. reflexivity.
  - reflexivity.
Defined.

(** * Further properties *)

(** ** Data URLs: [fileToPart] and [dataURLtoFile] *)

Lemma string_append_nil_r (s : string) : s ++ EmptyString = s.
Proof. induction s as [|a s IH]; cbn; [reflexivity | now rewrite IH]. Qed.

Lemma string_append_assoc (a b c : string) : (a ++ b) ++ c = a ++ (b ++ c).
Proof. induction a as [|x a IH]; cbn; [reflexivity | now rewrite IH]. Qed.

Lemma occurs_app (c : ascii) (a b : string) :
  occurs c (a ++ b) = occurs c a || occurs c b.
Proof. induction a as [|x a IH]; cbn; [reflexivity | now rewrite IH, orb_assoc]. Qed.

Lemma split_aux_free (c : ascii) (s rest cur : string) :
  occurs c s = false ->
  split_aux c (s ++ rest) cur = split_aux c rest (cur ++ s).
Proof.
  revert cur. induction s as [|a s IH]; intros cur Hfree; cbn.
  - now rewrite string_append_nil_r.
  - cbn in Hfree. apply orb_false_iff in Hfree as [Ha Hs].
    rewrite Ha, IH by exact Hs. now rewrite string_append_assoc.
Qed.

Lemma split_aux_sep (c : ascii) (rest cur : string) :
  split_aux c (String c rest) cur = cur :: split_aux c rest EmptyString.
Proof. cbn. now rewrite Ascii.eqb_refl. Qed.

(** A string without the separator is one piece. *)
Lemma split_free (c : ascii) (s : string) :
  occurs c s = false -> split c s = [s].
Proof.
  intros Hfree. unfold split.
  rewrite <- (string_append_nil_r s) at 1. rewrite split_aux_free by exact Hfree.
  reflexivity.
Qed.

(** The first piece ends at the first separator. *)
Lemma split_cons (c : ascii) (s rest : string) :
  occurs c s = false ->
  split c (s ++ String c rest) = s :: split c rest.
Proof.
  intros Hfree. unfold split. rewrite split_aux_free by exact Hfree.
  now rewrite split_aux_sep.
Qed.

Lemma split_aux_nonempty (c : ascii) (s cur : string) : split_aux c s cur <> [].
Proof.
  revert cur. induction s as [|a s IH]; intros cur; cbn; [discriminate|].
  destruct (Ascii.eqb a c); [discriminate | apply IH].
Qed.

(** What [split] returns, read backwards. *)
Lemma split_aux_inv (c : ascii) (s cur : string) (p : string) (ps : list string) :
  split_aux c s cur = p :: ps ->
  exists s0,
    p = cur ++ s0 /\ occurs c s0 = false /\
    match ps with
    | [] => s = s0
    | _ => exists rest, s = s0 ++ String c rest /\ split c rest = ps
    end.
Proof.
  revert cur p ps. induction s as [|a s IH]; intros cur p ps Hs; cbn in Hs.
  - injection Hs as <- <-. exists EmptyString. now rewrite string_append_nil_r.
  - destruct (Ascii.eqb a c) eqn:Ha.
    + apply Ascii.eqb_eq in Ha. subst a. injection Hs as <- <-.
      exists EmptyString. rewrite string_append_nil_r. repeat split.
      destruct (split_aux c s EmptyString) eqn:E; [now apply split_aux_nonempty in E|].
      exists s. split; [reflexivity | exact E].
    + destruct (IH _ _ _ Hs) as (s0 & -> & Hfree & Hrest).
      exists (String a s0). split; [now rewrite string_append_assoc|].
      split; [cbn; now rewrite Ha|].
      destruct ps; [now subst s|].
      destruct Hrest as (rest & -> & Hps). exists rest. now split.
Qed.

Lemma lazyUntilSemicolon_app (g rest : string) :
  occurs ";" g = false -> hasLineTerminator g = false ->
  lazyUntilSemicolon (g ++ String ";" rest) = Some g.
Proof.
  induction g as [|a g IH]; intros Hsemi Hlt; cbn; [reflexivity|].
  cbn in Hsemi, Hlt.
  apply orb_false_iff in Hsemi as [Ha Hg]. apply orb_false_iff in Hlt as [Hl Hr].
  rewrite Ha, Hl, IH by assumption. reflexivity.
Qed.

Lemma lazyUntilSemicolon_inv (s g : string) :
  lazyUntilSemicolon s = Some g ->
  occurs ";" g = false /\ hasLineTerminator g = false /\
  exists rest, s = g ++ String ";" rest.
Proof.
  revert g. induction s as [|a s IH]; intros g Hs; cbn in Hs; [discriminate|].
  destruct (Ascii.eqb a ";") eqn:Ha.
  - apply Ascii.eqb_eq in Ha. subst a. injection Hs as <-.
    repeat split. now exists s.
  - destruct (isLineTerminator a) eqn:Hl; [discriminate|].
    destruct (lazyUntilSemicolon s) as [g'|]; [|discriminate].
    injection Hs as <-. destruct (IH g' eq_refl) as (Hsemi & Hlt & rest & ->).
    cbn. rewrite Ha, Hl. repeat split; try assumption. now exists rest.
Qed.

(** The match starts at the first colon when a group can be read there. *)
Lemma matchMime_colon (pre g rest : string) :
  occurs ":" pre = false ->
  occurs ";" g = false -> hasLineTerminator g = false ->
  matchMime (pre ++ String ":" (g ++ String ";" rest)) = Some g.
Proof.
  intros Hpre Hsemi Hlt. induction pre as [|a pre IH]; cbn.
  - now rewrite lazyUntilSemicolon_app.
  - cbn in Hpre. apply orb_false_iff in Hpre as [Ha Hp]. rewrite Ha. now apply IH.
Qed.

Lemma matchMime_inv (s g : string) :
  matchMime s = Some g ->
  occurs ";" g = false /\ hasLineTerminator g = false /\
  exists pre rest, s = pre ++ String ":" (g ++ String ";" rest).
Proof.
  induction s as [|a s IH]; intros Hs; cbn in Hs; [discriminate|].
  destruct (Ascii.eqb a ":") eqn:Ha.
  - apply Ascii.eqb_eq in Ha. subst a.
    destruct (lazyUntilSemicolon s) as [g'|] eqn:Hl.
    + injection Hs as <-. destruct (lazyUntilSemicolon_inv _ _ Hl) as (H1 & H2 & rest & ->).
      repeat split; try assumption. now exists EmptyString, rest.
    + destruct (IH Hs) as (H1 & H2 & pre & rest & ->).
      repeat split; try assumption. now exists (String ":" pre), rest.
  - destruct (IH Hs) as (H1 & H2 & pre & rest & ->).
    repeat split; try assumption. now exists (String a pre), rest.
Qed.

(** X1.  [fileToPart] undoes the template [data:${mimeType};base64,${data}]:
    when the reader returns such a URL, with a non-empty MIME type free of
    commas, semicolons and line terminators, the part carries that MIME
    type, and as data the payload up to its first comma, which is the whole
    payload when it has no comma (as base64 has none). *)
Theorem fileToPart_reads_data_url :
  forall (R : Type) (N : JSNumber R) (W : World R) (file : File) (mime payload : string),
    readAsDataURL W file = ReaderLoad (Some (squareImageUrl mime payload)) ->
    truthy mime = true ->
    occurs "," mime = false -> occurs ";" mime = false -> hasLineTerminator mime = false ->
    fileToPart W file =
      resolve (inlinePartOf {| mimeType := mime;
                               data := hd EmptyString (split "," payload) |}) /\
    (occurs "," payload = false -> hd EmptyString (split "," payload) = payload).
Proof.
  intros R N W file mime payload Hread Hne Hcomma Hsemi Hlt.
  split; [|intros Hfree; now rewrite split_free].
  unfold fileToPart. rewrite Hread. unfold squareImageUrl.
  change ("data:" ++ mime ++ ";base64," ++ payload)
    with ("data:" ++ (mime ++ (";base64" ++ String "," payload))).
  rewrite <- !string_append_assoc.
  rewrite split_cons.
  2:{ rewrite !occurs_app, Hcomma. reflexivity. }
  destruct (split "," payload) as [|arr1 more] eqn:Hp;
    [now apply split_aux_nonempty in Hp|].
  change (("data:" ++ mime) ++ ";base64")
    with ("data" ++ String ":" (mime ++ String ";" "base64")).
  rewrite matchMime_colon by (assumption || reflexivity).
  rewrite Hne. reflexivity.
Qed.

Lemma fileToPart_reads_data_url_witness :
  fileToPart Scenario.happyWorld Scenario.contextFile =
    resolve (inlinePartOf {| mimeType := "image/jpeg";
                             data := hd EmptyString (split "," "Uk9PTQ==") |}) /\
  (occurs "," "Uk9PTQ==" = false -> hd EmptyString (split "," "Uk9PTQ==") = "Uk9PTQ==").
Proof.
  apply (fileToPart_reads_data_url _ _ Scenario.happyWorld Scenario.contextFile
           "image/jpeg" "Uk9PTQ=="); reflexivity.
Defined.

(** X2.  Whatever the reader returns, a part [fileToPart] resolves with
    carries inline data and no text; its MIME type is not empty and has no
    semicolon, comma or line terminator; its data has no comma; and the URL
    read is [pre:mime;post,data] followed by nothing or by a comma and more
    text, which is dropped. *)
Theorem fileToPart_resolved_shape :
  forall (R : Type) (N : JSNumber R) (W : World R) (file : File) (part : Part),
    fileToPart W file = resolve part ->
    exists pre mime post payload rest,
      readAsDataURL W file =
        ReaderLoad (Some (pre ++ ":" ++ mime ++ ";" ++ post ++ "," ++ payload ++ rest)) /\
      (rest = EmptyString \/ exists more, rest = String "," more) /\
      part = inlinePartOf {| mimeType := mime; data := payload |} /\
      text part = None /\
      truthy mime = true /\
      occurs ";" mime = false /\ hasLineTerminator mime = false /\
      occurs "," mime = false /\ occurs "," payload = false.
Proof.
  intros R N W file part Hres. unfold fileToPart in Hres.
  destruct (readAsDataURL W file) as [err|[url|]]; try discriminate.
  destruct (split "," url) as [|arr0 [|arr1 more]] eqn:Hsplit; try discriminate.
  destruct (matchMime arr0) as [mime|] eqn:Hmime; try discriminate.
  destruct (truthy mime) eqn:Hne; try discriminate.
  injection Hres as <-.
  destruct (split_aux_inv _ _ _ _ _ Hsplit) as (s0 & -> & Hfree0 & tail & -> & Htail).
  destruct (split_aux_inv _ _ _ _ _ Htail) as (s1 & -> & Hfree1 & Hmore).
  cbn [append] in *.
  destruct (matchMime_inv _ _ Hmime) as (Hsemi & Hlt & pre & post & ->).
  repeat rewrite occurs_app in Hfree0. cbn [occurs] in Hfree0.
  repeat rewrite occurs_app in Hfree0.
  apply orb_false_iff in Hfree0 as [_ Hfree0].
  apply orb_false_iff in Hfree0 as [_ Hfree0].
  apply orb_false_iff in Hfree0 as [Hfree0 _].
  assert (Hrest : exists rest, tail = s1 ++ rest /\
                    (rest = EmptyString \/ exists more', rest = String "," more')).
  { destruct more.
    - exists EmptyString. subst tail. rewrite string_append_nil_r. now split; [|left].
    - destruct Hmore as (rest & -> & _). exists (String "," rest).
      split; [reflexivity | right; now exists rest]. }
  destruct Hrest as (rest & -> & Hrest).
  exists pre, mime, post, s1, rest.
  split.
  - do 2 f_equal. rewrite !string_append_assoc. cbn [append].
    rewrite !string_append_assoc. reflexivity.
  - repeat split; assumption.
Qed.

Lemma fileToPart_resolved_shape_witness :
  exists pre mime post payload rest,
    readAsDataURL Scenario.happyWorld Scenario.contextFile =
      ReaderLoad (Some (pre ++ ":" ++ mime ++ ";" ++ post ++ "," ++ payload ++ rest)) /\
    (rest = EmptyString \/ exists more, rest = String "," more) /\
    inlinePartOf {| mimeType := "image/jpeg"; data := "Uk9PTQ==" |}
      = inlinePartOf {| mimeType := mime; data := payload |} /\
    text (inlinePartOf {| mimeType := "image/jpeg"; data := "Uk9PTQ==" |}) = None /\
    truthy mime = true /\
    occurs ";" mime = false /\ hasLineTerminator mime = false /\
    occurs "," mime = false /\ occurs "," payload = false.
Proof.
  apply (fileToPart_resolved_shape _ _ Scenario.happyWorld Scenario.contextFile).
  reflexivity.
Defined.

Lemma storeUint8_app (zs : list Z) (b : Z) (tail : list Z) (v : option Z) :
  storeUint8 (zs ++ b :: tail)%list (List.length zs) v =
  (zs ++ (match v with Some z => z mod 256 | None => 0 end)%Z :: tail)%list.
Proof. induction zs as [|z zs IH]; cbn; [reflexivity | now rewrite IH]. Qed.

Lemma repeat_snoc {A} (a : A) (n : nat) : repeat a (S n) = (repeat a n ++ [a])%list.
Proof. induction n as [|n IH]; [reflexivity|]. cbn [repeat app] in *. now rewrite <- IH. Qed.

Lemma codesFrom_length (s : string) : List.length (codesFrom s) = String.length s.
Proof. induction s as [|a s IH]; cbn; [reflexivity | now rewrite IH]. Qed.

(** Within the string, [charCodeAt] reads the code at that index, a byte. *)
Lemma skipn_codesFrom (s : string) (n : nat) :
  (n < String.length s)%nat ->
  exists c, charCodeAt s n = Some c /\ (c mod 256 = c)%Z /\
            skipn n (codesFrom s) = c :: skipn (S n) (codesFrom s).
Proof.
  revert n. induction s as [|a s IH]; intros n Hn; cbn in Hn; [lia|].
  destruct n as [|n].
  - exists (Z.of_nat (nat_of_ascii a)). repeat split.
    apply Z.mod_small. pose proof (nat_ascii_bounded a). lia.
  - destruct (IH n ltac:(lia)) as (c & Hc & Hbyte & Hskip).
    exists c. repeat split; assumption.
Qed.

(** The loop invariant: once the codes from index [n] on are in place, the
    remaining [n] rounds put the others in place. *)
Lemma copyCharCodes_invariant (bstr : string) (n : nat) :
  (n <= String.length bstr)%nat ->
  copyCharCodes n bstr (repeat 0%Z n ++ skipn n (codesFrom bstr))%list = codesFrom bstr.
Proof.
  induction n as [|n IH]; intros Hn; [reflexivity|].
  cbn [copyCharCodes]. rewrite repeat_snoc, <- app_assoc. cbn [app].
  pose proof (storeUint8_app (repeat 0%Z n) 0%Z (skipn (S n) (codesFrom bstr))
                (charCodeAt bstr n)) as Hstore.
  rewrite repeat_length in Hstore. rewrite Hstore.
  destruct (skipn_codesFrom bstr n ltac:(lia)) as (c & -> & -> & Hskip).
  rewrite <- Hskip. apply IH. lia.
Qed.

Lemma bitsOfUint8Array_codesFrom (s : string) : bitsOfUint8Array (codesFrom s) = s.
Proof.
  induction s as [|a s IH]; cbn; [reflexivity|].
  now rewrite Nat2Z.id, ascii_nat_embedding, IH.
Qed.

(** The bytes of the file are the characters [atob] returned, in order. *)
Lemma copyCharCodes_all (bstr : string) :
  bitsOfUint8Array
    (copyCharCodes (String.length bstr) bstr (newUint8Array (String.length bstr))) = bstr.
Proof.
  unfold newUint8Array.
  pose proof (copyCharCodes_invariant bstr (String.length bstr) (le_n _)) as Hinv.
  rewrite <- codesFrom_length in Hinv at 3. rewrite skipn_all, app_nil_r in Hinv.
  now rewrite Hinv, bitsOfUint8Array_codesFrom.
Qed.

(** X3.  [dataURLtoFile] reads a data URL as [fileToPart] does: on a URL
    for which [fileToPart] rejects, it throws the same error; on one for
    which [fileToPart] gives a MIME type and a payload, it throws what
    [atob] throws on the payload, or returns a file whose bytes are the
    characters [atob] returned, all of them and in order, under the given
    name, with the MIME type as the constructor normalises it. *)
Theorem dataURLtoFile_agrees_with_fileToPart :
  forall (R : Type) (N : JSNumber R) (W : World R) (file : File)
         (atob : string -> Completion string) (now : Z) (dataurl filename : string),
    readAsDataURL W file = ReaderLoad (Some dataurl) ->
    match fileToPart W file with
    | inl e => dataURLtoFile atob now dataurl filename = inl e
    | inr part =>
        exists mime payload,
          part = inlinePartOf {| mimeType := mime; data := payload |} /\
          dataURLtoFile atob now dataurl filename =
            match atob payload with
            | inl e => inl e
            | inr bstr => inr {| file_bits := bstr; file_name := filename;
                                 file_type := fileType mime; lastModified := now |}
            end
    end.
Proof.
  intros R N W file atob now dataurl filename Hread.
  unfold fileToPart, dataURLtoFile. rewrite Hread.
  destruct (split "," dataurl) as [|arr0 [|arr1 more]]; try reflexivity.
  destruct (matchMime arr0) as [mime|]; try reflexivity.
  destruct (truthy mime); try reflexivity.
  exists mime, arr1. split; [reflexivity|].
  destruct (atob arr1) as [e|bstr]; [reflexivity|].
  cbn zeta. now rewrite copyCharCodes_all.
Qed.

Lemma dataURLtoFile_agrees_with_fileToPart_witness :
  exists mime payload,
    inlinePartOf {| mimeType := "image/jpeg"; data := "Uk9PTQ==" |}
      = inlinePartOf {| mimeType := mime; data := payload |} /\
    dataURLtoFile Session.atob 1700000000000 "data:image/jpeg;base64,Uk9PTQ==" "room.jpg" =
      match Session.atob payload with
      | inl e => inl e
      | inr bstr => inr {| file_bits := bstr; file_name := "room.jpg";
                           file_type := fileType mime; lastModified := 1700000000000 |}
      end.
Proof.
  exact (dataURLtoFile_agrees_with_fileToPart _ _ Scenario.happyWorld Scenario.contextFile
           Session.atob 1700000000000 "data:image/jpeg;base64,Uk9PTQ==" "room.jpg"
           eq_refl).
Defined.

(** ** The helpers' failures *)

Lemma getImageDimensions_rejects_with_Error {R} `{JSNumber R} (W : World R) (f : File) e :
  getImageDimensions W f = reject e -> isError e = true.
Proof.
  unfold getImageDimensions. intros Hrej.
  destruct (readAsDataURL W f) as [err|[url|]];
    [| destruct (truthy url); [destruct (loadImage W url)|] |];
    try discriminate Hrej; injection Hrej as <-; reflexivity.
Qed.

Lemma resizeImage_rejects_with_Error {R} `{JSNumber R} (W : World R) (f : File) t e :
  resizeImage W f t = reject e -> isError e = true.
Proof.
  unfold resizeImage. intros Hrej.
  destruct (readAsDataURL W f) as [err|[url|]];
    [| destruct (truthy url);
       [destruct (loadImage W url);
        [| destruct (getContext2d W _); [destruct (toBlob W _ _ _)|]]|] |];
    try discriminate Hrej; injection Hrej as <-; reflexivity.
Qed.

Lemma cropToOriginalAspectRatio_rejects_with_Error {R} `{JSNumber R} (W : World R)
    url (ow oh t : R) e :
  cropToOriginalAspectRatio W url ow oh t = reject e -> isError e = true.
Proof.
  unfold cropToOriginalAspectRatio. intros Hrej.
  destruct (loadImage W url); [|destruct (getContext2d W _)];
    try discriminate Hrej; injection Hrej as <-; reflexivity.
Qed.

Lemma fileToPart_rejects_with_NonError {R} `{JSNumber R} (W : World R) (f : File) v :
  fileToPart W f = reject (NonError v) -> readAsDataURL W f = ReaderError v.
Proof.
  unfold fileToPart. intros Hrej.
  destruct (readAsDataURL W f) as [err|[url|]].
  - now injection Hrej as ->.
  - destruct (split "," url) as [|arr0 [|arr1 more]]; try discriminate Hrej.
    destruct (matchMime arr0) as [mime|]; [destruct (truthy mime)|]; discriminate Hrej.
  - discriminate Hrej.
Qed.

(** The name, type and date of the file a successful resize returns. *)
Lemma resizeImage_stamps_output {R} `{JSNumber R} (W : World R) (f out : File) (t : R) :
  resizeImage W f t = resolve out ->
  file_name out = file_name f /\ file_type out = "image/jpeg" /\
  lastModified out = date_now W.
Proof.
  unfold resizeImage. intros Hres.
  destruct (readAsDataURL W f) as [err|[url|]]; try discriminate.
  destruct (truthy url); try discriminate.
  destruct (loadImage W url) as [err|img]; try discriminate.
  destruct (getContext2d W _); try discriminate.
  destruct (toBlob W _ _ _) as [blob|]; try discriminate.
  injection Hres as <-. repeat split.
Qed.


(** X4.  [resizeImage] reads and decodes a file exactly as
    [getImageDimensions] does (in a browser that reads and decodes a given
    file the same way each time): on a file whose measurement rejects, the
    resize rejects with the same error, whatever the target; on a file
    whose measurement resolves, the resize can only reject with "Could not
    get canvas context." or "Canvas to Blob conversion failed.". *)
Theorem resize_fails_like_measurement :
  forall (R : Type) (N : JSNumber R) (W : World R) (file : File) (targetDimension : R),
    match getImageDimensions W file with
    | inl e => resizeImage W file targetDimension = reject e
    | inr _ =>
        forall e, resizeImage W file targetDimension = reject e ->
          e = Error "Could not get canvas context." \/
          e = Error "Canvas to Blob conversion failed."
    end.
Proof.
  intros R N W f t. unfold getImageDimensions, resizeImage.
  destruct (readAsDataURL W f) as [err|[url|]]; try reflexivity.
  destruct (truthy url); try reflexivity.
  destruct (loadImage W url) as [err|img]; try reflexivity.
  intros e. destruct (getContext2d W _); [destruct (toBlob W _ _ _)|];
    intros He; try discriminate He; injection He as <-; auto.
Qed.

(** ** The orchestrator: where a run stops, and what it sends *)

(** X5.  A rejected invocation stops at its cause.  The calls before the
    last one of its history all resolved, and either the last call
    rejected, with the error the caller receives (replaced by the
    description failure when that call is the description call), or the
    last call is the composition call, which resolved with a response
    without an image, and the caller receives the no-image error.  No call
    is issued after a failure, and no rejection comes without one. *)
Theorem rejection_stops_at_its_cause :
  forall (R : Type) (N : JSNumber R) (W : World R)
         (designImage : File) (designDescription : string)
         (contextImage : File) (contextDescription : string) (e : JsValue),
    let settled := run W designImage designDescription contextImage contextDescription in
    fst settled = reject e ->
    exists earlier call,
      snd settled = (earlier ++ [call])%list /\
      (forall c, In c earlier -> rejection W c = None) /\
      ((exists e0, rejection W call = Some e0 /\ e = surfacedAs call e0) \/
       (exists request response,
          call = Call_generateContent request /\ model request = compositionModel /\
          generateContent W request = resolve response /\
          selectedInlineData response = None /\ e = noImageFailure)).
Proof.
  intros R N W designImage designDescription contextImage contextDescription e settled Hrej.
  subst settled.
  destruct (run_paths W designImage designDescription contextImage contextDescription);
    try discriminate Hrej; injection Hrej as <-; explicit_history.
  all: match goal with
       | |- exists earlier call, ?l = _ /\ _ =>
           exists (removelast l), (last l Call_newGoogleGenAI)
       end.
  all: cbn [removelast last].
  all: split; [reflexivity|].
  all: split;
    [ intros c Hin; each_call Hin; subst c; cbn [rejection];
      repeat match goal with Hs : _ = _ |- _ => rewrite Hs end; reflexivity |].
  all: try (left; eexists; split;
            [cbn [rejection];
             repeat match goal with Hs : _ = _ |- _ => rewrite Hs end; reflexivity
            | reflexivity]).
  right. eexists; eexists. repeat split; eassumption.
Qed.

Lemma rejection_stops_at_its_cause_witness :
  exists earlier call,
    snd (Scenario.go Scenario.composeFailsWorld) = (earlier ++ [call])%list /\
    (forall c, In c earlier -> rejection Scenario.composeFailsWorld c = None) /\
    ((exists e0, rejection Scenario.composeFailsWorld call = Some e0 /\
                 Scenario.serviceUnavailable = surfacedAs call e0) \/
     (exists request response,
        call = Call_generateContent request /\ model request = compositionModel /\
        generateContent Scenario.composeFailsWorld request = resolve response /\
        selectedInlineData response = None /\
        Scenario.serviceUnavailable = noImageFailure)).
Proof.
  apply (rejection_stops_at_its_cause _ _ Scenario.composeFailsWorld
           Scenario.designFile "poster.png" Scenario.contextFile "room.jpg"
           Scenario.serviceUnavailable).
  vm_compute. reflexivity.
Defined.

(** X6.  Where "An unknown error occurred." comes from.  If an invocation
    rejects with a value that is not an [Error], the caller shows "Failed to
    generate the image. An unknown error occurred.", and the call that
    rejected with that value is the last of the history and is one of
    three: the construction of the client, a [fileToPart] whose reader
    failed, or the composition call.  Measuring, resizing, cropping and the
    description call never produce it. *)
Theorem unknown_error_comes_from_three_calls :
  forall (R : Type) (N : JSNumber R) (W : World R)
         (designImage : File) (designDescription : string)
         (contextImage : File) (contextDescription : string) (v : string),
    let settled := run W designImage designDescription contextImage contextDescription in
    fst settled = reject (NonError v) ->
    handleGenerate_catch (NonError v)
      = "Failed to generate the image. An unknown error occurred." /\
    exists earlier call,
      snd settled = (earlier ++ [call])%list /\
      rejection W call = Some (NonError v) /\
      (call = Call_newGoogleGenAI \/
       (exists resized, call = Call_fileToPart resized /\
                        readAsDataURL W resized = ReaderError v) \/
       (exists request, call = Call_generateContent request /\
                        model request = compositionModel)).
Proof.
  intros R N W designImage designDescription contextImage contextDescription v settled Hrej.
  subst settled. split; [reflexivity|].
  destruct (run_paths W designImage designDescription contextImage contextDescription);
    try discriminate Hrej; injection Hrej as ->; explicit_history.
  all: try match goal with
       | Hg : getImageDimensions _ _ = inl (NonError _) |- _ =>
           apply getImageDimensions_rejects_with_Error in Hg; discriminate Hg
       | Hr : resizeImage _ _ _ = inl (NonError _) |- _ =>
           apply resizeImage_rejects_with_Error in Hr; discriminate Hr
       | Hc : cropToOriginalAspectRatio _ _ _ _ _ = inl (NonError _) |- _ =>
           apply cropToOriginalAspectRatio_rejects_with_Error in Hc; discriminate Hc
       end.
  all: match goal with
       | |- exists earlier call, ?l = _ /\ _ =>
           exists (removelast l), (last l Call_newGoogleGenAI)
       end.
  all: cbn [removelast last].
  all: split; [reflexivity|].
  all: split; [cbn [rejection];
               repeat match goal with Hs : _ = _ |- _ => rewrite Hs end; reflexivity|].
  - now left.
  - right; left. eexists. split; [reflexivity|].
    now apply fileToPart_rejects_with_NonError.
  - right; left. eexists. split; [reflexivity|].
    now apply fileToPart_rejects_with_NonError.
  - right; right. eexists. split; reflexivity.
Qed.

Lemma unknown_error_comes_from_three_calls_witness :
  handleGenerate_catch (NonError "[object Object]")
    = "Failed to generate the image. An unknown error occurred." /\
  exists earlier call,
    snd (Scenario.go Session.unknownFailureWorld) = (earlier ++ [call])%list /\
    rejection Session.unknownFailureWorld call = Some (NonError "[object Object]") /\
    (call = Call_newGoogleGenAI \/
     (exists resized, call = Call_fileToPart resized /\
                      readAsDataURL Session.unknownFailureWorld resized
                        = ReaderError "[object Object]") \/
     (exists request, call = Call_generateContent request /\
                      model request = compositionModel)).
Proof.
  apply (unknown_error_comes_from_three_calls _ _ Session.unknownFailureWorld
           Scenario.designFile "poster.png" Scenario.contextFile "room.jpg"
           "[object Object]").
  vm_compute. reflexivity.
Defined.

(** X7.  Only the resized images reach the model.  Every request an
    invocation sends carries the part made from the resized context image,
    a file named as the upload and typed [image/jpeg]; a request is either
    the description request, which carries no other image, or the
    composition request, whose first part is made from the resized design
    image, whose second part is that same context part, and whose prompt
    holds the text the description call returned.  The files the user
    uploaded are never sent themselves. *)
Theorem only_resized_images_reach_the_model :
  forall (R : Type) (N : JSNumber R) (W : World R)
         (designImage : File) (designDescription : string)
         (contextImage : File) (contextDescription : string)
         (request : GenerateContentParameters),
    let settled := run W designImage designDescription contextImage contextDescription in
    In (Call_generateContent request) (snd settled) ->
    exists resizedContext contextPart,
      resizeImage W contextImage MAX_DIMENSION = resolve resizedContext /\
      file_name resizedContext = file_name contextImage /\
      file_type resizedContext = "image/jpeg" /\
      fileToPart W resizedContext = resolve contextPart /\
      (request = describeRequest contextPart \/
       exists resizedDesign designPart description,
         resizeImage W designImage MAX_DIMENSION = resolve resizedDesign /\
         file_name resizedDesign = file_name designImage /\
         file_type resizedDesign = "image/jpeg" /\
         fileToPart W resizedDesign = resolve designPart /\
         generateContent W (describeRequest contextPart) = resolve description /\
         request = composeRequest designPart contextPart (response_text description)).
Proof.
  intros R N W designImage designDescription contextImage contextDescription
    request settled Hin. subst settled.
  destruct (run_paths W designImage designDescription contextImage contextDescription);
    explicit_history; each_call Hin.
  all: injection Hin as <-.
  all: repeat match goal with
       | Hr : resizeImage _ ?f _ = inr ?r |- _ =>
           lazymatch goal with
           | _ : file_name r = file_name f |- _ => fail
           | _ => destruct (resizeImage_stamps_output _ _ _ _ Hr) as (? & ? & _)
           end
       end.
  all: eexists; eexists.
  all: split; [eassumption|]. all: split; [assumption|]. all: split; [assumption|].
  all: split; [eassumption|].
  all: first [ left; reflexivity
             | right; eexists; eexists; eexists;
               split; [eassumption|]; split; [assumption|]; split; [assumption|];
               split; [eassumption|]; split; [eassumption|]; reflexivity ].
Qed.

Lemma only_resized_images_reach_the_model_witness :
  exists resizedContext contextPart,
    resizeImage Scenario.happyWorld Scenario.contextFile MAX_DIMENSION
      = resolve resizedContext /\
    file_name resizedContext = file_name Scenario.contextFile /\
    file_type resizedContext = "image/jpeg" /\
    fileToPart Scenario.happyWorld resizedContext = resolve contextPart /\
    (composeRequest Scenario.squarePart Scenario.squarePart Scenario.tvDescription
       = describeRequest contextPart \/
     exists resizedDesign designPart description,
       resizeImage Scenario.happyWorld Scenario.designFile MAX_DIMENSION
         = resolve resizedDesign /\
       file_name resizedDesign = file_name Scenario.designFile /\
       file_type resizedDesign = "image/jpeg" /\
       fileToPart Scenario.happyWorld resizedDesign = resolve designPart /\
       generateContent Scenario.happyWorld (describeRequest contextPart)
         = resolve description /\
       composeRequest Scenario.squarePart Scenario.squarePart Scenario.tvDescription
         = composeRequest designPart contextPart (response_text description)).
Proof.
  apply (only_resized_images_reach_the_model _ _ Scenario.happyWorld
           Scenario.designFile "poster.png" Scenario.contextFile "room.jpg").
  vm_compute. do 7 right. left. reflexivity.
Defined.



(** X9.  Of the parts of candidate 0, the first that carries inline data is
    the one used: parts before it without inline data are skipped, and
    nothing after it, nor any later candidate, is looked at. *)
Theorem first_image_part_is_selected :
  forall (before after : list Part) (part : Part) (payload : InlineData)
         (later : list Candidate) (s : string),
    (forall p, In p before -> inlineData p = None) ->
    inlineData part = Some payload ->
    selectedInlineData
      {| candidates :=
           Some ({| content := Some {| parts := Some (before ++ part :: after)%list |} |}
                 :: later);
         response_text := s |}
    = Some payload.
Proof.
  intros before after part payload later s Hbefore Hpart.
  unfold selectedInlineData, imagePartFromResponse. cbn [candidates content parts].
  assert (Hfind : find hasInlineData (before ++ part :: after)%list = Some part).
  { induction before as [|p before IH]; cbn [app find].
    - unfold hasInlineData. now rewrite Hpart.
    - unfold hasInlineData at 1. rewrite (Hbefore p (or_introl eq_refl)).
      apply IH. intros q Hq. apply Hbefore. now right. }
  now rewrite Hfind.
Qed.

Lemma first_image_part_is_selected_witness :
  selectedInlineData
    {| candidates :=
         Some ({| content :=
                    Some {| parts := Some ([textPartOf "Here you go."] ++
                                           inlinePartOf Scenario.pngPayload ::
                                           [inlinePartOf {| mimeType := "image/webp";
                                                            data := "T1RIRVI=" |}])%list |} |}
               :: [Scenario.textCandidate]);
       response_text := EmptyString |}
  = Some Scenario.pngPayload.
Proof.
  apply (first_image_part_is_selected [textPartOf "Here you go."]).
  - intros p [<-|[]]. reflexivity.
  - reflexivity.
Defined.

(** ** The application component: what a session can reach *)

Section ComponentInvariant.
Context {R : Type} `{JSNumber R}.
Variable W : World R.
Variable createObjectURL : File -> Completion string.

Lemma failure_truthy (m : string) :
  generateFailure m \/ designFailure m -> truthy m = true.
Proof. intros [[d ->]|[d ->]]; reflexivity. Qed.

Lemma nextLoadingMessageIndex_bound (i : nat) : (App.nextLoadingMessageIndex i < 6)%nat.
Proof. unfold App.nextLoadingMessageIndex. apply Nat.mod_upper_bound. discriminate. Qed.

Lemma Reachable_Invariant (c : App.Component) :
  App.Reachable W createObjectURL c -> Invariant c.
Proof.
  induction 1 as [|c e Hc IH Hposs].
  - repeat split; cbn; try discriminate; lia.
  - destruct c as [s pend]. destruct IH as (Hd & Hl & He & Hp & Hi).
    cbn [App.state App.pending] in *.
    assert (Herr : App.truthyOrNull (App.error s) = false -> App.error s = None).
    { destruct (App.error s) as [m|] eqn:Em; [|reflexivity]. cbn.
      destruct (He m eq_refl) as (_ & _ & Hm). now rewrite (failure_truthy m Hm). }
    destruct s as [sd df ci il er idx gu].
    cbn [App.selectedDesign App.designImageFile App.contextImage App.isLoading
         App.error App.loadingMessageIndex App.generatedImageUrl] in *.
    destruct e; cbn [App.possible App.state App.pending] in Hposs.
    all: unfold App.renderContent in Hposs.
    all: cbn [App.selectedDesign App.designImageFile App.contextImage App.isLoading
         App.error App.loadingMessageIndex App.generatedImageUrl] in Hposs.
    all: try (destruct (App.truthyOrNull er) eqn:Eer; [discriminate Hposs|];
              destruct il; [discriminate Hposs|];
              destruct (App.truthyOrNull gu) eqn:Egu; [discriminate Hposs|];
              specialize (Herr eq_refl); subst er;
              destruct pend as [|p [|p' pend]]; [|destruct Hp as [Hp _]; discriminate Hp|contradiction]).
    + (* SelectContext *)
      repeat split; cbn; try assumption; try discriminate; intros; try discriminate.
    + (* SelectDesign *)
      unfold App.step, App.handle, App.handleDesignImageUpload.
      cbn [App.state App.pending].
      destruct (createObjectURL file) as [err|url];
        repeat split; cbn; try assumption; try discriminate; intros; try discriminate.
      match goal with Hm : App.error _ = Some _ |- _ => cbn in Hm; injection Hm as <- end. right. eexists. reflexivity.
    + (* ClickGenerate *)
      cbn [App.offers] in Hposs. apply andb_prop in Hposs as [Hdf Hci].
      destruct df as [f|]; [|discriminate Hdf]. destruct ci as [g|]; [|discriminate Hci].
      destruct sd as [d|]; [|contradiction].
      repeat split; cbn; try assumption; try discriminate; intros; try discriminate; lia.
    + (* ClickTryAgain *)
      destruct (App.truthyOrNull er) eqn:Eer;
        [|destruct il; [|destruct (App.truthyOrNull gu)]; discriminate Hposs].
      destruct er as [m|]; [|discriminate Eer].
      destruct (He m eq_refl) as (-> & _ & _).
      destruct pend as [|p [|p' pend]];
        [|destruct Hp as [Hp _]; discriminate Hp|contradiction].
      repeat split; cbn; try assumption; try discriminate; intros; try discriminate.
    + (* ClickStartOver *)
      destruct (App.truthyOrNull er) eqn:Eer; [discriminate Hposs|].
      destruct il; [discriminate Hposs|].
      destruct pend as [|p [|p' pend]];
        [|destruct Hp as [Hp _]; discriminate Hp|contradiction].
      repeat split; cbn; try assumption; try discriminate; intros; try discriminate.
    + (* ClickDownload *)
      destruct (App.truthyOrNull er) eqn:Eer; [discriminate Hposs|].
      destruct il; [discriminate Hposs|].
      specialize (Herr eq_refl). subst er.
      unfold Invariant. cbn.
      repeat split; cbn; try assumption; try discriminate; intros; try discriminate.
    + (* Tick *)
      subst il. destruct (Hl eq_refl) as [-> ->].
      unfold Invariant.
      repeat split; cbn -[App.nextLoadingMessageIndex];
        try assumption; try discriminate; intros; try discriminate.
      apply nextLoadingMessageIndex_bound.
    + (* Settle *)
      unfold App.step, App.handle. cbn [App.state App.pending].
      destruct (nth_error pend n) as [p|] eqn:En; [|discriminate Hposs].
      destruct pend as [|p0 [|p' pend]]; [destruct n; discriminate En| |contradiction].
      destruct n as [|n]; [|destruct n; discriminate En].
      injection En as ->.
      destruct Hp as (-> & Hdf & Hci & Hdd & Hcd). destruct (Hl eq_refl) as [-> ->].
      unfold App.handleGenerate_settle.
      destruct (fst (run W _ _ _ _)) as [err|result].
      * repeat split; cbn; try assumption; try discriminate; intros; try discriminate.
        match goal with Hm : App.error _ = Some _ |- _ => cbn in Hm; injection Hm as <- end. left. eexists. reflexivity.
      * destruct (loadImage W _) as [err|img].
        -- repeat split; cbn; try assumption; try discriminate; intros; try discriminate.
        -- repeat split; cbn; try assumption; try discriminate; intros; try discriminate.
Qed.
End ComponentInvariant.

(** X13.  The guard of [handleGenerate] is never hit from the screen.  In
    every state a session can reach, the error state never holds "An
    unexpected error occurred. Please upload both a design and context
    file."; and whenever "3. Generate!" is on the screen, both files and the
    selected design are set, the invocation is started on those two files
    with their file names as the two descriptions, and once the effect of
    that render has run the screen is the spinner with the first caption. *)
Theorem generate_guard_is_never_hit :
  forall (R : Type) (N : JSNumber R) (W : World R)
         (createObjectURL : File -> Completion string) (c : App.Component),
    App.Reachable W createObjectURL c ->
    App.error (App.state c) <> Some guardMessage /\
    (App.possible c App.ClickGenerate = true ->
     exists design context,
       App.designImageFile (App.state c) = Some design /\
       App.contextImage (App.state c) = Some context /\
       snd (App.handleGenerate_start (App.state c)) =
         Some {| App.pending_designImage := design;
                 App.pending_designDescription := file_name design;
                 App.pending_contextImage := context;
                 App.pending_contextDescription := file_name context |} /\
       App.renderContent (App.state (App.step W createObjectURL App.ClickGenerate c)) =
         App.LoadingScreen (Some "Analyzing your design...")).
Proof.
  intros R N W createObjectURL c Hc.
  destruct (Reachable_Invariant W createObjectURL c Hc) as (Hd & Hl & He & Hp & Hi).
  split.
  - intros Hguard. destruct (He _ Hguard) as (_ & _ & [[d Hm]|[d Hm]]); discriminate Hm.
  - destruct c as [[sd df ci il er idx gu] pend].
    cbn [App.state App.selectedDesign App.designImageFile App.contextImage App.isLoading
         App.error App.loadingMessageIndex App.generatedImageUrl] in *.
    unfold App.possible, App.renderContent.
    cbn [App.state App.selectedDesign App.designImageFile App.contextImage App.isLoading
         App.error App.loadingMessageIndex App.generatedImageUrl].
    destruct (App.truthyOrNull er) eqn:Eer; [discriminate|].
    destruct il; [discriminate|].
    destruct (App.truthyOrNull gu) eqn:Egu; [discriminate|].
    cbn [App.offers]. intros Hboth. apply andb_prop in Hboth as [Hdf Hci].
    destruct df as [f|]; [|discriminate Hdf]. destruct ci as [g|]; [|discriminate Hci].
    destruct sd as [d|]; [|contradiction].
    exists f, g. split; [reflexivity|]. split; [reflexivity|].
    split; [cbn; now rewrite Hd|]. reflexivity.
Qed.

Lemma generate_guard_is_never_hit_witness :
  App.error (App.state (Session.uploaded Scenario.happyWorld)) <> Some guardMessage /\
  (App.possible (Session.uploaded Scenario.happyWorld) App.ClickGenerate = true ->
   exists design context,
     App.designImageFile (App.state (Session.uploaded Scenario.happyWorld)) = Some design /\
     App.contextImage (App.state (Session.uploaded Scenario.happyWorld)) = Some context /\
     snd (App.handleGenerate_start (App.state (Session.uploaded Scenario.happyWorld))) =
       Some {| App.pending_designImage := design;
               App.pending_designDescription := file_name design;
               App.pending_contextImage := context;
               App.pending_contextDescription := file_name context |} /\
     App.renderContent (App.state (Session.generating Scenario.happyWorld)) =
       App.LoadingScreen (Some "Analyzing your design...")).
Proof.
  apply (generate_guard_is_never_hit _ _ Scenario.happyWorld Session.createObjectURL
           (Session.uploaded Scenario.happyWorld)).
  apply App.Reachable_step; [apply App.Reachable_step; [apply App.Reachable_mount|]|];
    reflexivity.
Defined.

(** X14.  One invocation at a time.  In every state a session can reach
    at most one invocation is pending, and while one is pending the screen
    is the spinner, with one of the six captions, and offers nothing: only
    the interval and the settlement of that invocation can happen.  The
    user can neither start a second generation nor change a file while one
    is running. *)
Theorem one_invocation_at_a_time :
  forall (R : Type) (N : JSNumber R) (W : World R)
         (createObjectURL : File -> Completion string) (c : App.Component),
    App.Reachable W createObjectURL c ->
    (List.length (App.pending c) <= 1)%nat /\
    (App.pending c <> [] ->
     (exists caption,
        In caption App.loadingMessages /\
        App.renderContent (App.state c) = App.LoadingScreen (Some caption)) /\
     (forall e, App.possible c e = true -> e = App.Tick \/ e = App.Settle 0)).
Proof.
  intros R N W createObjectURL c Hc.
  destruct (Reachable_Invariant W createObjectURL c Hc) as (Hd & Hl & He & Hp & Hi).
  destruct c as [s [|p [|p' pend]]]; cbn [App.state App.pending] in *;
    [split; [cbn; lia|intros Hne; now destruct Hne] | | contradiction].
  split; [cbn; lia|]. intros _.
  destruct Hp as (Hload & _). destruct (Hl Hload) as [Herr Hgen].
  assert (Hscreen : App.renderContent s =
            App.LoadingScreen (nth_error App.loadingMessages (App.loadingMessageIndex s))).
  { unfold App.renderContent. now rewrite Herr, Hload. }
  split.
  - destruct (nth_error App.loadingMessages (App.loadingMessageIndex s)) as [caption|] eqn:En.
    + exists caption. split; [eapply nth_error_In; exact En | exact Hscreen].
    + apply nth_error_None in En. cbn in En. lia.
  - intros e. unfold App.possible. cbn [App.state App.pending]. rewrite Hscreen.
    destruct e as [f|f| | | | | |[|n]]; cbn; try discriminate; auto.
    destruct n; discriminate.
Qed.

Lemma one_invocation_at_a_time_witness :
  (List.length (App.pending (Session.generating Scenario.happyWorld)) <= 1)%nat /\
  (App.pending (Session.generating Scenario.happyWorld) <> [] ->
   (exists caption,
      In caption App.loadingMessages /\
      App.renderContent (App.state (Session.generating Scenario.happyWorld))
        = App.LoadingScreen (Some caption)) /\
   (forall e, App.possible (Session.generating Scenario.happyWorld) e = true ->
      e = App.Tick \/ e = App.Settle 0)).
Proof.
  apply (one_invocation_at_a_time _ _ Scenario.happyWorld Session.createObjectURL
           (Session.generating Scenario.happyWorld)).
  apply App.Reachable_step;
    [apply App.Reachable_step; [apply App.Reachable_step; [apply App.Reachable_mount|]|]|];
    reflexivity.
Defined.

(** X15.  Error, spinner and result exclude each other.  In every state a
    session can reach: while loading there is no error and no result; when
    an error is set it is not empty, nothing is loading or pending and no
    result is shown; when a result is set there is no error and nothing is
    loading or pending.  So the order in which [renderContent] tests the
    three never hides one behind another. *)
Theorem error_spinner_and_result_exclude_each_other :
  forall (R : Type) (N : JSNumber R) (W : World R)
         (createObjectURL : File -> Completion string) (c : App.Component),
    App.Reachable W createObjectURL c ->
    let s := App.state c in
    (App.isLoading s = true -> App.error s = None /\ App.generatedImageUrl s = None) /\
    (forall message, App.error s = Some message ->
       truthy message = true /\ App.isLoading s = false /\
       App.truthyOrNull (App.generatedImageUrl s) = false /\
       App.pending c = []) /\
    (App.truthyOrNull (App.generatedImageUrl s) = true ->
       App.error s = None /\ App.isLoading s = false /\ App.pending c = []).
Proof.
  intros R N W createObjectURL c Hc s. subst s.
  destruct (Reachable_Invariant W createObjectURL c Hc) as (Hd & Hl & He & Hp & Hi).
  assert (Hidle : App.isLoading (App.state c) = false -> App.pending c = []).
  { intros Hf. destruct (App.pending c) as [|p [|p' pend]]; [reflexivity| |contradiction].
    destruct Hp as [Hp _]. congruence. }
  split; [exact Hl|]. split.
  - intros m Hm. destruct (He m Hm) as (Hf & Hg & Hk).
    split; [now apply failure_truthy|]. split; [exact Hf|]. split; [exact Hg|].
    now apply Hidle.
  - intros Hg.
    assert (Hf : App.isLoading (App.state c) = false).
    { destruct (App.isLoading (App.state c)) eqn:E; [|reflexivity].
      destruct (Hl eq_refl) as [_ Hn]. rewrite Hn in Hg. discriminate Hg. }
    split; [|split; [exact Hf | now apply Hidle]].
    destruct (App.error (App.state c)) as [m|] eqn:Em; [|reflexivity].
    destruct (He m eq_refl) as (_ & Hn & _). congruence.
Qed.

Lemma error_spinner_and_result_exclude_each_other_witness :
  let c := App.step Scenario.composeFailsWorld Session.createObjectURL (App.Settle 0)
             (Session.generating Scenario.composeFailsWorld) in
  let s := App.state c in
  (App.isLoading s = true -> App.error s = None /\ App.generatedImageUrl s = None) /\
  (forall message, App.error s = Some message ->
     truthy message = true /\ App.isLoading s = false /\
     App.truthyOrNull (App.generatedImageUrl s) = false /\
     App.pending c = []) /\
  (App.truthyOrNull (App.generatedImageUrl s) = true ->
     App.error s = None /\ App.isLoading s = false /\ App.pending c = []).
Proof.
  apply (error_spinner_and_result_exclude_each_other _ _ Scenario.composeFailsWorld
           Session.createObjectURL).
  apply App.Reachable_step;
    [apply App.Reachable_step;
       [apply App.Reachable_step; [apply App.Reachable_step; [apply App.Reachable_mount|]|]|]|];
    reflexivity.
Defined.

(** X16.  How a generation ends.  When the pending invocation settles, it
    was run on the two files still in the state, nothing is pending
    afterwards, and: if it rejected, the screen is the error screen with
    the text of the [catch] clause; if it resolved and the image preloads,
    the screen shows that image; if it resolved and the image fails to
    preload, the state is unchanged, since the [throw] of the preload's
    [onerror] is caught by nothing. *)
Theorem settlement_shows_result_or_error :
  forall (R : Type) (N : JSNumber R) (W : World R)
         (createObjectURL : File -> Completion string) (c : App.Component)
         (p : App.Pending),
    App.Reachable W createObjectURL c ->
    App.pending c = [p] ->
    let design := App.pending_designImage p in
    let context := App.pending_contextImage p in
    let c' := App.step W createObjectURL (App.Settle 0) c in
    App.designImageFile (App.state c) = Some design /\
    App.contextImage (App.state c) = Some context /\
    App.pending c' = [] /\
    match fst (run W design (file_name design) context (file_name context)) with
    | inl err =>
        App.renderContent (App.state c') = App.ErrorScreen (handleGenerate_catch err)
    | inr result =>
        match loadImage W (finalImageUrl result) with
        | ImageLoad _ =>
            truthy (finalImageUrl result) = true ->
            App.renderContent (App.state c') = App.ResultScreen (finalImageUrl result)
        | ImageError _ => App.state c' = App.state c
        end
    end.
Proof.
  intros R N W createObjectURL c p Hc Hpend design context c'. subst design context c'.
  destruct (Reachable_Invariant W createObjectURL c Hc) as (Hd & Hl & He & Hp & Hi).
  destruct c as [s pend]. cbn [App.state App.pending] in *. subst pend.
  destruct Hp as (Hload & Hdf & Hci & Hdd & Hcd). destruct (Hl Hload) as [Herr Hgen].
  split; [exact Hdf|]. split; [exact Hci|]. split; [reflexivity|].
  unfold App.step, App.handle. cbn [App.state App.pending nth_error].
  unfold App.handleGenerate_settle. rewrite Hdd, Hcd.
  destruct (fst (run W _ _ _ _)) as [err|result].
  - unfold App.useEffect_isLoading, App.renderContent. cbn. rewrite Hload. cbn.
    destruct err as [m|v]; reflexivity.
  - destruct (loadImage W _) as [err|img].
    + unfold App.useEffect_isLoading. rewrite Bool.eqb_reflx. reflexivity.
    + intros Hurl. unfold App.useEffect_isLoading, App.renderContent. cbn.
      rewrite Hload. cbn. now rewrite Herr, Hurl.
Qed.

Lemma settlement_shows_result_or_error_witness :
  let c := Session.generating Scenario.happyWorld in
  let c' := App.step Scenario.happyWorld Session.createObjectURL (App.Settle 0) c in
  App.designImageFile (App.state c) = Some Scenario.designFile /\
  App.contextImage (App.state c) = Some Scenario.contextFile /\
  App.pending c' = [] /\
  (truthy "data:image/jpeg;base64,Q1JPUFBFRA==" = true ->
   App.renderContent (App.state c') =
     App.ResultScreen "data:image/jpeg;base64,Q1JPUFBFRA==").
Proof.
  assert (Hreach : App.Reachable Scenario.happyWorld Session.createObjectURL
                     (Session.generating Scenario.happyWorld)).
  { apply App.Reachable_step;
      [apply App.Reachable_step; [apply App.Reachable_step; [apply App.Reachable_mount|]|]|];
      reflexivity. }
  exact (settlement_shows_result_or_error _ _ Scenario.happyWorld Session.createObjectURL
           (Session.generating Scenario.happyWorld) Session.invocation Hreach eq_refl).
Defined.

Lemma Steps_Reachable {R} `{JSNumber R} (W : World R)
    (createObjectURL : File -> Completion string) (c c' : App.Component) :
  App.Reachable W createObjectURL c -> App.Steps W createObjectURL c c' ->
  App.Reachable W createObjectURL c'.
Proof.
  intros Hc Hsteps. induction Hsteps as [|c' e _ IH Hposs]; [exact Hc|].
  now apply App.Reachable_step.
Qed.

(** X17.  A failed preload leaves the spinner on for ever.  If the
    invocation resolves with an image URL that fails to load, then in
    every state the session can reach afterwards nothing is pending, no
    error and no result is set, the screen is the spinner with one of the
    captions, and the only event that can happen is the interval: there is
    no way back to the upload screen. *)
Theorem failed_preload_leaves_the_spinner_forever :
  forall (R : Type) (N : JSNumber R) (W : World R)
         (createObjectURL : File -> Completion string) (c : App.Component)
         (p : App.Pending) (result : CompositeResult) (err : string),
    App.Reachable W createObjectURL c ->
    App.pending c = [p] ->
    fst (run W (App.pending_designImage p) (App.pending_designDescription p)
           (App.pending_contextImage p) (App.pending_contextDescription p))
      = resolve result ->
    loadImage W (finalImageUrl result) = ImageError err ->
    forall c',
      App.Steps W createObjectURL (App.step W createObjectURL (App.Settle 0) c) c' ->
      App.pending c' = [] /\
      App.error (App.state c') = None /\
      App.generatedImageUrl (App.state c') = None /\
      (exists caption,
         App.renderContent (App.state c') = App.LoadingScreen (Some caption)) /\
      (forall e, App.possible c' e = true -> e = App.Tick).
Proof.
  intros R N W createObjectURL c p result err Hc Hpend Hrun Hload c' Hsteps.
  assert (Hstart : App.pending (App.step W createObjectURL (App.Settle 0) c) = [] /\
                   App.isLoading (App.state (App.step W createObjectURL (App.Settle 0) c))
                     = true).
  { destruct (Reachable_Invariant W createObjectURL c Hc) as (_ & _ & _ & Hp & _).
    destruct c as [s pend]. cbn [App.state App.pending] in *. subst pend.
    destruct Hp as (Hl & _).
    unfold App.step, App.handle. cbn [App.state App.pending nth_error].
    unfold App.handleGenerate_settle. unfold resolve in Hrun. rewrite Hrun, Hload.
    unfold App.useEffect_isLoading. rewrite Bool.eqb_reflx. cbn. now split. }
  assert (Hreach : App.Reachable W createObjectURL
                     (App.step W createObjectURL (App.Settle 0) c)).
  { apply App.Reachable_step; [exact Hc|]. cbn. now rewrite Hpend. }
  assert (Hstay : App.pending c' = [] /\ App.isLoading (App.state c') = true).
  { induction Hsteps as [|c' e Hsteps IH Hposs]; [exact Hstart|].
    destruct IH as [Hnone Hl].
    pose proof (Steps_Reachable W createObjectURL _ _ Hreach Hsteps) as Hc'.
    destruct (Reachable_Invariant W createObjectURL c' Hc') as (_ & Hl' & _ & _ & _).
    destruct (Hl' Hl) as [Herr Hgen].
    destruct c' as [s pend]. cbn [App.state App.pending] in *. subst pend.
    assert (Hscreen : App.renderContent s =
              App.LoadingScreen (nth_error App.loadingMessages (App.loadingMessageIndex s))).
    { unfold App.renderContent. now rewrite Herr, Hl. }
    destruct e as [f|f| | | | | |n]; unfold App.possible in Hposs;
      cbn [App.state App.pending] in Hposs; try rewrite Hscreen in Hposs;
      try discriminate Hposs.
    - unfold App.step, App.handle, App.useEffect_isLoading. cbn. rewrite Hl.
      cbn. now split.
    - destruct n; discriminate Hposs. }
  destruct Hstay as [Hnone Hl].
  pose proof (Steps_Reachable W createObjectURL _ _ Hreach Hsteps) as Hc'.
  destruct (Reachable_Invariant W createObjectURL c' Hc') as (_ & Hl' & _ & _ & Hi).
  destruct (Hl' Hl) as [Herr Hgen].
  assert (Hscreen : App.renderContent (App.state c') =
            App.LoadingScreen
              (nth_error App.loadingMessages (App.loadingMessageIndex (App.state c')))).
  { unfold App.renderContent. now rewrite Herr, Hl. }
  split; [exact Hnone|]. split; [exact Herr|]. split; [exact Hgen|]. split.
  - destruct (nth_error App.loadingMessages (App.loadingMessageIndex (App.state c')))
      as [caption|] eqn:En.
    + exists caption. exact Hscreen.
    + apply nth_error_None in En. cbn in En. lia.
  - intros e. unfold App.possible. rewrite Hscreen, Hnone.
    destruct e as [f|f| | | | | |n]; cbn; try discriminate; auto.
    destruct n; discriminate.
Qed.

Lemma failed_preload_leaves_the_spinner_forever_witness :
  let c' := App.ticks Session.panoramaWorld Session.createObjectURL 7
              (App.step Session.panoramaWorld Session.createObjectURL (App.Settle 0)
                 (Session.generating Session.panoramaWorld)) in
  App.pending c' = [] /\
  App.error (App.state c') = None /\
  App.generatedImageUrl (App.state c') = None /\
  (exists caption,
     App.renderContent (App.state c') = App.LoadingScreen (Some caption)) /\
  (forall e, App.possible c' e = true -> e = App.Tick).
Proof.
  apply (failed_preload_leaves_the_spinner_forever _ _ Session.panoramaWorld
           Session.createObjectURL (Session.generating Session.panoramaWorld)
           Session.invocation {| finalImageUrl := "data:," |} "[object Event]").
  - apply App.Reachable_step;
      [apply App.Reachable_step; [apply App.Reachable_step; [apply App.Reachable_mount|]|]|];
      reflexivity.
  - reflexivity.
  - vm_compute. reflexivity.
  - reflexivity.
  - cbn [App.ticks].
    do 7 (apply App.Steps_next; [|reflexivity]). apply App.Steps_none.
Defined.

(** X18.  "Try Again" starts from scratch.  On the error screen the only
    thing that can happen is a click on "Try Again", and it clears both
    uploaded files and the selected design: the screen after it is the
    upload screen without a design and without the "3. Generate!" button.
    Nothing is generated again from the files of the failed attempt. *)
Theorem try_again_discards_both_uploads :
  forall (R : Type) (N : JSNumber R) (W : World R)
         (createObjectURL : File -> Completion string) (c : App.Component)
         (message : string),
    App.Reachable W createObjectURL c ->
    App.renderContent (App.state c) = App.ErrorScreen message ->
    (forall e, App.possible c e = true -> e = App.ClickTryAgain) /\
    let c' := App.step W createObjectURL App.ClickTryAgain c in
    App.designImageFile (App.state c') = None /\
    App.contextImage (App.state c') = None /\
    App.selectedDesign (App.state c') = None /\
    App.pending c' = [] /\
    App.renderContent (App.state c') = App.UploadScreen None false.
Proof.
  intros R N W createObjectURL c message Hc Hscreen.
  destruct (Reachable_Invariant W createObjectURL c Hc) as (_ & Hl & He & Hp & _).
  assert (Hset : exists m, App.error (App.state c) = Some m).
  { unfold App.renderContent in Hscreen.
    destruct (App.error (App.state c)) as [m|]; [now exists m|]. cbn in Hscreen.
    destruct (App.isLoading (App.state c)); [discriminate|].
    destruct (App.truthyOrNull _); discriminate. }
  destruct Hset as [m Hm]. destruct (He m Hm) as (Hidle & _ & _).
  assert (Hnone : App.pending c = []).
  { destruct (App.pending c) as [|p [|p' pend]]; [reflexivity| |contradiction].
    destruct Hp as [Hp _]. congruence. }
  split.
  - intros e. unfold App.possible. rewrite Hscreen, Hidle, Hnone.
    destruct e as [f|f| | | | | |n]; cbn; try discriminate; auto.
    destruct n; discriminate.
  - cbn zeta. destruct c as [s pend]. cbn [App.state App.pending] in *. subst pend.
    unfold App.step, App.handle, App.useEffect_isLoading. cbn. rewrite Hidle. cbn.
    repeat split.
Qed.

Lemma try_again_discards_both_uploads_witness :
  let c := App.step Scenario.composeFailsWorld Session.createObjectURL (App.Settle 0)
             (Session.generating Scenario.composeFailsWorld) in
  (forall e, App.possible c e = true -> e = App.ClickTryAgain) /\
  let c' := App.step Scenario.composeFailsWorld Session.createObjectURL App.ClickTryAgain c in
  App.designImageFile (App.state c') = None /\
  App.contextImage (App.state c') = None /\
  App.selectedDesign (App.state c') = None /\
  App.pending c' = [] /\
  App.renderContent (App.state c') = App.UploadScreen None false.
Proof.
  apply (try_again_discards_both_uploads _ _ Scenario.composeFailsWorld
           Session.createObjectURL _
           "Failed to generate the image. got status: 503 Service Unavailable").
  - apply App.Reachable_step;
      [apply App.Reachable_step;
         [apply App.Reachable_step;
            [apply App.Reachable_step; [apply App.Reachable_mount|]|]|]|];
      reflexivity.
  - vm_compute. reflexivity.
Defined.

Lemma ticks_index {R} `{JSNumber R} (W : World R)
    (createObjectURL : File -> Completion string) (c : App.Component) (n : nat) :
  App.isLoading (App.state (App.ticks W createObjectURL n c)) = App.isLoading (App.state c) /\
  App.error (App.state (App.ticks W createObjectURL n c)) = App.error (App.state c) /\
  App.loadingMessageIndex (App.state (App.ticks W createObjectURL n c))
    = match n with
      | O => App.loadingMessageIndex (App.state c)
      | _ => ((App.loadingMessageIndex (App.state c) + n) mod 6)%nat
      end.
Proof.
  induction n as [|n (IHl & IHe & IHi)]; [repeat split|].
  cbn [App.ticks]. unfold App.step at 1 2 3, App.handle, App.useEffect_isLoading.
  cbn [App.state App.pending App.isLoading App.error App.loadingMessageIndex
       App.setLoadingMessageIndex].
  rewrite Bool.eqb_reflx.
  cbn [negb andb App.isLoading App.error App.loadingMessageIndex
       App.setLoadingMessageIndex].
  split; [exact IHl|]. split; [exact IHe|].
  rewrite IHi. unfold App.nextLoadingMessageIndex.
  change (List.length App.loadingMessages) with 6%nat.
  destruct n as [|n].
  - reflexivity.
  - rewrite Nat.Div0.add_mod_idemp_l. f_equal. lia.
Qed.

Lemma generate_starts_loading {R} `{JSNumber R} (W : World R)
    (createObjectURL : File -> Completion string) (c : App.Component) :
  App.Reachable W createObjectURL c ->
  App.possible c App.ClickGenerate = true ->
  let c' := App.step W createObjectURL App.ClickGenerate c in
  App.isLoading (App.state c') = true /\ App.error (App.state c') = None /\
  App.loadingMessageIndex (App.state c') = 0%nat.
Proof.
  intros Hc Hposs c'. subst c'.
  destruct (Reachable_Invariant W createObjectURL c Hc) as (Hd & _).
  destruct c as [[sd df ci il er idx gu] pend].
  cbn [App.state App.selectedDesign App.designImageFile App.contextImage App.isLoading
       App.error App.loadingMessageIndex App.generatedImageUrl] in *.
  unfold App.possible, App.renderContent in Hposs.
  cbn [App.state App.selectedDesign App.designImageFile App.contextImage App.isLoading
       App.error App.loadingMessageIndex App.generatedImageUrl] in Hposs.
  destruct (App.truthyOrNull er) eqn:Eer; [discriminate|].
  destruct il; [discriminate|].
  destruct (App.truthyOrNull gu) eqn:Egu; [discriminate|].
  cbn [App.offers] in Hposs. apply andb_prop in Hposs as [Hdf Hci].
  destruct df as [f|]; [|discriminate Hdf]. destruct ci as [g|]; [|discriminate Hci].
  destruct sd as [d|]; [|contradiction].
  repeat split.
Qed.

(** X19.  The loading caption.  After a click on "3. Generate!" and [n]
    rounds of the interval, all of which can happen, the screen is the
    spinner and its caption is message [n mod 6] of the six: it starts at
    the first and cycles, and the index never leaves the array. *)
Theorem loading_caption_cycles_through_the_messages :
  forall (R : Type) (N : JSNumber R) (W : World R)
         (createObjectURL : File -> Completion string) (c : App.Component),
    App.Reachable W createObjectURL c ->
    App.possible c App.ClickGenerate = true ->
    forall n : nat,
      let c' := App.ticks W createObjectURL n
                  (App.step W createObjectURL App.ClickGenerate c) in
      App.Steps W createObjectURL c c' /\
      App.renderContent (App.state c') =
        App.LoadingScreen (nth_error App.loadingMessages (n mod 6)) /\
      (n mod 6 < List.length App.loadingMessages)%nat.
Proof.
  intros R N W createObjectURL c Hc Hposs n c'. subst c'.
  set (c0 := App.step W createObjectURL App.ClickGenerate c).
  destruct (generate_starts_loading W createObjectURL c Hc Hposs) as (Hl & He & Hi).
  fold c0 in Hl, He, Hi.
  split; [|split].
  - induction n as [|n IH].
    + apply App.Steps_next; [apply App.Steps_none | exact Hposs].
    + cbn [App.ticks]. apply App.Steps_next; [exact IH|].
      cbn [App.possible].
      destruct (ticks_index W createObjectURL c0 n) as (-> & _ & _). exact Hl.
  - destruct (ticks_index W createObjectURL c0 n) as (Tl & Te & Ti).
    unfold App.renderContent. rewrite Te, He, Tl, Hl. cbn [App.truthyOrNull].
    rewrite Ti, Hi. destruct n; [reflexivity|]. reflexivity.
  - apply Nat.mod_upper_bound. discriminate.
Qed.

Lemma loading_caption_cycles_through_the_messages_witness :
  let c' := App.ticks Scenario.happyWorld Session.createObjectURL 8
              (Session.generating Scenario.happyWorld) in
  App.Steps Scenario.happyWorld Session.createObjectURL
    (Session.uploaded Scenario.happyWorld) c' /\
  App.renderContent (App.state c') =
    App.LoadingScreen (nth_error App.loadingMessages (8 mod 6)) /\
  (8 mod 6 < List.length App.loadingMessages)%nat.
Proof.
  apply (loading_caption_cycles_through_the_messages _ _ Scenario.happyWorld
           Session.createObjectURL (Session.uploaded Scenario.happyWorld)).
  - apply App.Reachable_step; [apply App.Reachable_step; [apply App.Reachable_mount|]|];
      reflexivity.
  - reflexivity.
Defined.

(** ** From the geometry to the screen *)

Section Panorama.
Local Open Scope Z_scope.

(** X20.  A panorama ends in an empty image, not in an error.  In a
    browser that encodes a canvas without pixels as ["data:,"], as the
    HTML standard has it, let the context photograph be more than 1024
    times as wide as it is high, or as high as wide (dimensions below
    [2^32]).  Then an invocation that resolves, resolves with
    ["data:,"]: the crop makes a canvas without pixels and nothing checks
    it.  And when that URL fails to preload, the settlement in
    [handleGenerate] leaves the state as it is: loading. *)
Theorem panorama_resolves_with_an_empty_image :
  forall (W : World Binary64.t)
         (designImage : File) (designDescription : string)
         (contextImage : File) (contextDescription : string)
         (dims : Dimensions) (result : CompositeResult),
    (forall (canvas : Canvas Binary64.t) (type : string) (quality : Q),
       canvas_width canvas = 0 \/ canvas_height canvas = 0 ->
       toDataURL W canvas type quality = "data:,") ->
    getImageDimensions W contextImage = resolve dims ->
    0 < width dims < 2 ^ 32 -> 0 < height dims < 2 ^ 32 ->
    1024 * height dims < width dims \/ 1024 * width dims < height dims ->
    fst (run W designImage designDescription contextImage contextDescription)
      = resolve result ->
    finalImageUrl result = "data:," /\
    forall (err : string) (s : App.State),
      loadImage W "data:," = ImageError err ->
      App.handleGenerate_settle W
        {| App.pending_designImage := designImage;
           App.pending_designDescription := designDescription;
           App.pending_contextImage := contextImage;
           App.pending_contextDescription := contextDescription |} s
      = s.
Proof.
  intros W designImage designDescription contextImage contextDescription dims result
    Hempty Hdims Hw Hh Hratio Hres.
  assert (Hfinal : finalImageUrl result = "data:,").
  { destruct (run_paths W designImage designDescription contextImage contextDescription);
      try discriminate Hres.
    injection Hres as <-. cbn [finalImageUrl].
    match goal with
    | Hc : cropToOriginalAspectRatio _ _ _ _ _ = inr _ |- _ =>
        destruct (cropToOriginalAspectRatio_resolves _ _ _ _ _ _ Hc) as (sq & _ & ->)
    end.
    match goal with
    | Hd : getImageDimensions _ _ = inr _ |- _ =>
        unfold resolve in Hdims; rewrite Hdims in Hd; injection Hd as <-
    end.
    repeat match goal with x := _ |- _ => subst x end.
    apply Hempty.
    destruct (binary64_crop_canvas_empty sq (width dims) (height dims) Hw Hh)
      as [Hwide Htall].
    destruct Hratio as [Hr|Hr]; [right; now apply Hwide | left; now apply Htall]. }
  split; [exact Hfinal|].
  intros err s Hload. unfold App.handleGenerate_settle.
  cbn [App.pending_designImage App.pending_designDescription App.pending_contextImage
       App.pending_contextDescription].
  unfold resolve in Hres. rewrite Hres. cbn zeta. rewrite Hfinal, Hload. reflexivity.
Qed.

Lemma panorama_resolves_with_an_empty_image_witness :
  finalImageUrl {| finalImageUrl := "data:," |} = "data:," /\
  forall (err : string) (s : App.State),
    loadImage Session.panoramaWorld "data:," = ImageError err ->
    App.handleGenerate_settle Session.panoramaWorld
      {| App.pending_designImage := Scenario.designFile;
         App.pending_designDescription := "poster.png";
         App.pending_contextImage := Scenario.contextFile;
         App.pending_contextDescription := "room.jpg" |} s
    = s.
Proof.
  apply (panorama_resolves_with_an_empty_image Session.panoramaWorld
           Scenario.designFile "poster.png" Scenario.contextFile "room.jpg"
           {| width := 3000; height := 2 |}).
  - intros [cw ch ops] type quality [Hz|Hz]; cbn in Hz; subst; cbn.
    + reflexivity.
    + now rewrite orb_true_r.
  - reflexivity.
  - cbn. lia.
  - cbn. lia.
  - left. cbn. lia.
  - vm_compute. reflexivity.
Defined.
End Panorama.
